(** * Zephyr retry migration script: a shallow embedding of
      [retry_failed_issues.py] and the properties of its workflow.

    The script is sequential glue around two HTTP clients.  The embedding
    keeps its structure: Python values coming back from the services are
    JSON values, every function that performs requests or mutates one of
    the run's dictionaries is a computation in a state-and-exception monad,
    and the remote services are an oracle answering the n-th request. *)

From Stdlib Require Import ZArith QArith String Ascii List Bool Lia DecimalString.
From stdpp Require Import base option list gmap strings sorting.

Set Warnings "-register-all".
Local Open Scope string_scope.
Local Open Scope Z_scope.
Local Open Scope list_scope.

(* ===================================================================== *)
(** ** Python strings (byte strings; only ASCII case and white space)     *)
(* ===================================================================== *)

Module PyStr.

(** [str.isspace] on the ASCII range: TAB..CR, FS..US and the blank. *)
Definition isspace (a : ascii) : bool :=
  let n := nat_of_ascii a in
  (((9 <=? n) && (n <=? 13)) || ((28 <=? n) && (n <=? 32)))%nat.

Definition is_upper (a : ascii) : bool :=
  let n := nat_of_ascii a in ((65 <=? n) && (n <=? 90))%nat.

Definition is_lower (a : ascii) : bool :=
  let n := nat_of_ascii a in ((97 <=? n) && (n <=? 122))%nat.

Definition lower_char (a : ascii) : ascii :=
  if is_upper a then ascii_of_nat (nat_of_ascii a + 32) else a.

Definition upper_char (a : ascii) : ascii :=
  if is_lower a then ascii_of_nat (nat_of_ascii a - 32) else a.

Fixpoint map_chars (f : ascii -> ascii) (s : string) : string :=
  match s with
  | EmptyString => EmptyString
  | String a s' => String (f a) (map_chars f s')
  end.

(** [s.lower()] and [s.upper()] on the bytes of the text: the letters of
    the ASCII range are mapped and every other byte is kept.  On ASCII text
    ([isascii]) these are Python's methods. *)
Definition lower : string -> string := map_chars lower_char.
Definition upper : string -> string := map_chars upper_char.

(** [s.isascii()]. *)
Fixpoint isascii (s : string) : bool :=
  match s with
  | EmptyString => true
  | String a s' => (nat_of_ascii a <? 128)%nat && isascii s'
  end.

Definition is_empty (s : string) : bool :=
  match s with EmptyString => true | _ => false end.

Fixpoint lstrip (s : string) : string :=
  match s with
  | EmptyString => EmptyString
  | String a s' => if isspace a then lstrip s' else s
  end.

Fixpoint rstrip (s : string) : string :=
  match s with
  | EmptyString => EmptyString
  | String a s' =>
      let r := rstrip s' in
      if is_empty r && isspace a then EmptyString else String a r
  end.

(** [s.strip()]. *)
Definition strip (s : string) : string := rstrip (lstrip s).

(** [s.split()]: the maximal runs of characters that are not white space. *)
Fixpoint split_go (cur : string) (s : string) : list string :=
  match s with
  | EmptyString => if is_empty cur then [] else [String.rev cur]
  | String a s' =>
      if isspace a
      then (if is_empty cur then [] else [String.rev cur]) ++ split_go EmptyString s'
      else split_go (String a cur) s'
  end.
Definition split : string -> list string := split_go EmptyString.

(** [sep.join(l)]. *)
Fixpoint join (sep : string) (l : list string) : string :=
  match l with
  | [] => EmptyString
  | [x] => x
  | x :: l' => x +:+ sep +:+ join sep l'
  end.

(** [s.replace(old, new)] for a non-empty [old]: occurrences are replaced
    from left to right and never overlap ([skip] characters of a match
    that has just been replaced are still to be dropped). *)
Fixpoint replace_go (old new : string) (skip : nat) (s : string) : string :=
  match s with
  | EmptyString => EmptyString
  | String a s' =>
      match skip with
      | S k => replace_go old new k s'
      | O =>
          if String.prefix old s
          then new +:+ replace_go old new (String.length old - 1) s'
          else String a (replace_go old new O s')
      end
  end.
Definition replace (old new s : string) : string := replace_go old new O s.

(** [str(n)] for an integer. *)
Definition of_Z (n : Z) : string := NilZero.string_of_int (Z.to_int n).

Definition digit (a : ascii) : option Z :=
  let n := nat_of_ascii a in
  if ((48 <=? n) && (n <=? 57))%nat then Some (Z.of_nat n - 48) else None.

(** The digits of an integer literal as [int()] reads them: a single
    underscore may stand between two digits. *)
Fixpoint digits_go (acc : Z) (prev : bool) (s : string) : option Z :=
  match s with
  | EmptyString => if prev then Some acc else None
  | String a s' =>
      match digit a with
      | Some d => digits_go (10 * acc + d) true s'
      | None =>
          if Ascii.eqb a "_" && prev then
            match s' with
            | String b _ =>
                match digit b with
                | Some _ => digits_go acc false s'
                | None => None
                end
            | EmptyString => None
            end
          else None
      end
  end.

(** [int(s)] in base ten: surrounding white space and one sign allowed. *)
Definition to_Z (s : string) : option Z :=
  match strip s with
  | String "-" s' => Z.opp <$> digits_go 0 false s'
  | String "+" s' => digits_go 0 false s'
  | s' => digits_go 0 false s'
  end.

End PyStr.

(* ===================================================================== *)
(** ** Python values decoded from JSON, and the builtins applied to them  *)
(* ===================================================================== *)

(** What [resp.json()] returns.  JSON numbers are the integers; [JNull] is
    Python's [None]. *)
Inductive json : Type :=
| JNull
| JBool (b : bool)
| JNum (n : Z)
| JStr (s : string)
| JList (l : list json)
| JDict (d : list (string * json)).

(** The exceptions the script can meet besides those of [requests]. *)
Inductive exn : Type :=
| KeyError | TypeError | ValueError | AttributeError | JSONDecodeError.

Inductive res (A : Type) : Type :=
| Ok (a : A)
| Raise (e : exn).
Arguments Ok {A} a.
Arguments Raise {A} e.

Module Py.

(** Truth value of an object, as [if x:] and [not x] test it. *)
Definition truthy (j : json) : bool :=
  match j with
  | JNull => false
  | JBool b => b
  | JNum n => negb (n =? 0)%Z
  | JStr s => negb (PyStr.is_empty s)
  | JList l => match l with [] => false | _ => true end
  | JDict d => match d with [] => false | _ => true end
  end.

(** Truth value of an [Optional[str]]. *)
Definition truthy_str (o : option string) : bool :=
  match o with
  | Some s => negb (PyStr.is_empty s)
  | None => false
  end.

(** [a or b]. *)
Definition or_else (a b : json) : json := if truthy a then a else b.

Fixpoint assoc (k : string) (d : list (string * json)) : option json :=
  match d with
  | [] => None
  | (k', v) :: d' => if String.eqb k k' then Some v else assoc k d'
  end.

(** [j.get(k, default)]: only dictionaries have the method. *)
Definition get (j : json) (k : string) (default : json) : res json :=
  match j with
  | JDict d => Ok (match assoc k d with Some v => v | None => default end)
  | _ => Raise AttributeError
  end.

(** [j[k]] for a string [k]. *)
Definition item (j : json) (k : string) : res json :=
  match j with
  | JDict d => match assoc k d with Some v => Ok v | None => Raise KeyError end
  | _ => Raise TypeError
  end.

(** [int(j)]. *)
Definition int (j : json) : res Z :=
  match j with
  | JNum n => Ok n
  | JBool b => Ok (if b then 1 else 0)
  | JStr s => match PyStr.to_Z s with Some n => Ok n | None => Raise ValueError end
  | _ => Raise TypeError
  end.

Definition hex_digit (n : nat) : ascii :=
  ascii_of_nat (if (n <? 10)%nat then 48 + n else 87 + n).

Fixpoint contains_char (c : ascii) (s : string) : bool :=
  match s with
  | EmptyString => false
  | String a s' => Ascii.eqb a c || contains_char c s'
  end.

Fixpoint escape (q : ascii) (s : string) : string :=
  match s with
  | EmptyString => EmptyString
  | String a s' =>
      let n := nat_of_ascii a in
      (if Ascii.eqb a q || Ascii.eqb a "\" then String "\" (String a EmptyString)
       else if (n =? 10)%nat then "\n"
       else if (n =? 13)%nat then "\r"
       else if (n =? 9)%nat then "\t"
       else if ((n <? 32) || (n =? 127))%nat
            then "\x" +:+ String (hex_digit (n / 16)) (String (hex_digit (n mod 16)) EmptyString)
       else String a EmptyString) +:+ escape q s'
  end.

(** [repr(s)] of a string: single quotes unless the string has one and
    no double quote. *)
Definition double_quote : ascii := ascii_of_nat 34.

Definition repr_str (s : string) : string :=
  let q : ascii :=
    if contains_char "'" s && negb (contains_char double_quote s) then double_quote
    else "'"%char in
  String q (escape q s) +:+ String q EmptyString.

Fixpoint repr (j : json) : string :=
  match j with
  | JNull => "None"
  | JBool b => if b then "True" else "False"
  | JNum n => PyStr.of_Z n
  | JStr s => repr_str s
  | JList l => "[" +:+ PyStr.join ", " (map repr l) +:+ "]"
  | JDict d =>
      "{" +:+ PyStr.join ", " (map (fun kv => repr_str (fst kv) +:+ ": " +:+ repr (snd kv)) d) +:+ "}"
  end.

(** [str(j)], also what an f-string interpolates. *)
Definition str (j : json) : string :=
  match j with
  | JStr s => s
  | _ => repr j
  end.

(** [str(o)] of an [Optional[str]]. *)
Definition str_opt (o : option string) : string :=
  match o with Some s => s | None => "None" end.

Definition of_opt_str (o : option string) : json :=
  match o with Some s => JStr s | None => JNull end.

End Py.

(* ===================================================================== *)
(** ** The outside world: requests, responses, the clock                  *)
(* ===================================================================== *)

(** What [requests.request] is called with.  The headers (basic
    authentication for Jira, the signed token for Zephyr) are left out. *)
Record Request : Type := mkRequest {
  method : string;
  url : string;
  params : list (string * json);
  json_body : option json
}.

(** A [requests.Response]; [body = None] when [resp.json()] cannot decode
    the payload. *)
Record Response : Type := mkResponse {
  status_code : Z;
  body : option json
}.

(** The exception classes of [requests.exceptions] that the clients tell
    apart ([ConnectTimeout] inherits from both [ConnectionError] and
    [Timeout]); [OtherError] is any other [Exception]. *)
Inductive request_error : Type :=
| Timeout | ReadTimeout | ConnectTimeout | ConnectionError | OtherError.

Definition is_Timeout (e : request_error) : bool :=
  match e with Timeout | ReadTimeout | ConnectTimeout => true | _ => false end.

Definition is_ConnectionError (e : request_error) : bool :=
  match e with ConnectionError | ConnectTimeout => true | _ => false end.

Inductive Outcome : Type :=
| Replied (r : Response)
| Failed (e : request_error).

(** [bool(resp)]: [Response.ok], false exactly for the 4xx and 5xx codes. *)
Definition resp_ok (r : Response) : bool :=
  negb ((400 <=? status_code r) && (status_code r <? 600)).

(** [resp.json()]. *)
Definition resp_json (r : Response) : res json :=
  match body r with Some j => Ok j | None => Raise JSONDecodeError end.

(** [resp and resp.status_code in codes]. *)
Definition resp_in (resp : option Response) (codes : list Z) : bool :=
  match resp with
  | Some r => resp_ok r && bool_decide (status_code r ∈ codes)
  | None => false
  end.

(** [not resp]. *)
Definition no_resp (resp : option Response) : bool :=
  match resp with Some r => negb (resp_ok r) | None => true end.

Inductive Event : Type :=
| EvRequest (r : Request)
| EvSleep (seconds : Q).

(** The services and the host: the outcome of the n-th request of the run,
    and [datetime.strptime(...).timestamp() * 1000] over the nine formats
    of [parse_date_to_millis] (it depends on the local time zone). *)
Record World : Type := mkWorld {
  net : nat -> Request -> Outcome;
  strptime_millis : string -> option Z
}.

Record Config : Type := mkConfig {
  jira_url : string;
  zephyr_base : string;
  rate_limit_delay : Q
}.

(* ===================================================================== *)
(** ** The state of a run                                                 *)
(* ===================================================================== *)

(** The dictionaries [migrate_executions] creates once and hands to its
    helpers (each helper mutates the caller's object), the
    [_folders_cache] attribute of [get_or_create_folder_id], the number of
    requests made so far and the trace of requests and sleeps. *)
Record State : Type := mkState {
  world : World;
  clock : nat;
  trace : list Event;
  versions_map : gmap string Z;
  components_map : gmap string string;
  issue_id_cache : gmap string json;
  cycle_cache : gmap (string * Z) (option string);
  folder_cache : gmap (string * Z * Z * string) (option string);
  folders_cache : gmap (Z * Z * string) json;
  user_cache : gmap string json;
  steps_created_for_issue : gset string
}.

Definition log (e : Event) (tick : nat) (s : State) : State :=
  mkState (world s) (clock s + tick)%nat (trace s ++ [e]) (versions_map s)
    (components_map s) (issue_id_cache s) (cycle_cache s) (folder_cache s)
    (folders_cache s) (user_cache s) (steps_created_for_issue s).

Definition set_versions_map (m : gmap string Z) (s : State) : State :=
  mkState (world s) (clock s) (trace s) m (components_map s) (issue_id_cache s)
    (cycle_cache s) (folder_cache s) (folders_cache s) (user_cache s)
    (steps_created_for_issue s).

Definition set_components_map (m : gmap string string) (s : State) : State :=
  mkState (world s) (clock s) (trace s) (versions_map s) m (issue_id_cache s)
    (cycle_cache s) (folder_cache s) (folders_cache s) (user_cache s)
    (steps_created_for_issue s).

Definition set_issue_id_cache (m : gmap string json) (s : State) : State :=
  mkState (world s) (clock s) (trace s) (versions_map s) (components_map s) m
    (cycle_cache s) (folder_cache s) (folders_cache s) (user_cache s)
    (steps_created_for_issue s).

Definition set_cycle_cache (m : gmap (string * Z) (option string)) (s : State) : State :=
  mkState (world s) (clock s) (trace s) (versions_map s) (components_map s)
    (issue_id_cache s) m (folder_cache s) (folders_cache s) (user_cache s)
    (steps_created_for_issue s).

Definition set_folder_cache (m : gmap (string * Z * Z * string) (option string))
    (s : State) : State :=
  mkState (world s) (clock s) (trace s) (versions_map s) (components_map s)
    (issue_id_cache s) (cycle_cache s) m (folders_cache s) (user_cache s)
    (steps_created_for_issue s).

Definition set_folders_cache (m : gmap (Z * Z * string) json) (s : State) : State :=
  mkState (world s) (clock s) (trace s) (versions_map s) (components_map s)
    (issue_id_cache s) (cycle_cache s) (folder_cache s) m (user_cache s)
    (steps_created_for_issue s).

Definition set_user_cache (m : gmap string json) (s : State) : State :=
  mkState (world s) (clock s) (trace s) (versions_map s) (components_map s)
    (issue_id_cache s) (cycle_cache s) (folder_cache s) (folders_cache s) m
    (steps_created_for_issue s).

Definition set_steps_created (g : gset string) (s : State) : State :=
  mkState (world s) (clock s) (trace s) (versions_map s) (components_map s)
    (issue_id_cache s) (cycle_cache s) (folder_cache s) (folders_cache s)
    (user_cache s) g.

(* ===================================================================== *)
(** ** Computations: state passing with exceptions                        *)
(* ===================================================================== *)

Definition M (A : Type) : Type := State -> res A * State.

Definition ret {A} (a : A) : M A := fun s => (Ok a, s).

Definition raise {A} (e : exn) : M A := fun s => (Raise e, s).

Definition bind {A B} (m : M A) (k : A -> M B) : M B :=
  fun s =>
    match m s with
    | (Ok a, s') => k a s'
    | (Raise e, s') => (Raise e, s')
    end.

(** A pure operation that may raise. *)
Definition lift {A} (r : res A) : M A := fun s => (r, s).

(** [try: m  except Exception: h]. *)
Definition try_except {A} (m : M A) (h : M A) : M A :=
  fun s =>
    match m s with
    | (Ok a, s') => (Ok a, s')
    | (Raise _, s') => h s'
    end.

Definition gets {A} (f : State -> A) : M A := fun s => (Ok (f s), s).

Definition modify (f : State -> State) : M unit := fun s => (Ok tt, f s).

Notation "'let*' x ':=' m 'in' k" := (bind m (fun x => k))
  (at level 10, x name, m at level 100, k at level 200).

Notation "m '>>' k" := (bind m (fun _ => k))
  (at level 100, k at level 200, right associativity).

(** [requests.request(...)]: the world answers, the request is logged. *)
Definition requests_request (r : Request) : M Outcome :=
  fun s => (Ok (net (world s) (clock s) r), log (EvRequest r) 1 s).

(** [time.sleep(seconds)]. *)
Definition time_sleep (seconds : Q) : M unit :=
  fun s => (Ok tt, log (EvSleep seconds) 0 s).

(* ===================================================================== *)
(** ** The two HTTP clients                                               *)
(* ===================================================================== *)

(** The [for attempt in range(max_retries)] loop of [jira_request], with
    [todo] iterations left. *)
Fixpoint jira_attempts (req : Request) (max_retries : Z) (todo : nat) (attempt : Z)
    : M (option Response) :=
  match todo with
  | O => ret None
  | S todo' =>
      let* out := requests_request req in
      match out with
      | Replied r => ret (Some r)
      | Failed e =>
          if is_Timeout e then
            if attempt <? max_retries - 1 then
              time_sleep (inject_Z ((attempt + 1) * 2)) >>
              jira_attempts req max_retries todo' (attempt + 1)
            else ret None
          else ret None
      end
  end.

Definition jira_request (cfg : Config) (method path : string)
    (params : list (string * json)) (json_body : option json) (max_retries : Z)
    : M (option Response) :=
  jira_attempts (mkRequest (PyStr.upper method) (jira_url cfg +:+ path) params json_body)
    max_retries (Z.to_nat max_retries) 0.

(** The loop of [zephyr_request]. *)
Fixpoint zephyr_attempts (req : Request) (max_retries : Z) (todo : nat) (attempt : Z)
    : M (option Response) :=
  match todo with
  | O => ret None
  | S todo' =>
      let* out := requests_request req in
      match out with
      | Replied r => ret (Some r)
      | Failed e =>
          if is_Timeout e || is_ConnectionError e then
            if attempt <? max_retries - 1 then
              time_sleep (inject_Z ((attempt + 1) * 2)) >>
              zephyr_attempts req max_retries todo' (attempt + 1)
            else ret None
          else ret None
      end
  end.

Definition zephyr_request (cfg : Config) (method path : string)
    (params : list (string * json)) (json_body : option json) (max_retries : Z)
    : M (option Response) :=
  zephyr_attempts (mkRequest (PyStr.upper method) (zephyr_base cfg +:+ path) params json_body)
    max_retries (Z.to_nat max_retries) 0.

(** The default of the [max_retries] parameter; no caller overrides it. *)
Definition default_retries : Z := 3.

(* ===================================================================== *)
(** ** Execution records                                                  *)
(* ===================================================================== *)

(** One entry of [exec_data["steps"]]. *)
Record Step : Type := mkStep {
  step : string;
  data : string;
  result : string
}.

(** The dictionary built per execution by [load_executions_from_csv]. *)
Record ExecutionRecord : Type := mkExecutionRecord {
  issue_key : string;
  cycle_name : string;
  folder_name : string;
  version_name : string;
  component_name : string;
  status : string;
  executed_on : string;
  executed_by : string;
  assigned_to : string;
  comment : string;
  steps : list Step
}.

(** [{**exec_data, "failure_reason": ..., ("execution_id": ...)}]. *)
Record FailureItem : Type := mkFailureItem {
  item_data : ExecutionRecord;
  failure_reason : string;
  execution_id : option string
}.

(* ===================================================================== *)
(** ** Jira and Zephyr lookups                                            *)
(* ===================================================================== *)

Definition nonblank (s : string) : bool :=
  negb (PyStr.is_empty s) && negb (PyStr.is_empty (PyStr.strip s)).

Definition normalize_whitespace_str (s : string) : string :=
  PyStr.join " " (PyStr.split (PyStr.strip s)).

(** [normalize_whitespace(s)] for whatever [s] the caller got:
    [(s or "").strip()] needs a string once [s] is true. *)
Definition normalize_whitespace (j : json) : res string :=
  if Py.truthy j then
    match j with
    | JStr s => Ok (normalize_whitespace_str s)
    | _ => Raise AttributeError
    end
  else Ok (normalize_whitespace_str "").

Definition normalize_user_name (name : string) : string :=
  if PyStr.is_empty name then ""
  else normalize_whitespace_str
         (PyStr.replace "(inactive)" "" (PyStr.replace "(Inactive)" "" name)).

Definition get_or_create_component_id (cfg : Config) (project_key component_name : string)
    : M (option string) :=
  if negb (nonblank component_name) then ret None
  else
    let component_name := PyStr.strip component_name in
    let* known := gets (fun s => components_map s !! component_name) in
    match known with
    | Some cid => ret (Some cid)
    | None =>
        let body := JDict [("name", JStr component_name); ("project", JStr project_key);
                           ("description", JStr "Created by migration")] in
        let* resp := jira_request cfg "POST" "/rest/api/2/component" [] (Some body)
                       default_retries in
        match resp with
        | Some r =>
            if resp_in resp [200; 201] then
              try_except
                (let* j := lift (resp_json r) in
                 let* i := lift (Py.item j "id") in
                 let comp_id := Py.str i in
                 modify (fun s => set_components_map
                                    (<[component_name := comp_id]> (components_map s)) s) >>
                 ret (Some comp_id))
                (ret None)
            else ret None
        | None => ret None
        end
    end.

Definition update_issue_component (cfg : Config) (issue_key : string)
    (component_id : option string) : M bool :=
  if negb (Py.truthy_str component_id) then ret true
  else
    let body := JDict [("fields",
                  JDict [("components",
                    JList [JDict [("id", Py.of_opt_str component_id)]])])] in
    let* resp := jira_request cfg "PUT" ("/rest/api/2/issue/" +:+ issue_key) []
                   (Some body) default_retries in
    ret (resp_in resp [200; 204]).

Definition get_issue_id (cfg : Config) (issue_key : string) : M json :=
  let* cached := gets (fun s => issue_id_cache s !! issue_key) in
  match cached with
  | Some iid => ret iid
  | None =>
      let* resp := jira_request cfg "GET" ("/rest/api/2/issue/" +:+ issue_key)
                     [("fields", JStr "id")] None default_retries in
      match resp with
      | Some r =>
          if resp_in resp [200] then
            let* j := lift (resp_json r) in
            let* iid := lift (Py.item j "id") in
            modify (fun s => set_issue_id_cache (<[issue_key := iid]> (issue_id_cache s)) s) >>
            ret iid
          else
            modify (fun s => set_issue_id_cache (<[issue_key := JNull]> (issue_id_cache s)) s) >>
            ret JNull
      | None =>
          modify (fun s => set_issue_id_cache (<[issue_key := JNull]> (issue_id_cache s)) s) >>
          ret JNull
      end
  end.

Definition get_existing_test_steps (cfg : Config) (project_id : Z) (issue_id : json)
    : M (list json) :=
  let path := "/public/rest/api/1.0/teststep/" +:+ Py.str issue_id in
  let* resp := zephyr_request cfg "GET" path [("projectId", JNum project_id)] None
                 default_retries in
  match resp with
  | Some r =>
      if resp_in resp [200] then
        try_except
          (let* j := lift (resp_json r) in
           match j with
           | JDict d => ret (map snd d)
           | JList l => ret l
           | _ => ret []
           end)
          (ret [])
      else ret []
  | None => ret []
  end.

(** The [for u in all_users] loop of [get_user_account_id]. *)
Fixpoint search_users (original : string) (all_users : list json) : M json :=
  match all_users with
  | [] =>
      modify (fun s => set_user_cache (<[original := JNull]> (user_cache s)) s) >>
      ret JNull
  | u :: rest =>
      let* dn := lift (Py.get u "displayName" (JStr "")) in
      let* display := lift (normalize_whitespace dn) in
      if String.eqb (PyStr.lower display) (PyStr.lower original) then
        let* account_id := lift (Py.get u "accountId" JNull) in
        modify (fun s => set_user_cache (<[original := account_id]> (user_cache s)) s) >>
        ret account_id
      else search_users original rest
  end.

Definition get_user_account_id (cfg : Config) (name : string)
    (user_mapping : gmap string string) (all_users : list json) : M json :=
  if PyStr.is_empty name then ret JNull
  else
    let original := normalize_user_name name in
    let* cached := gets (fun s => user_cache s !! original) in
    match cached with
    | Some a => ret a
    | None =>
        match user_mapping !! original with
        | Some account_id =>
            modify (fun s => set_user_cache (<[original := JStr account_id]> (user_cache s)) s) >>
            ret (JStr account_id)
        | None =>
            match user_mapping !! name with
            | Some account_id =>
                modify (fun s => set_user_cache
                                   (<[original := JStr account_id]> (user_cache s)) s) >>
                ret (JStr account_id)
            | None => search_users original all_users
            end
        end
    end.

Definition get_or_create_version_id (cfg : Config) (project_id : Z) (version_name : string)
    : M Z :=
  if negb (nonblank version_name) || String.eqb (PyStr.lower version_name) "unscheduled"
  then ret (-1)
  else
    let version_name := PyStr.strip version_name in
    let* known := gets (fun s => versions_map s !! version_name) in
    match known with
    | Some vid => ret vid
    | None =>
        let body := JDict [("name", JStr version_name); ("projectId", JNum project_id);
                           ("description", JStr "Created by migration");
                           ("released", JBool false)] in
        let* resp := jira_request cfg "POST" "/rest/api/2/version" [] (Some body)
                       default_retries in
        match resp with
        | Some r =>
            if resp_in resp [200; 201] then
              try_except
                (let* j := lift (resp_json r) in
                 let* i := lift (Py.item j "id") in
                 let* vid := lift (Py.int i) in
                 modify (fun s => set_versions_map
                                    (<[version_name := vid]> (versions_map s)) s) >>
                 ret vid)
                (ret (-1))
            else ret (-1)
        | None => ret (-1)
        end
    end.

(* ===================================================================== *)
(** ** Execution helpers                                                  *)
(* ===================================================================== *)

Definition STATUS_MAP : list (string * Z) :=
  [("PASS", 1); ("FAIL", 2); ("WIP", 3); ("BLOCKED", 4); ("UNEXECUTED", -1)].

(** [d.get(k, default)] on a table of integers. *)
Fixpoint table_get (k : string) (d : list (string * Z)) (default : Z) : Z :=
  match d with
  | [] => default
  | (k', v) :: d' => if String.eqb k k' then v else table_get k d' default
  end.

(** [STATUS_MAP.get(exec_data["status"].upper(), -1)]. *)
Definition status_key (status : string) : Z :=
  table_get (PyStr.upper status) STATUS_MAP (-1).

Definition get_or_create_cycle_id (cfg : Config) (project_id version_id : Z)
    (cycle_name : string) : M (option string) :=
  let cycle_name := if PyStr.is_empty cycle_name then "Ad hoc" else cycle_name in
  let key := (cycle_name, version_id) in
  let* cached := gets (fun s => cycle_cache s !! key) in
  match cached with
  | Some cid => ret cid
  | None =>
      let body := JDict [("name", JStr cycle_name); ("projectId", JNum project_id);
                         ("versionId", JNum version_id);
                         ("description", JStr "Created by migration")] in
      let* resp := zephyr_request cfg "POST" "/public/rest/api/1.0/cycle" [] (Some body)
                     default_retries in
      match resp with
      | Some r =>
          if resp_in resp [200; 201] then
            let* j := lift (resp_json r) in
            let* a := lift (Py.get j "id" JNull) in
            let* b := lift (Py.get j "cycleId" JNull) in
            let cid := Py.str (Py.or_else a b) in
            modify (fun s => set_cycle_cache (<[key := Some cid]> (cycle_cache s)) s) >>
            ret (Some cid)
          else
            modify (fun s => set_cycle_cache (<[key := None]> (cycle_cache s)) s) >>
            ret None
      | None =>
          modify (fun s => set_cycle_cache (<[key := None]> (cycle_cache s)) s) >>
          ret None
      end
  end.

(** Lines 390-399 of [get_or_create_folder_id]: the listing of a scope is
    fetched once. *)
Definition fetch_folders (cfg : Config) (list_key : Z * Z * string) : M unit :=
  let '(project_id, version_id, cycle_id) := list_key in
  let* listed := gets (fun s => folders_cache s !! list_key) in
  match listed with
  | Some _ => ret tt
  | None =>
      let params := [("projectId", JNum project_id); ("versionId", JNum version_id);
                     ("cycleId", JStr cycle_id)] in
      let* resp := zephyr_request cfg "GET" "/public/rest/api/1.0/folders" params None
                     default_retries in
      let store (j : json) :=
        modify (fun s => set_folders_cache (<[list_key := j]> (folders_cache s)) s) in
      match resp with
      | Some r =>
          if resp_in resp [200] then
            match resp_json r with
            | Ok j => store j
            | Raise _ => store (JList [])
            end
          else store (JList [])
      | None => store (JList [])
      end
  end.

Fixpoint chars (s : string) : list json :=
  match s with
  | EmptyString => []
  | String a s' => JStr (String a EmptyString) :: chars s'
  end.

(** What [for f in j] ranges over. *)
Definition iterate (j : json) : res (list json) :=
  match j with
  | JList l => Ok l
  | JDict d => Ok (map (fun kv => JStr (fst kv)) d)
  | JStr s => Ok (chars s)
  | _ => Raise TypeError
  end.

(** Lines 402-406: the first listed folder of that name, ignoring case and
    surrounding white space. *)
Fixpoint find_folder (folder_name : string) (items : list json) : res (option string) :=
  match items with
  | [] => Ok None
  | f :: rest =>
      match Py.get f "name" (JStr "") with
      | Ok (JStr n) =>
          if String.eqb (PyStr.lower (PyStr.strip n)) (PyStr.lower (PyStr.strip folder_name))
          then match Py.get f "id" JNull with
               | Ok i => Ok (Some (Py.str i))
               | Raise e => Raise e
               end
          else find_folder folder_name rest
      | Ok _ => Raise AttributeError
      | Raise e => Raise e
      end
  end.

(** Lines 409-419: creation, tried when no usable id was found; [folder_id]
    is assigned before the listing is extended, so it survives a failure
    of [append]. *)
Definition create_folder (cfg : Config) (project_id version_id : Z) (cycle_id : string)
    (folder_name : string) (found : option string) : M (option string) :=
  let list_key := (project_id, version_id, cycle_id) in
  let body := JDict [("name", JStr folder_name); ("projectId", JNum project_id);
                     ("versionId", JNum version_id); ("cycleId", JStr cycle_id);
                     ("description", JStr folder_name)] in
  let* resp := zephyr_request cfg "POST" "/public/rest/api/1.0/folder" [] (Some body)
                 default_retries in
  match resp with
  | Some r =>
      if resp_in resp [200; 201] then
        try_except
          (let* data := lift (resp_json r) in
           let* a := lift (Py.get data "id" JNull) in
           let* b := lift (Py.get data "folderId" JNull) in
           let folder_id := Py.str (Py.or_else a b) in
           let* listing := gets (fun s => folders_cache s !! list_key) in
           match listing with
           | Some (JList l) =>
               modify (fun s => set_folders_cache
                                  (<[list_key := JList (l ++ [data])%list]> (folders_cache s)) s) >>
               ret (Some folder_id)
           | _ => ret (Some folder_id)
           end)
          (ret found)
      else ret found
  | None => ret found
  end.

Definition get_or_create_folder_id (cfg : Config) (project_id version_id : Z)
    (cycle_id : string) (folder_name : string) : M (option string) :=
  if negb (nonblank folder_name) then ret None
  else
    let key := (folder_name, project_id, version_id, cycle_id) in
    let* cached := gets (fun s => folder_cache s !! key) in
    match cached with
    | Some fid => ret fid
    | None =>
        let list_key := (project_id, version_id, cycle_id) in
        fetch_folders cfg list_key >>
        let* listing := gets (fun s => folders_cache s !! list_key) in
        let* items := lift (match listing with
                            | Some j => iterate j
                            | None => Raise KeyError
                            end) in
        let* found := lift (find_folder folder_name items) in
        let* folder_id :=
          (if Py.truthy_str found then ret found
           else create_folder cfg project_id version_id cycle_id folder_name found) in
        modify (fun s => set_folder_cache (<[key := folder_id]> (folder_cache s)) s) >>
        ret folder_id
    end.

Definition parse_date_to_millis (date_str : string) : M (option Z) :=
  if negb (nonblank date_str) then ret None
  else gets (fun s => strptime_millis (world s) (PyStr.strip date_str)).

Definition create_execution (cfg : Config) (project_id version_id : Z) (cycle_id : string)
    (folder_id : option string) (issue_id : json) : M (option string) :=
  let path := "/public/rest/api/1.0/execution" in
  let* iid := lift (Py.int issue_id) in
  let body := ([("issueId", JNum iid); ("projectId", JNum project_id);
                ("versionId", JNum version_id); ("cycleId", JStr cycle_id)]
               ++ (if Py.truthy_str folder_id then [("folderId", Py.of_opt_str folder_id)]
                   else []))%list in
  let* resp := zephyr_request cfg "POST" path [] (Some (JDict body)) default_retries in
  match resp with
  | Some r =>
      if no_resp resp then ret None
      else if negb (bool_decide (status_code r ∈ [200; 201])) then ret None
      else
        try_except
          (let* data := lift (resp_json r) in
           let* e := lift (Py.get data "execution" (JDict [])) in
           let* a := lift (Py.get e "id" JNull) in
           let* b := lift (Py.get data "id" JNull) in
           let exec_id := Py.or_else a b in
           if negb (Py.truthy exec_id) then ret None
           else ret (Some (Py.str exec_id)))
          (ret None)
  | None => ret None
  end.

Definition add_execution_comment (cfg : Config) (execution_id comment_text : string)
    : M bool :=
  if negb (nonblank comment_text) then ret true
  else
    let path := "/public/rest/api/1.0/execution/" +:+ execution_id +:+ "/comment" in
    let body := JDict [("comment", JStr (PyStr.strip comment_text))] in
    let* resp := zephyr_request cfg "POST" path [] (Some body) default_retries in
    ret (resp_in resp [200; 201]).

Definition delete_execution (cfg : Config) (execution_id : string) (issue_id : json)
    : M bool :=
  let path := "/public/rest/api/1.0/execution/" +:+ execution_id in
  let params := [("issueId", issue_id)] in
  let* resp := zephyr_request cfg "DELETE" path params None default_retries in
  match resp with
  | Some r =>
      if no_resp resp then ret false
      else if bool_decide (status_code r ∈ [200; 204]) then ret true
      else ret false
  | None => ret false
  end.

Definition execute_execution (cfg : Config) (execution_id : string) (issue_id : json)
    (project_id version_id : Z) (cycle_id : string) (exec_data : ExecutionRecord)
    (executed_by_id assigned_to_id : json) : M bool :=
  let path := "/public/rest/api/1.0/execution/" +:+ execution_id in
  let params := [("projectId", JNum project_id); ("issueId", issue_id)] in
  let status_key := status_key (status exec_data) in
  let* iid := lift (Py.int issue_id) in
  let body := [("status", JDict [("id", JNum status_key)]); ("projectId", JNum project_id);
               ("versionId", JNum version_id); ("cycleId", JStr cycle_id);
               ("issueId", JNum iid)] in
  let* millis := parse_date_to_millis (executed_on exec_data) in
  let body := (body ++ match millis with
                       | Some ms => if negb (ms =? 0) then [("executedOn", JNum ms)] else []
                       | None => []
                       end)%list in
  let body := (body ++ (if Py.truthy executed_by_id then [("executedBy", executed_by_id)]
                        else []))%list in
  let body := (body ++ (if Py.truthy assigned_to_id then [("assignedTo", assigned_to_id)]
                        else []))%list in
  let* resp := zephyr_request cfg "PUT" path params (Some (JDict body)) default_retries in
  ret (resp_in resp [200; 204]).

(* ===================================================================== *)
(** ** Test step helpers                                                  *)
(* ===================================================================== *)

Definition create_test_step (cfg : Config) (project_id : Z) (issue_id : json) (position : Z)
    (step_text data_text result_text : string) : M bool :=
  let path := "/public/rest/api/1.0/teststep/" +:+ Py.str issue_id in
  let params := [("projectId", JNum project_id)] in
  let body := JDict [("step", JStr step_text); ("data", JStr data_text);
                     ("result", JStr result_text); ("orderId", JNum position)] in
  let* resp := zephyr_request cfg "POST" path params (Some body) default_retries in
  ret (resp_in resp [200; 201]).

(** The [for idx, s in enumerate(steps, start=1)] loop. *)
Fixpoint create_test_steps (cfg : Config) (project_id : Z) (issue_id : json) (idx : Z)
    (steps : list Step) : M unit :=
  match steps with
  | [] => ret tt
  | s :: rest =>
      create_test_step cfg project_id issue_id idx (step s) (data s) (result s) >>
      create_test_steps cfg project_id issue_id (idx + 1) rest
  end.

Definition sync_steps_for_issue (cfg : Config) (project_id : Z) (issue_id : json)
    (issue_key : string) (steps : list Step) : M unit :=
  match steps with
  | [] => ret tt
  | _ =>
      let* existing_steps := get_existing_test_steps cfg project_id issue_id in
      match existing_steps with
      | _ :: _ => ret tt
      | [] => create_test_steps cfg project_id issue_id 1 steps
      end
  end.

(* ===================================================================== *)
(** ** CSV loading                                                        *)
(* ===================================================================== *)

(** A row as [csv.DictReader] yields it: the header names with the cells;
    a cell missing from a short row is [None]; the surplus cells of a long
    row sit under the key [None]. *)
Definition Row : Type := list (option string * option string).

(** The executions dictionary, in insertion order. *)
Definition Executions : Type := list (string * ExecutionRecord).

Definition rbind {A B} (r : res A) (k : A -> res B) : res B :=
  match r with
  | Ok a => k a
  | Raise e => Raise e
  end.

Notation "'let+' x ':=' r 'in' k" := (rbind r (fun x => k))
  (at level 10, x name, r at level 100, k at level 200).

(** The inner loop of [pick]: the first non-empty cell under a column
    called [n]. *)
Fixpoint pick_column (row : Row) (n : string) : res (option string) :=
  match row with
  | [] => Ok None
  | (key, cell) :: rest =>
      match key with
      | None => Raise AttributeError
      | Some k =>
          if String.eqb (PyStr.lower (PyStr.strip k)) (PyStr.lower (PyStr.strip n)) then
            let val := PyStr.strip (match cell with Some v => v | None => "" end) in
            if PyStr.is_empty val then pick_column rest n else Ok (Some val)
          else pick_column rest n
      end
  end.

Fixpoint pick (row : Row) (names : list string) (default : string) : res string :=
  match names with
  | [] => Ok default
  | n :: names' =>
      let+ hit := pick_column row n in
      match hit with
      | Some val => Ok val
      | None => pick row names' default
      end
  end.

Definition FAILED_ISSUE_KEYS : gset string :=
  list_to_set ["GCTEST-94808"; "GCTEST-95392"; "GCTEST-95397"; "GCTEST-96437";
               "GCTEST-94722"; "GCTEST-95937"].

Fixpoint lookup_execution (k : string) (executions : Executions) : option ExecutionRecord :=
  match executions with
  | [] => None
  | (k', r) :: rest => if String.eqb k k' then Some r else lookup_execution k rest
  end.

Definition add_step (st : Step) (r : ExecutionRecord) : ExecutionRecord :=
  mkExecutionRecord (issue_key r) (cycle_name r) (folder_name r) (version_name r)
    (component_name r) (status r) (executed_on r) (executed_by r) (assigned_to r)
    (comment r) (steps r ++ [st]).

(** [executions[unique_key]["steps"].append(st)]. *)
Fixpoint append_step (k : string) (st : Step) (executions : Executions) : Executions :=
  match executions with
  | [] => []
  | (k', r) :: rest =>
      if String.eqb k k' then (k', add_step st r) :: rest
      else (k', r) :: append_step k st rest
  end.

(** Lines 608-616: the grouping key of a row. *)
Definition unique_key_of (issue_key : string) (raw : Row) : res string :=
  let+ execution_id := pick raw ["executionid"; "execution id"] "" in
  if negb (PyStr.is_empty execution_id) then Ok execution_id
  else
    let+ cycle := pick raw ["cyclename"; "test cycle"] "Ad hoc" in
    let+ folder := pick raw ["foldername"; "folder"] "" in
    Ok (issue_key +:+ "_" +:+ cycle +:+ "_" +:+ folder).

(** Lines 620-632: the record a row opens. *)
Definition new_record (issue_key : string) (raw : Row) : res ExecutionRecord :=
  let+ cycle_name := pick raw ["cyclename"; "test cycle"] "Ad hoc" in
  let+ folder_name := pick raw ["foldername"; "folder"] "" in
  let+ version_name := pick raw ["version"; "fixversion"] "Unscheduled" in
  let+ component_name := pick raw ["component"] "" in
  let+ status := pick raw ["executionstatus"; "status"] "UNEXECUTED" in
  let+ executed_on := pick raw ["executed on"; "executedon"] "" in
  let+ executed_by := pick raw ["executed by"; "executedby"] "" in
  let+ assigned_to := pick raw ["assigned to"; "assignedto"] "" in
  let+ comment := pick raw ["comments"; "comment"] "" in
  Ok (mkExecutionRecord issue_key cycle_name folder_name version_name component_name
        status executed_on executed_by assigned_to comment []).

(** Lines 635-649: the step a row carries, if any. *)
Definition step_of (raw : Row) : res (option Step) :=
  let+ step_text := pick raw ["step"; "teststep"; "test step"] "" in
  if negb (PyStr.is_empty step_text) then
    let+ step_data := pick raw ["test data"; "data"] "" in
    let+ expected_result := pick raw ["expected result"; "test result"; "result"] "" in
    let result_text :=
      if negb (PyStr.is_empty expected_result) then "Expected: " +:+ expected_result
      else "" in
    Ok (Some (mkStep step_text step_data result_text))
  else Ok None.

(** The body of the [for raw in reader] loop. *)
Definition load_row (retry_issue_keys : gset string) (executions : Executions) (raw : Row)
    : res Executions :=
  let+ issue_key := pick raw ["issue key"; "issuekey"] "" in
  if PyStr.is_empty issue_key then Ok executions
  else if negb (bool_decide (issue_key ∈ retry_issue_keys)) then Ok executions
  else
    let+ unique_key := unique_key_of issue_key raw in
    let+ executions :=
      match lookup_execution unique_key executions with
      | Some _ => Ok executions
      | None =>
          let+ r := new_record issue_key raw in
          Ok (executions ++ [(unique_key, r)])%list
      end in
    let+ st := step_of raw in
    match st with
    | Some st => Ok (append_step unique_key st executions)
    | None => Ok executions
    end.

Fixpoint load_rows (retry_issue_keys : gset string) (executions : Executions)
    (rows : list Row) : res Executions :=
  match rows with
  | [] => Ok executions
  | raw :: rows' =>
      let+ executions := load_row retry_issue_keys executions raw in
      load_rows retry_issue_keys executions rows'
  end.

(** [load_executions_from_csv], on the rows read from the file. *)
Definition load_executions_from_csv (rows : list Row) (retry_issue_keys : gset string)
    : res Executions :=
  load_rows retry_issue_keys [] rows.

(* ===================================================================== *)
(** ** Main migration                                                     *)
(* ===================================================================== *)

(** The counters and the failure list of [migrate_executions]. *)
Record Tally : Type := mkTally {
  created : Z;
  failed : Z;
  failed_items : list FailureItem
}.

Definition tally_failed (t : Tally) (exec_data : ExecutionRecord) (reason : string)
    (exec_id : option string) : Tally :=
  mkTally (created t) (failed t + 1)
    (failed_items t ++ [mkFailureItem exec_data reason exec_id]).

Definition tally_created (t : Tally) : Tally :=
  mkTally (created t + 1) (failed t) (failed_items t).

(** What the set-up of [migrate_executions] (lines 688-706) hands to the
    loop: the project, the user mapping file and the user directory.  The
    two maps fetched there are the initial [versions_map] and
    [components_map] of the state. *)
Record Setup : Type := mkSetup {
  target_project_key : string;
  project_id : Z;
  user_mapping : gmap string string;
  all_users : list json
}.

(** The identifiers a record has resolved when line 768 is reached. *)
Record Refs : Type := mkRefs {
  ref_issue_id : json;
  ref_version_id : Z;
  ref_cycle_id : string;
  ref_folder_id : option string;
  ref_executed_by_id : json;
  ref_assigned_to_id : json
}.

(** How a part of the loop body ends: with [continue], or by falling
    through to the next statement. *)
Inductive Flow (A : Type) : Type :=
| Continue (t : Tally)
| Next (a : A).
Arguments Continue {A} t.
Arguments Next {A} a.

(** Lines 721-766 of the loop body: everything before the execution is
    created. *)
Definition resolve_record (cfg : Config) (su : Setup) (exec_data : ExecutionRecord)
    (t : Tally) : M (Flow Refs) :=
  let issue_key := issue_key exec_data in
  let* issue_id := get_issue_id cfg issue_key in
  if negb (Py.truthy issue_id) then
    ret (Continue (tally_failed t exec_data "Issue not found" None))
  else
    (if negb (PyStr.is_empty (component_name exec_data)) then
       let* component_id := get_or_create_component_id cfg (target_project_key su)
                              (component_name exec_data) in
       if Py.truthy_str component_id then
         update_issue_component cfg issue_key component_id >> ret tt
       else ret tt
     else ret tt) >>
    let* synced := gets (fun s => bool_decide (issue_key ∈ steps_created_for_issue s)) in
    (if negb synced && match steps exec_data with [] => false | _ => true end then
       sync_steps_for_issue cfg (project_id su) issue_id issue_key (steps exec_data) >>
       modify (fun s => set_steps_created ({[issue_key]} ∪ steps_created_for_issue s) s)
     else ret tt) >>
    let* version_id := get_or_create_version_id cfg (project_id su)
                         (version_name exec_data) in
    let* cycle_id := get_or_create_cycle_id cfg (project_id su) version_id
                       (cycle_name exec_data) in
    match cycle_id with
    | Some cid =>
        if negb (Py.truthy_str cycle_id) then
          ret (Continue (tally_failed t exec_data "Could not create cycle" None))
        else
          let* folder_id :=
            (if negb (PyStr.is_empty (folder_name exec_data)) then
               get_or_create_folder_id cfg (project_id su) version_id cid
                 (folder_name exec_data)
             else ret None) in
          let* executed_by_id :=
            (if negb (PyStr.is_empty (executed_by exec_data)) then
               get_user_account_id cfg (executed_by exec_data) (user_mapping su)
                 (all_users su)
             else ret JNull) in
          let* assigned_to_id :=
            (if negb (PyStr.is_empty (assigned_to exec_data)) then
               get_user_account_id cfg (assigned_to exec_data) (user_mapping su)
                 (all_users su)
             else ret JNull) in
          ret (Next (mkRefs issue_id version_id cid folder_id executed_by_id
                       assigned_to_id))
    | None => ret (Continue (tally_failed t exec_data "Could not create cycle" None))
    end.

(** Lines 768-797 of the loop body. *)
Definition create_and_execute (cfg : Config) (su : Setup) (exec_data : ExecutionRecord)
    (t : Tally) (r : Refs) : M Tally :=
  let* new_exec_id := create_execution cfg (project_id su) (ref_version_id r)
                        (ref_cycle_id r) (ref_folder_id r) (ref_issue_id r) in
  match new_exec_id with
  | Some new_id =>
      if negb (Py.truthy_str new_exec_id) then
        ret (tally_failed t exec_data "Could not create execution" None)
      else
        let* ok := execute_execution cfg new_id (ref_issue_id r) (project_id su)
                     (ref_version_id r) (ref_cycle_id r) exec_data
                     (ref_executed_by_id r) (ref_assigned_to_id r) in
        let* t' :=
          (if ok then
             (if negb (PyStr.is_empty (comment exec_data)) then
                add_execution_comment cfg new_id (comment exec_data) >> ret tt
              else ret tt) >>
             ret (tally_created t)
           else
             delete_execution cfg new_id (ref_issue_id r) >>
             ret (tally_failed t exec_data "Could not execute execution (deleted)"
                    (Some new_id))) in
        time_sleep (rate_limit_delay cfg) >>
        ret t'
  | None => ret (tally_failed t exec_data "Could not create execution" None)
  end.

(** The body of the [for ... in executions.items()] loop. *)
Definition migrate_record (cfg : Config) (su : Setup) (exec_data : ExecutionRecord)
    (t : Tally) : M Tally :=
  let* flow := resolve_record cfg su exec_data t in
  match flow with
  | Continue t' => ret t'
  | Next r => create_and_execute cfg su exec_data t r
  end.

Fixpoint migrate_records (cfg : Config) (su : Setup) (executions : Executions) (t : Tally)
    : M Tally :=
  match executions with
  | [] => ret t
  | (_, exec_data) :: rest =>
      let* t' := migrate_record cfg su exec_data t in
      migrate_records cfg su rest t'
  end.

(** The loop of [migrate_executions] with its counters, from the set-up's
    results; it returns the counters that the summary prints and the
    failure items that [generate_failure_report] writes to a file. *)
Definition migrate_executions (cfg : Config) (su : Setup) (executions : Executions)
    : M Tally :=
  migrate_records cfg su executions (mkTally 0 0 []).

(* ===================================================================== *)
(** * The vocabulary of the properties, and concrete worlds               *)
(* ===================================================================== *)

(** ** Requests and their traces *)

(** [advance n evs s]: the state after [n] more requests whose events,
    with those of the sleeps, are [evs]; the dictionaries are untouched. *)
Definition advance (n : nat) (evs : list Event) (s : State) : State :=
  mkState (world s) (clock s + n)%nat (trace s ++ evs) (versions_map s)
    (components_map s) (issue_id_cache s) (cycle_cache s) (folder_cache s)
    (folders_cache s) (user_cache s) (steps_created_for_issue s).

(** The events one call of a client can add: its request, and sleeps. *)
Definition client_event (req : Request) (e : Event) : Prop :=
  e = EvRequest req \/ exists q, e = EvSleep q.

(** A run of a client loop: it returns (it never raises), makes at most
    [todo] requests, all of them [req], and touches no dictionary. *)
Definition client_run (req : Request) (todo : nat) (m : M (option Response)) : Prop :=
  forall s, exists resp n evs,
    m s = (Ok resp, advance n evs s) /\ (n <= todo)%nat /\ Forall (client_event req) evs.

(** The request of [get_issue_id]. *)
Definition issue_request (cfg : Config) (issue_key : string) : Request :=
  mkRequest "GET" (jira_url cfg +:+ "/rest/api/2/issue/" +:+ issue_key)
    [("fields", JStr "id")] None.

(** The request of [delete_execution]. *)
Definition delete_request (cfg : Config) (execution_id : string) (issue_id : json)
    : Request :=
  mkRequest "DELETE" (zephyr_base cfg +:+ "/public/rest/api/1.0/execution/" +:+ execution_id)
    [("issueId", issue_id)] None.

(** A cooperative run of the scenario of the spec: one CSV row for
    GCTEST-94808 with status PASS, cycle Sprint1 and version Unscheduled;
    the issue exists, has no steps, and every creation succeeds. *)
Module Scenario.

Definition cfg : Config := mkConfig "https://jira" "https://zephyr" (3 # 2).

Definition row : Row :=
  [(Some "Issue Key", Some "GCTEST-94808"); (Some "Status", Some "PASS");
   (Some "CycleName", Some "Sprint1"); (Some "Version", Some "Unscheduled")].

Definition server (n : nat) (r : Request) : Outcome :=
  if String.eqb (method r) "GET" then
    Replied (mkResponse 200 (Some (JDict [("id", JStr "10001")])))
  else if String.eqb (url r) "https://zephyr/public/rest/api/1.0/cycle" then
    Replied (mkResponse 200 (Some (JDict [("id", JStr "c-1")])))
  else if String.eqb (url r) "https://zephyr/public/rest/api/1.0/execution" then
    Replied (mkResponse 200 (Some (JDict [("execution", JDict [("id", JStr "e-1")])])))
  else Replied (mkResponse 200 (Some (JDict []))).

Definition start : State :=
  mkState (mkWorld server (fun _ => None)) 0 [] {["Unscheduled" := -1]} ∅ ∅ ∅ ∅ ∅ ∅ ∅.

Definition setup : Setup := mkSetup "GCTEST" 10 ∅ [].

Definition run : res Tally * State :=
  match load_executions_from_csv [row] FAILED_ISSUE_KEYS with
  | Ok executions => migrate_executions cfg setup executions start
  | Raise e => (Raise e, start)
  end.

Definition create_request : Request :=
  mkRequest "POST" "https://zephyr/public/rest/api/1.0/execution" []
    (Some (JDict [("issueId", JNum 10001); ("projectId", JNum 10);
                  ("versionId", JNum (-1)); ("cycleId", JStr "c-1")])).

Definition update_request : Request :=
  mkRequest "PUT" "https://zephyr/public/rest/api/1.0/execution/e-1"
    [("projectId", JNum 10); ("issueId", JStr "10001")]
    (Some (JDict [("status", JDict [("id", JNum 1)]); ("projectId", JNum 10);
                  ("versionId", JNum (-1)); ("cycleId", JStr "c-1");
                  ("issueId", JNum 10001)])).

End Scenario.

(** ** Groups of rows *)

Section LoaderVocabulary.

Variable retry : gset string.

(** The group of a row: its issue key and its grouping key, when the row
    passes the allow-list (lines 600-616). *)
Definition row_group (raw : Row) : res (option (string * string)) :=
  let+ issue_key := pick raw ["issue key"; "issuekey"] "" in
  if PyStr.is_empty issue_key then Ok None
  else if negb (bool_decide (issue_key ∈ retry)) then Ok None
  else
    let+ unique_key := unique_key_of issue_key raw in
    Ok (Some (issue_key, unique_key)).

(** A record with another list of steps. *)
Definition with_steps (r : ExecutionRecord) (l : list Step) : ExecutionRecord :=
  mkExecutionRecord (issue_key r) (cycle_name r) (folder_name r) (version_name r)
    (component_name r) (status r) (executed_on r) (executed_by r) (assigned_to r)
    (comment r) l.

(** The step entries that the rows of group [k] carry, in file order. *)
Definition row_steps (k : string) (raw : Row) : list Step :=
  match row_group raw with
  | Ok (Some (_, k')) =>
      if String.eqb k k' then
        match step_of raw with
        | Ok (Some st) => [st]
        | _ => []
        end
      else []
  | _ => []
  end.

Definition group_steps (k : string) (rows : list Row) : list Step :=
  flat_map (row_steps k) rows.

Definition maybe_append (k : string) (st : option Step) (executions : Executions)
    : Executions :=
  match st with
  | Some st => append_step k st executions
  | None => executions
  end.

End LoaderVocabulary.

(** ** Cache keys and creation calls of the resolvers *)

(** The key of [cycle_cache] for a cycle name: line 358, after the default
    of line 356. *)
Definition cycle_key (cycle_name : string) (version_id : Z) : string * Z :=
  (if PyStr.is_empty cycle_name then "Ad hoc" else cycle_name, version_id).

(** The key of [folder_cache]: line 380. *)
Definition folder_key (folder_name : string) (project_id version_id : Z) (cycle_id : string)
    : string * Z * Z * string :=
  (folder_name, project_id, version_id, cycle_id).

(** The creation calls of the four resolvers. *)
Definition create_version_call (cfg : Config) (project_id : Z) (version_name : string)
    : M (option Response) :=
  jira_request cfg "POST" "/rest/api/2/version" []
    (Some (JDict [("name", JStr (PyStr.strip version_name)); ("projectId", JNum project_id);
                  ("description", JStr "Created by migration"); ("released", JBool false)]))
    default_retries.

Definition create_component_call (cfg : Config) (project_key component_name : string)
    : M (option Response) :=
  jira_request cfg "POST" "/rest/api/2/component" []
    (Some (JDict [("name", JStr (PyStr.strip component_name)); ("project", JStr project_key);
                  ("description", JStr "Created by migration")]))
    default_retries.

Definition create_cycle_call (cfg : Config) (project_id version_id : Z) (cycle_name : string)
    : M (option Response) :=
  zephyr_request cfg "POST" "/public/rest/api/1.0/cycle" []
    (Some (JDict [("name", JStr (fst (cycle_key cycle_name version_id)));
                  ("projectId", JNum project_id); ("versionId", JNum version_id);
                  ("description", JStr "Created by migration")]))
    default_retries.

Definition create_folder_call (cfg : Config) (project_id version_id : Z)
    (cycle_id folder_name : string) : M (option Response) :=
  zephyr_request cfg "POST" "/public/rest/api/1.0/folder" []
    (Some (JDict [("name", JStr folder_name); ("projectId", JNum project_id);
                  ("versionId", JNum version_id); ("cycleId", JStr cycle_id);
                  ("description", JStr folder_name)]))
    default_retries.

(** The guard of line 323. *)
Definition unscheduled (version_name : string) : bool :=
  negb (nonblank version_name) || String.eqb (PyStr.lower version_name) "unscheduled".

(** ** Invariants of a run *)

(** [m] preserves [P] from the state it starts in to the one it ends in,
    whether it returns or raises. *)
Definition preserves {A} (P : State -> Prop) (m : M A) : Prop :=
  forall s r s', m s = (r, s') -> P s -> P s'.

(** [P] looks at the cycle cache only. *)
Definition cycle_only (P : State -> Prop) : Prop :=
  forall s s', cycle_cache s' = cycle_cache s -> P s -> P s'.

(** An entry of the cycle cache. *)
Definition cycle_entry (k : string * Z) (v : option string) (s : State) : Prop :=
  cycle_cache s !! k = Some v.

(** The operations of the loop, down to the helpers it calls. *)
Inductive operation (cfg : Config) (su : Setup) : forall A, M A -> Prop :=
| op_get_issue_id k : operation cfg su _ (get_issue_id cfg k)
| op_component pk name : operation cfg su _ (get_or_create_component_id cfg pk name)
| op_update_component k cid : operation cfg su _ (update_issue_component cfg k cid)
| op_sync_steps pid iid k l : operation cfg su _ (sync_steps_for_issue cfg pid iid k l)
| op_version pid name : operation cfg su _ (get_or_create_version_id cfg pid name)
| op_cycle pid vid name : operation cfg su _ (get_or_create_cycle_id cfg pid vid name)
| op_folder pid vid cid name :
    operation cfg su _ (get_or_create_folder_id cfg pid vid cid name)
| op_user name um users : operation cfg su _ (get_user_account_id cfg name um users)
| op_create pid vid cid fid iid :
    operation cfg su _ (create_execution cfg pid vid cid fid iid)
| op_execute eid iid pid vid cid d eb at_ :
    operation cfg su _ (execute_execution cfg eid iid pid vid cid d eb at_)
| op_comment eid c : operation cfg su _ (add_execution_comment cfg eid c)
| op_delete eid iid : operation cfg su _ (delete_execution cfg eid iid)
| op_sleep q : operation cfg su _ (time_sleep q)
| op_steps_created k :
    operation cfg su _
      (modify (fun s => set_steps_created ({[k]} ∪ steps_created_for_issue s) s))
| op_record d t : operation cfg su _ (migrate_record cfg su d t).

(** [later cfg su s s']: the run reaches [s'] from [s] by some of its
    operations, each of which may return or raise. *)
Inductive later (cfg : Config) (su : Setup) : State -> State -> Prop :=
| later_now s : later cfg su s s
| later_step A (m : M A) s r s' s'' :
    operation cfg su A m -> m s = (r, s') -> later cfg su s' s'' -> later cfg su s s''.

(** ** Concrete worlds *)

(** The state at the top of the loop for a given world, with the version
    map that [get_versions_map] always yields at least. *)
Definition initial (w : World) : State :=
  mkState w 0 [] {["Unscheduled" := -1]} ∅ ∅ ∅ ∅ ∅ ∅ ∅.

Definition reply (code : Z) (payload : list (string * json)) : Outcome :=
  Replied (mkResponse code (Some (JDict payload))).

Definition sample_record : ExecutionRecord :=
  mkExecutionRecord "GCTEST-94808" "Sprint1" "" "Unscheduled" "" "PASS" "" "" "" "" [].

(** Every connection is refused. *)
Module Offline.

Definition world : World := mkWorld (fun _ _ => Failed ConnectionError) (fun _ => None).

End Offline.

(** Jira does not know the issue. *)
Module IssueMissing.

Definition server (n : nat) (r : Request) : Outcome := reply 404 [].

Definition world : World := mkWorld server (fun _ => None).

Definition start : State := initial world.

Definition after_lookup : State :=
  snd (get_issue_id Scenario.cfg "GCTEST-94808" start).

End IssueMissing.

(** Zephyr refuses to create executions. *)
Module CreateFails.

Definition server (n : nat) (r : Request) : Outcome :=
  if String.eqb (method r) "GET" then reply 200 [("id", JStr "10001")]
  else if String.eqb (url r) "https://zephyr/public/rest/api/1.0/cycle" then
    reply 200 [("id", JStr "c-1")]
  else reply 500 [].

Definition start : State := initial (mkWorld server (fun _ => None)).

Definition resolved : res (Flow Refs) * State :=
  resolve_record Scenario.cfg Scenario.setup sample_record (mkTally 0 0 []) start.

Definition refs : Refs := mkRefs (JStr "10001") (-1) "c-1" None JNull JNull.

Definition after_create : State :=
  snd (create_execution Scenario.cfg 10 (-1) "c-1" None (JStr "10001") (snd resolved)).

End CreateFails.

(** Zephyr creates the execution and then refuses every update of it. *)
Module ExecuteFails.

Definition server (n : nat) (r : Request) : Outcome :=
  if String.eqb (method r) "GET" then reply 200 [("id", JStr "10001")]
  else if String.eqb (url r) "https://zephyr/public/rest/api/1.0/cycle" then
    reply 200 [("id", JStr "c-1")]
  else if String.eqb (url r) "https://zephyr/public/rest/api/1.0/execution" then
    reply 200 [("execution", JDict [("id", JStr "e-1")])]
  else if String.eqb (method r) "PUT" then reply 500 []
  else reply 204 [].

Definition start : State := initial (mkWorld server (fun _ => None)).

Definition refs : Refs := mkRefs (JStr "10001") (-1) "c-1" None JNull JNull.

Definition resolved : State :=
  snd (resolve_record Scenario.cfg Scenario.setup sample_record (mkTally 0 0 []) start).

Definition after_create : State :=
  snd (create_execution Scenario.cfg 10 (-1) "c-1" None (JStr "10001") resolved).

Definition after_execute : State :=
  snd (execute_execution Scenario.cfg "e-1" (JStr "10001") 10 (-1) "c-1" sample_record
         JNull JNull after_create).

End ExecuteFails.

(** The services answer every creation with a server error; listings are
    empty. *)
Module CreationRefused.

Definition server (n : nat) (r : Request) : Outcome :=
  if String.eqb (method r) "GET" then Replied (mkResponse 200 (Some (JList [])))
  else reply 500 [].

Definition start : State := initial (mkWorld server (fun _ => None)).

Definition after_version : State :=
  snd (create_version_call Scenario.cfg 10 "Release 1" start).

Definition after_component : State :=
  snd (create_component_call Scenario.cfg "GCTEST" "Billing" start).

Definition after_cycle : State :=
  snd (create_cycle_call Scenario.cfg 10 (-1) "Sprint1" start).

Definition after_listing : State :=
  snd (fetch_folders Scenario.cfg (10, -1, "c-1") start).

Definition after_folder : State :=
  snd (create_folder_call Scenario.cfg 10 (-1) "c-1" "Smoke" after_listing).

End CreationRefused.

(** [m] ends with the absent value, once its result is read as a Python
    value. *)
Definition returns_absent {A} (as_json : A -> json) (m : M A) (s : State) : Prop :=
  exists a s', m s = (Ok a, s') /\ as_json a = JNull.

(** The cycle resolver has no handler around the decoding of a 200 reply:
    a payload that is not JSON makes it raise, and nothing is cached. *)
Module CycleReplyUndecodable.

Definition server (n : nat) (r : Request) : Outcome := Replied (mkResponse 200 None).

Definition start : State := initial (mkWorld server (fun _ => None)).

End CycleReplyUndecodable.

(** Every creation succeeds. *)
Module CreationAccepted.

Definition server (n : nat) (r : Request) : Outcome :=
  if String.eqb (method r) "GET" then Replied (mkResponse 200 (Some (JList [])))
  else if String.eqb (url r) "https://jira/rest/api/2/version" then
    reply 201 [("id", JStr "501")]
  else if String.eqb (url r) "https://jira/rest/api/2/component" then
    reply 201 [("id", JStr "601")]
  else if String.eqb (url r) "https://zephyr/public/rest/api/1.0/cycle" then
    reply 200 [("id", JStr "c-1")]
  else reply 200 [("id", JStr "f-1")].

Definition start : State := initial (mkWorld server (fun _ => None)).

Definition after_version : State :=
  snd (get_or_create_version_id Scenario.cfg 10 "Release 1" start).

Definition after_component : State :=
  snd (get_or_create_component_id Scenario.cfg "GCTEST" "Billing" start).

Definition after_cycle : State :=
  snd (get_or_create_cycle_id Scenario.cfg 10 (-1) "Sprint1" start).

Definition after_folder : State :=
  snd (get_or_create_folder_id Scenario.cfg 10 (-1) "c-1" "Smoke" start).

End CreationAccepted.

(** Three rows: two of one execution of an allow-listed issue, with
    different status and cycle, and one of an issue outside the list. *)
Module Rows.

Definition first : Row :=
  [(Some "Issue Key", Some "GCTEST-94808"); (Some "ExecutionId", Some "E1");
   (Some "CycleName", Some "Sprint1"); (Some "ExecutionStatus", Some "PASS");
   (Some "Comment", Some "first run"); (Some "Step", Some "open the page")].

Definition second : Row :=
  [(Some "Issue Key", Some "GCTEST-94808"); (Some "ExecutionId", Some "E1");
   (Some "CycleName", Some "Sprint2"); (Some "ExecutionStatus", Some "FAIL");
   (Some "Comment", Some "second run"); (Some "Step", Some "close the page");
   (Some "Expected Result", Some "page closed")].

Definition outsider : Row :=
  [(Some "Issue Key", Some "GCTEST-1"); (Some "ExecutionId", Some "E2");
   (Some "ExecutionStatus", Some "PASS"); (Some "Step", Some "never loaded")].

Definition merged : ExecutionRecord :=
  mkExecutionRecord "GCTEST-94808" "Sprint1" "" "Unscheduled" "" "PASS" "" "" ""
    "first run"
    [mkStep "open the page" "" ""; mkStep "close the page" "" "Expected: page closed"].

End Rows.

(* ===================================================================== *)
(** * The rest of the script: signing input, set-up maps, report          *)
(* ===================================================================== *)

(** [params[k]] for a key of the dictionary. *)
Definition dict_item (k : string) (params : list (string * json)) : json :=
  match Py.assoc k params with
  | Some v => v
  | None => JNull
  end.

(** [build_canonical_qsh]: the string that [generate_zephyr_jwt] hashes.
    [params] is the dictionary (its keys are distinct); [sorted] orders
    the keys as strings. *)
Definition build_canonical_qsh (method path : string) (params : list (string * json))
    : string :=
  let method := PyStr.upper method in
  let query :=
    match params with
    | [] => ""
    | _ =>
        PyStr.join "&"
          (map (fun k => k +:+ "=" +:+ Py.str (dict_item k params))
               (merge_sort String.le (map fst params)))
    end in
  method +:+ "&" +:+ path +:+ "&" +:+ query.

(** The [for v in resp.json()] loop of [get_versions_map].  A name that is
    a number or a boolean is a key no version name (a string) is ever
    equal to: such an entry is not kept in the model.  A list or a
    dictionary cannot be a key. *)
Fixpoint versions_of (items : list json) (mapping : gmap string Z) : res (gmap string Z) :=
  match items with
  | [] => Ok mapping
  | v :: rest =>
      let+ name := Py.get v "name" JNull in
      if Py.truthy name then
        let+ id := Py.get v "id" JNull in
        if Py.truthy id then
          let+ i := Py.int id in
          match name with
          | JStr n => versions_of rest (<[n := i]> mapping)
          | JList _ | JDict _ => Raise TypeError
          | _ => versions_of rest mapping
          end
        else versions_of rest mapping
      else versions_of rest mapping
  end.

Definition get_versions_map (cfg : Config) (project_key : string) : M (gmap string Z) :=
  let* resp := jira_request cfg "GET" ("/rest/api/2/project/" +:+ project_key +:+ "/versions")
                 [] None default_retries in
  let* mapping :=
    match resp with
    | Some r =>
        if resp_in resp [200] then
          let* j := lift (resp_json r) in
          let* items := lift (iterate j) in
          lift (versions_of items ∅)
        else ret ∅
    | None => ret ∅
    end in
  ret (<["Unscheduled" := -1]> mapping).

(** The loop of [get_components_map]; keys as in [versions_of]. *)
Fixpoint components_of (items : list json) (mapping : gmap string string)
    : res (gmap string string) :=
  match items with
  | [] => Ok mapping
  | c :: rest =>
      let+ name := Py.get c "name" JNull in
      if Py.truthy name then
        let+ id := Py.get c "id" JNull in
        if Py.truthy id then
          match name with
          | JStr n => components_of rest (<[n := Py.str id]> mapping)
          | JList _ | JDict _ => Raise TypeError
          | _ => components_of rest mapping
          end
        else components_of rest mapping
      else components_of rest mapping
  end.

Definition get_components_map (cfg : Config) (project_key : string)
    : M (gmap string string) :=
  let* resp := jira_request cfg "GET"
                 ("/rest/api/2/project/" +:+ project_key +:+ "/components")
                 [] None default_retries in
  match resp with
  | Some r =>
      if resp_in resp [200] then
        let* j := lift (resp_json r) in
        let* items := lift (iterate j) in
        lift (components_of items ∅)
      else ret ∅
  | None => ret ∅
  end.

(** The [while True] loop of [get_all_users], for at most [fuel] pages;
    [None] when the pages do not end within [fuel]. *)
Fixpoint get_all_users_from (cfg : Config) (fuel : nat) (start_at : Z) (all_users : list json)
    : M (option (list json)) :=
  match fuel with
  | O => ret None
  | S fuel' =>
      let max_results := 100 in
      let* resp := jira_request cfg "GET" "/rest/api/3/users/search"
                     [("startAt", JNum start_at); ("maxResults", JNum max_results)] None
                     default_retries in
      match resp with
      | Some r =>
          if negb (resp_in resp [200]) then ret (Some all_users)
          else
            let* users := lift (resp_json r) in
            if negb (Py.truthy users) then ret (Some all_users)
            else
              let* items := lift (iterate users) in
              let all_users := all_users ++ items in
              if Z.of_nat (length items) <? max_results then ret (Some all_users)
              else get_all_users_from cfg fuel' (start_at + max_results) all_users
      | None => ret (Some all_users)
      end
  end.

Definition get_all_users (cfg : Config) (fuel : nat) : M (option (list json)) :=
  get_all_users_from cfg fuel 0 [].

(** The value of a step entry and of a record's fields, as
    [csv.DictWriter] receives them. *)
Definition step_json (st : Step) : json :=
  JDict [("step", JStr (step st)); ("data", JStr (data st)); ("result", JStr (result st))].

(** A failure item as the dictionary it is, in insertion order. *)
Definition item_dict (it : FailureItem) : list (string * json) :=
  let d := item_data it in
  [("issue_key", JStr (issue_key d)); ("cycle_name", JStr (cycle_name d));
   ("folder_name", JStr (folder_name d)); ("version_name", JStr (version_name d));
   ("component_name", JStr (component_name d)); ("status", JStr (status d));
   ("executed_on", JStr (executed_on d)); ("executed_by", JStr (executed_by d));
   ("assigned_to", JStr (assigned_to d)); ("comment", JStr (comment d));
   ("steps", JList (map step_json (steps d)));
   ("failure_reason", JStr (failure_reason it))]
  ++ match execution_id it with
     | Some e => [("execution_id", JStr e)]
     | None => []
     end.

(** The report file as [generate_failure_report] hands it to the writer:
    the header ([fieldnames]) and, per item, the cells in header order
    (a missing key gives the writer's default, the empty string).
    [None]: no file is written. *)
Definition generate_failure_report (failed_items : list FailureItem)
    : option (list string * list (list json)) :=
  match failed_items with
  | [] => None
  | _ =>
      let all_keys : gset string :=
        foldl (fun keys it => keys ∪ list_to_set (map fst (item_dict it))) ∅ failed_items in
      let fieldnames := merge_sort String.le (elements all_keys) in
      Some (fieldnames,
            map (fun it =>
                   map (fun k => match Py.assoc k (item_dict it) with
                                 | Some v => v
                                 | None => JStr ""
                                 end) fieldnames)
                failed_items)
  end.

(* ===================================================================== *)
(** * The vocabulary of the further properties                            *)
(* ===================================================================== *)

(** A row with its column names rewritten by [f]. *)
Definition rename_columns (f : string -> string) (row : Row) : Row :=
  map (fun kc => (f <$> fst kc, snd kc)) row.

(** Column names of ASCII text that stay distinct when the case of their
    letters is ignored: renaming such columns by a case map gives a row
    that is a dictionary again. *)
Definition ascii_columns (row : Row) : Prop :=
  Forall (fun kc => match fst kc with
                    | Some k => PyStr.isascii k = true
                    | None => True
                    end) row.

Definition distinct_ignoring_case (row : Row) : Prop :=
  NoDup (map fst (rename_columns PyStr.lower row)).

Definition ascii_names (names : list string) : Prop :=
  Forall (fun n => PyStr.isascii n = true) names.

(** What every step entry built by the loader satisfies. *)
Definition step_ok (st : Step) : Prop :=
  step st <> ""
  /\ (result st = "" \/ exists e, e <> "" /\ result st = "Expected: " +:+ e).

(** What every record built by the loader satisfies. *)
Definition record_ok (retry : gset string) (r : ExecutionRecord) : Prop :=
  issue_key r ∈ retry /\ issue_key r <> ""
  /\ cycle_name r <> "" /\ version_name r <> "" /\ status r <> ""
  /\ Forall step_ok (steps r).

(** The events of a client call that sends its request [more + 1] times,
    the first one as attempt number [attempt]: before each further
    attempt it sleeps twice the number of attempts made so far. *)
Fixpoint retry_events (req : Request) (attempt : Z) (more : nat) : list Event :=
  match more with
  | O => [EvRequest req]
  | S more' =>
      EvRequest req :: EvSleep (inject_Z ((attempt + 1) * 2))
      :: retry_events req (attempt + 1) more'
  end.

(** What a client returns for the outcome of its last attempt. *)
Definition last_outcome (o : Outcome) : option Response :=
  match o with
  | Replied r => Some r
  | Failed _ => None
  end.

(** The errors each client retries. *)
Definition zephyr_retries (e : request_error) : bool :=
  is_Timeout e || is_ConnectionError e.

Definition jira_retries (e : request_error) : bool := is_Timeout e.

(** The last attempt of a call: a reply, an error the client does not
    retry, or any error once [max_retries] attempts are made. *)
Definition final_outcome (retries : request_error -> bool) (max_retries attempt : Z)
    (o : Outcome) : Prop :=
  match o with
  | Replied _ => True
  | Failed e => retries e = false \/ max_retries - 1 <= attempt
  end.

(** A string without white space. *)
Fixpoint no_space (s : string) : bool :=
  match s with
  | EmptyString => true
  | String a s' => negb (PyStr.isspace a) && no_space s'
  end.

(** A word: not empty, no white space. *)
Definition word (w : string) : Prop :=
  PyStr.is_empty w = false /\ no_space w = true.

(** The request that creates a test step at position [idx]. *)
Definition step_request (cfg : Config) (project_id : Z) (issue_id : json) (idx : Z)
    (st : Step) : Request :=
  mkRequest "POST" (zephyr_base cfg +:+ "/public/rest/api/1.0/teststep/" +:+ Py.str issue_id)
    [("projectId", JNum project_id)]
    (Some (JDict [("step", JStr (step st)); ("data", JStr (data st));
                  ("result", JStr (result st)); ("orderId", JNum idx)])).

Fixpoint step_requests (cfg : Config) (project_id : Z) (issue_id : json) (idx : Z)
    (steps : list Step) : list Event :=
  match steps with
  | [] => []
  | st :: rest =>
      EvRequest (step_request cfg project_id issue_id idx st)
      :: step_requests cfg project_id issue_id (idx + 1) rest
  end.

(** A world whose services answer every request, with whatever status. *)
Definition always_replies (w : World) : Prop :=
  forall n req, exists r, net w n req = Replied r.

(** [grows s s']: from [s] to [s'] the world is the same, requests and
    events were only added, and every memo of the run kept each of its
    entries (the folder listings kept their scopes). *)
Definition grows (s s' : State) : Prop :=
  world s' = world s
  /\ (clock s <= clock s')%nat
  /\ trace s `prefix_of` trace s'
  /\ versions_map s ⊆ versions_map s'
  /\ components_map s ⊆ components_map s'
  /\ issue_id_cache s ⊆ issue_id_cache s'
  /\ cycle_cache s ⊆ cycle_cache s'
  /\ folder_cache s ⊆ folder_cache s'
  /\ user_cache s ⊆ user_cache s'
  /\ steps_created_for_issue s ⊆ steps_created_for_issue s'
  /\ dom (folders_cache s) ⊆ dom (folders_cache s').

(** [m] relates the state it starts in to the state it ends in by [R],
    whether it returns or raises. *)
Definition steps_to {A} (R : State -> State -> Prop) (m : M A) : Prop :=
  forall s r s', m s = (r, s') -> R s s'.

(** [grows], for steps that also leave the folder cache as it is. *)
Definition grows_beside_folders (s s' : State) : Prop :=
  grows s s' /\ folder_cache s' = folder_cache s.

(** The request for the page of the user directory that starts at
    [start_at]. *)
Definition users_request (cfg : Config) (start_at : Z) : Request :=
  mkRequest "GET" (jira_url cfg +:+ "/rest/api/3/users/search")
    [("startAt", JNum start_at); ("maxResults", JNum 100)] None.

(** A directory service that answers the request for page [i] (the one
    starting at [100 * i]) with the list [pages i]. *)
Definition serves_pages (w : World) (cfg : Config) (pages : nat -> list json) : Prop :=
  forall n i,
    net w n (users_request cfg (100 * Z.of_nat i))
    = Replied (mkResponse 200 (Some (JList (pages i)))).

(** The keys every failure item has, and the header of a report without
    and with execution ids. *)
Definition item_keys : list string :=
  ["issue_key"; "cycle_name"; "folder_name"; "version_name"; "component_name"; "status";
   "executed_on"; "executed_by"; "assigned_to"; "comment"; "steps"; "failure_reason"].

Definition header_without_id : list string :=
  ["assigned_to"; "comment"; "component_name"; "cycle_name"; "executed_by"; "executed_on";
   "failure_reason"; "folder_name"; "issue_key"; "status"; "steps"; "version_name"].

Definition header_with_id : list string :=
  ["assigned_to"; "comment"; "component_name"; "cycle_name"; "executed_by"; "executed_on";
   "execution_id"; "failure_reason"; "folder_name"; "issue_key"; "status"; "steps";
   "version_name"].

Definition has_execution_id (it : FailureItem) : bool :=
  match execution_id it with Some _ => true | None => false end.

(* ===================================================================== *)
(** * Further concrete worlds                                             *)
(* ===================================================================== *)

(** The first two attempts of every request time out; the third one is
    answered. *)
Module Flaky.

Definition server (n : nat) (r : Request) : Outcome :=
  if (n <? 2)%nat then Failed Timeout else reply 200 [].

Definition start : State := initial (mkWorld server (fun _ => None)).

Definition zephyr_call : Request :=
  mkRequest "GET" "https://zephyr/public/rest/api/1.0/cycle" [] None.

Definition jira_call : Request :=
  mkRequest "GET" "https://jira/rest/api/2/myself" [] None.

End Flaky.

(** Jira knows the issue. *)
Module IssueFound.

Definition after_lookup : State :=
  snd (get_issue_id Scenario.cfg "GCTEST-94808" Scenario.start).

End IssueFound.

(** Jira answers the issue lookup with 200 and an object without [id]. *)
Module IssueReplyWithoutId.

Definition server (n : nat) (r : Request) : Outcome := reply 200 [].

Definition start : State := initial (mkWorld server (fun _ => None)).

Definition after_lookup : State :=
  snd (get_issue_id Scenario.cfg "GCTEST-94808" start).

End IssueReplyWithoutId.

(** A user directory of two people. *)
Module Directory.

Definition users : list json :=
  [JDict [("displayName", JStr "John Roe"); ("accountId", JStr "a-1")];
   JDict [("displayName", JStr "JANE DOE"); ("accountId", JStr "a-2")]].

Definition after_search : State :=
  snd (get_user_account_id Scenario.cfg "Jane  Doe (Inactive)" ∅ users
         (initial Offline.world)).

End Directory.

(** Two steps to create for an issue that has none. *)
Module TwoSteps.

Definition steps : list Step :=
  [mkStep "open the page" "" ""; mkStep "close the page" "" "Expected: page closed"].

Definition after_listing : State :=
  snd (get_existing_test_steps Scenario.cfg 10 (JStr "10001") CreationAccepted.start).

End TwoSteps.

(** Jira lists one version and one component of the project. *)
Module Listing.

Definition server (n : nat) (r : Request) : Outcome :=
  if String.eqb (url r) "https://jira/rest/api/2/project/GCTEST/versions" then
    Replied (mkResponse 200
               (Some (JList [JDict [("name", JStr "Release 1"); ("id", JStr "501")]])))
  else if String.eqb (url r) "https://jira/rest/api/2/project/GCTEST/components" then
    Replied (mkResponse 200
               (Some (JList [JDict [("name", JStr "Billing"); ("id", JNum 601)]])))
  else reply 404 [].

Definition start : State := mkState (mkWorld server (fun _ => None)) 0 [] ∅ ∅ ∅ ∅ ∅ ∅ ∅ ∅.

Definition versions : gmap string Z := <["Unscheduled" := -1]> (<["Release 1" := 501]> ∅).

Definition components : gmap string string := <["Billing" := "601"]> ∅.

End Listing.

(** A user directory served in pages: [first_short] pages of 100 users
    and then one of three. *)
Module Pages.

Definition user : json := JDict [("displayName", JStr "John Roe"); ("accountId", JStr "a-1")].

Definition pages (first_short : option nat) (i : nat) : list json :=
  match first_short with
  | Some k => if (i <? k)%nat then repeat user 100 else repeat user 3
  | None => repeat user 100
  end.

Definition server (first_short : option nat) (n : nat) (r : Request) : Outcome :=
  match params r with
  | ("startAt", JNum start_at) :: _ =>
      Replied (mkResponse 200 (Some (JList (pages first_short (Z.to_nat (start_at / 100))))))
  | _ => reply 404 []
  end.

Definition start (first_short : option nat) : State :=
  initial (mkWorld (server first_short) (fun _ => None)).

End Pages.

(** Two failures of a run: one before an execution existed, one after. *)
Module Report.

Definition items : list FailureItem :=
  [mkFailureItem sample_record "Issue not found" None;
   mkFailureItem sample_record "Could not execute execution (deleted)" (Some "e-1")].

Definition rows : list (list json) :=
  let cells := [JStr ""; JStr ""; JStr ""; JStr "Sprint1"; JStr ""; JStr ""] in
  let rest := [JStr ""; JStr "GCTEST-94808"; JStr "PASS"; JList []; JStr "Unscheduled"] in
  [cells ++ [JStr ""; JStr "Issue not found"] ++ rest;
   cells ++ [JStr "e-1"; JStr "Could not execute execution (deleted)"] ++ rest].

End Report.

(* ===================================================================== *)
(** * Properties                                                          *)
(* ===================================================================== *)


(** ** Running computations *)

Lemma bind_Ok {A B} (m : M A) (k : A -> M B) s a s' :
  m s = (Ok a, s') -> bind m k s = k a s'.
Proof. intros H. unfold bind. now rewrite H. Qed.

Lemma bind_Raise {A B} (m : M A) (k : A -> M B) s e s' :
  m s = (Raise e, s') -> bind m k s = (Raise e, s').
Proof. intros H. unfold bind. now rewrite H. Qed.

Lemma advance_0 s : advance 0 [] s = s.
Proof.
  destruct s; unfold advance; simpl. now rewrite Nat.add_0_r, app_nil_r.
Qed.

Lemma advance_advance n1 e1 n2 e2 s :
  advance n2 e2 (advance n1 e1 s) = advance (n1 + n2) (e1 ++ e2) s.
Proof.
  unfold advance; simpl. now rewrite Nat.add_assoc, app_assoc.
Qed.

Lemma log_advance e k s : log e k s = advance k [e] s.
Proof. reflexivity. Qed.

Ltac client_run_stop req :=
  exists None, 1%nat, [EvRequest req];
  split; [reflexivity|]; split; [lia|];
  constructor; [left; reflexivity | constructor].

Ltac client_run_step IH req attempt s :=
  unfold bind at 1, requests_request; rewrite log_advance;
  destruct (net (world s) (clock s) req) as [?r|?e];
  [ eexists _, 1%nat, [EvRequest req];
    split; [reflexivity|]; split; [lia|];
    constructor; [left; reflexivity | constructor]
  | repeat match goal with
      | |- context [if ?c then _ else _] => destruct c; [| client_run_stop req]
      end;
    unfold bind, time_sleep; rewrite log_advance, advance_advance;
    let resp := fresh "resp" in
    let n := fresh "n" in
    let evs := fresh "evs" in
    let Hrun := fresh "Hrun" in
    let Hn := fresh "Hn" in
    let Hevs := fresh "Hevs" in
    destruct (IH (attempt + 1)
                (advance (1 + 0)
                   ([EvRequest req] ++ [EvSleep (inject_Z ((attempt + 1) * 2))]) s))
      as (resp & n & evs & Hrun & Hn & Hevs);
    rewrite Hrun, advance_advance;
    eexists _, _, _; split; [reflexivity|]; split; [lia|];
    simpl;
    constructor; [left; reflexivity|];
    constructor; [right; eexists; reflexivity|];
    exact Hevs ].

Lemma zephyr_attempts_run req max_retries todo attempt :
  client_run req todo (zephyr_attempts req max_retries todo attempt).
Proof.
  revert attempt. induction todo as [|todo IH]; intros attempt s; simpl.
  - exists None, 0%nat, []. rewrite advance_0. repeat split; auto.
  - client_run_step IH req attempt s.
Qed.

Lemma jira_attempts_run req max_retries todo attempt :
  client_run req todo (jira_attempts req max_retries todo attempt).
Proof.
  revert attempt. induction todo as [|todo IH]; intros attempt s; simpl.
  - exists None, 0%nat, []. rewrite advance_0. repeat split; auto.
  - client_run_step IH req attempt s.
Qed.

Lemma jira_request_run cfg method path params body max_retries :
  client_run (mkRequest (PyStr.upper method) (jira_url cfg +:+ path) params body)
    (Z.to_nat max_retries) (jira_request cfg method path params body max_retries).
Proof. apply jira_attempts_run. Qed.

Lemma zephyr_request_run cfg method path params body max_retries :
  client_run (mkRequest (PyStr.upper method) (zephyr_base cfg +:+ path) params body)
    (Z.to_nat max_retries) (zephyr_request cfg method path params body max_retries).
Proof. apply zephyr_attempts_run. Qed.

(** Neither client raises, whatever the network does. *)
Lemma jira_request_never_raises cfg method path params body max_retries s :
  exists resp s', jira_request cfg method path params body max_retries s = (Ok resp, s').
Proof.
  destruct (jira_request_run cfg method path params body max_retries s)
    as (resp & n & evs & H & _). eauto.
Qed.

Lemma zephyr_request_never_raises cfg method path params body max_retries s :
  exists resp s', zephyr_request cfg method path params body max_retries s = (Ok resp, s').
Proof.
  destruct (zephyr_request_run cfg method path params body max_retries s)
    as (resp & n & evs & H & _). eauto.
Qed.

(** One iteration of either loop, case by case. *)
Lemma zephyr_attempts_reply req max_retries todo attempt s r :
  net (world s) (clock s) req = Replied r ->
  zephyr_attempts req max_retries (S todo) attempt s
  = (Ok (Some r), log (EvRequest req) 1 s).
Proof. intros H. simpl. unfold bind, requests_request. now rewrite H. Qed.

Lemma zephyr_attempts_retry req max_retries todo attempt s e :
  net (world s) (clock s) req = Failed e ->
  is_Timeout e || is_ConnectionError e = true ->
  attempt < max_retries - 1 ->
  zephyr_attempts req max_retries (S todo) attempt s
  = zephyr_attempts req max_retries todo (attempt + 1)
      (log (EvSleep (inject_Z ((attempt + 1) * 2))) 0 (log (EvRequest req) 1 s)).
Proof.
  intros H He Hlt. apply Z.ltb_lt in Hlt. simpl.
  unfold bind at 1, requests_request. rewrite H, He, Hlt.
  unfold bind at 1, time_sleep. reflexivity.
Qed.

Lemma zephyr_attempts_give_up req max_retries todo attempt s e :
  net (world s) (clock s) req = Failed e ->
  is_Timeout e || is_ConnectionError e = false \/ max_retries - 1 <= attempt ->
  zephyr_attempts req max_retries (S todo) attempt s
  = (Ok None, log (EvRequest req) 1 s).
Proof.
  intros H Hstop. simpl. unfold bind at 1, requests_request. rewrite H.
  destruct Hstop as [-> | Hge]; [reflexivity|].
  apply Z.ltb_ge in Hge. rewrite Hge. now destruct (_ || _).
Qed.

Lemma jira_attempts_reply req max_retries todo attempt s r :
  net (world s) (clock s) req = Replied r ->
  jira_attempts req max_retries (S todo) attempt s
  = (Ok (Some r), log (EvRequest req) 1 s).
Proof. intros H. simpl. unfold bind, requests_request. now rewrite H. Qed.

Lemma jira_attempts_retry req max_retries todo attempt s e :
  net (world s) (clock s) req = Failed e ->
  is_Timeout e = true ->
  attempt < max_retries - 1 ->
  jira_attempts req max_retries (S todo) attempt s
  = jira_attempts req max_retries todo (attempt + 1)
      (log (EvSleep (inject_Z ((attempt + 1) * 2))) 0 (log (EvRequest req) 1 s)).
Proof.
  intros H He Hlt. apply Z.ltb_lt in Hlt. simpl.
  unfold bind at 1, requests_request. rewrite H, He, Hlt.
  unfold bind at 1, time_sleep. reflexivity.
Qed.

Lemma jira_attempts_give_up req max_retries todo attempt s e :
  net (world s) (clock s) req = Failed e ->
  is_Timeout e = false \/ max_retries - 1 <= attempt ->
  jira_attempts req max_retries (S todo) attempt s
  = (Ok None, log (EvRequest req) 1 s).
Proof.
  intros H Hstop. simpl. unfold bind at 1, requests_request. rewrite H.
  destruct Hstop as [-> | Hge]; [reflexivity|].
  apply Z.ltb_ge in Hge. rewrite Hge. now destruct (is_Timeout e).
Qed.

(** When every attempt times out, either client gives up after three
    requests and two sleeps of 2 and 4 seconds, and returns nothing. *)
Lemma zephyr_request_exhausted cfg method path params body s :
  let req := mkRequest (PyStr.upper method) (zephyr_base cfg +:+ path) params body in
  (forall n, net (world s) n req = Failed Timeout) ->
  zephyr_request cfg method path params body default_retries s
  = (Ok None,
     log (EvRequest req) 1
       (log (EvSleep (inject_Z 4)) 0
          (log (EvRequest req) 1
             (log (EvSleep (inject_Z 2)) 0 (log (EvRequest req) 1 s))))).
Proof.
  intros req Hnet. unfold zephyr_request, default_retries. fold req.
  change (Z.to_nat 3) with 3%nat.
  rewrite (zephyr_attempts_retry _ _ _ _ _ Timeout); [|apply Hnet|reflexivity|lia].
  rewrite (zephyr_attempts_retry _ _ _ _ _ Timeout); [|apply Hnet|reflexivity|lia].
  rewrite (zephyr_attempts_give_up _ _ _ _ _ Timeout); [reflexivity|apply Hnet|right; lia].
Qed.

Lemma jira_request_exhausted cfg method path params body s :
  let req := mkRequest (PyStr.upper method) (jira_url cfg +:+ path) params body in
  (forall n, net (world s) n req = Failed Timeout) ->
  jira_request cfg method path params body default_retries s
  = (Ok None,
     log (EvRequest req) 1
       (log (EvSleep (inject_Z 4)) 0
          (log (EvRequest req) 1
             (log (EvSleep (inject_Z 2)) 0 (log (EvRequest req) 1 s))))).
Proof.
  intros req Hnet. unfold jira_request, default_retries. fold req.
  change (Z.to_nat 3) with 3%nat.
  rewrite (jira_attempts_retry _ _ _ _ _ Timeout); [|apply Hnet|reflexivity|lia].
  rewrite (jira_attempts_retry _ _ _ _ _ Timeout); [|apply Hnet|reflexivity|lia].
  rewrite (jira_attempts_give_up _ _ _ _ _ Timeout); [reflexivity|apply Hnet|right; lia].
Qed.

(** The Zephyr client does retry a connection error. *)
Lemma zephyr_request_retries_connection_error cfg method path params body s :
  let req := mkRequest (PyStr.upper method) (zephyr_base cfg +:+ path) params body in
  net (world s) (clock s) req = Failed ConnectionError ->
  zephyr_request cfg method path params body default_retries s
  = zephyr_attempts req default_retries 2 1
      (log (EvSleep (inject_Z 2)) 0 (log (EvRequest req) 1 s)).
Proof.
  intros req Hnet. unfold zephyr_request, default_retries. fold req.
  change (Z.to_nat 3) with 3%nat.
  now rewrite (zephyr_attempts_retry _ _ _ _ _ ConnectionError) by (auto; lia).
Qed.

(** C3 (the Jira half fails): a connection error that is not a timeout
    reaches the catch-all handler of [jira_request]; the client returns
    nothing after that single request, without a sleep and without a
    second attempt. *)
Theorem C3_jira_connection_error_not_retried cfg method path params body s :
  let req := mkRequest (PyStr.upper method) (jira_url cfg +:+ path) params body in
  net (world s) (clock s) req = Failed ConnectionError ->
  jira_request cfg method path params body default_retries s
  = (Ok None, log (EvRequest req) 1 s).
Proof.
  intros req Hnet. unfold jira_request, default_retries. fold req.
  change (Z.to_nat 3) with 3%nat.
  now rewrite (jira_attempts_give_up _ _ _ _ _ ConnectionError) by auto.
Qed.

Arguments jira_request : simpl never.
Arguments zephyr_request : simpl never.

(** With the default three attempts a client sends its request at least
    once. *)
Lemma zephyr_request_first cfg method path params body s :
  let req := mkRequest (PyStr.upper method) (zephyr_base cfg +:+ path) params body in
  exists resp n evs,
    zephyr_request cfg method path params body default_retries s
    = (Ok resp, advance (S n) (EvRequest req :: evs) s).
Proof.
  intros req. unfold zephyr_request, default_retries. fold req.
  change (Z.to_nat 3) with 3%nat.
  destruct (net (world s) (clock s) req) as [r|e] eqn:Hnet.
  - rewrite (zephyr_attempts_reply _ _ _ _ _ _ Hnet). now exists (Some r), 0%nat, [].
  - destruct (is_Timeout e || is_ConnectionError e) eqn:He.
    + rewrite (zephyr_attempts_retry _ _ _ _ _ _ Hnet He) by lia.
      rewrite !log_advance, advance_advance.
      destruct (zephyr_attempts_run req 3 2 (0 + 1)
                  (advance (1 + 0) ([EvRequest req] ++ [EvSleep (inject_Z ((0 + 1) * 2))]) s))
        as (resp & n & evs & -> & _).
      rewrite advance_advance. now eexists resp, _, _.
    + rewrite (zephyr_attempts_give_up _ _ _ _ _ _ Hnet) by auto.
      now exists None, 0%nat, [].
Qed.

(** ** The loop body, record by record *)

Ltac break_match :=
  match goal with
  | |- context [match ?x with _ => _ end] => destruct x eqn:?
  end.

Ltac break_hyp :=
  match goal with
  | H : context [match ?x with _ => _ end] |- _ => destruct x eqn:?
  end.

Ltac invert_pair :=
  match goal with
  | H : (_, _) = (_, _) |- _ => inversion H; subst; clear H
  end.

(** Case analysis along a computation that appears in a hypothesis. *)
Ltac crunch :=
  repeat (try discriminate; first [invert_pair | break_hyp]).

(** An issue lookup adds to the trace nothing but its own request (and the
    sleeps between its attempts). *)
Lemma get_issue_id_events cfg k s r s1 :
  get_issue_id cfg k s = (r, s1) ->
  exists evs, trace s1 = trace s ++ evs /\ Forall (client_event (issue_request cfg k)) evs.
Proof.
  unfold get_issue_id, bind, gets. destruct (issue_id_cache s !! k) as [iid|].
  - intros [= <- <-]. exists []. now rewrite app_nil_r.
  - destruct (jira_request_run cfg "GET" ("/rest/api/2/issue/" +:+ k)
                [("fields", JStr "id")] None default_retries s)
      as (resp & n & evs & -> & _ & Hevs).
    intros H. exists evs. split; [|exact Hevs].
    revert H. unfold lift, modify, ret.
    repeat (break_match; simpl); intros [= <- <-]; reflexivity.
Qed.

Lemma resolve_record_issue_not_found cfg su d t s iid s1 :
  get_issue_id cfg (issue_key d) s = (Ok iid, s1) ->
  Py.truthy iid = false ->
  resolve_record cfg su d t s
  = (Ok (Continue (tally_failed t d "Issue not found" None)), s1).
Proof.
  intros H Hf. unfold resolve_record. rewrite (bind_Ok _ _ _ _ _ H), Hf. reflexivity.
Qed.

Lemma migrate_record_continue cfg su d t s t' s1 :
  resolve_record cfg su d t s = (Ok (Continue t'), s1) ->
  migrate_record cfg su d t s = (Ok t', s1).
Proof. intros H. unfold migrate_record. now rewrite (bind_Ok _ _ _ _ _ H). Qed.

Lemma migrate_record_next cfg su d t s r s1 :
  resolve_record cfg su d t s = (Ok (Next r), s1) ->
  migrate_record cfg su d t s = create_and_execute cfg su d t r s1.
Proof. intros H. unfold migrate_record. now rewrite (bind_Ok _ _ _ _ _ H). Qed.

(** C2: a record whose issue lookup returns no identifier ends there: the
    state after the record is the state after the lookup, so the only
    requests made for the record are those of the lookup itself (no
    component update, no step sync, no execution creation); the record is
    appended to the failures with the reason "Issue not found" and the
    loop goes on with the next record. *)
Theorem C2_issue_not_found_short_circuits cfg su d t s s1 :
  get_issue_id cfg (issue_key d) s = (Ok JNull, s1) ->
  migrate_record cfg su d t s
  = (Ok (mkTally (created t) (failed t + 1)
           (failed_items t ++ [mkFailureItem d "Issue not found" None])), s1)
  /\ (exists evs, trace s1 = trace s ++ evs
                  /\ Forall (client_event (issue_request cfg (issue_key d))) evs)
  /\ (forall k rest,
        migrate_records cfg su ((k, d) :: rest) t s
        = migrate_records cfg su rest (tally_failed t d "Issue not found" None) s1).
Proof.
  intros H.
  assert (Hrec : migrate_record cfg su d t s
                 = (Ok (tally_failed t d "Issue not found" None), s1)).
  { apply migrate_record_continue.
    now apply (resolve_record_issue_not_found _ _ _ _ _ JNull). }
  split; [exact Hrec|]. split.
  - eapply get_issue_id_events; eauto.
  - intros k rest. simpl. now rewrite (bind_Ok _ _ _ _ _ Hrec).
Qed.

(** C4 (fails on the three [continue] paths): a record that ends at "Issue
    not found", at "Could not create cycle" or at "Could not create
    execution" leaves the loop body where the failure is detected; the
    state after the record is the state at that point, and the sleep of
    line 797 is not performed. *)
Theorem C4_continue_skips_rate_limit_delay cfg su d t :
  (forall s iid s1,
      get_issue_id cfg (issue_key d) s = (Ok iid, s1) ->
      Py.truthy iid = false ->
      migrate_record cfg su d t s
      = (Ok (tally_failed t d "Issue not found" None), s1))
  /\ (forall s t' s1,
        resolve_record cfg su d t s = (Ok (Continue t'), s1) ->
        migrate_record cfg su d t s = (Ok t', s1))
  /\ (forall s r s1 s2,
        resolve_record cfg su d t s = (Ok (Next r), s1) ->
        create_execution cfg (project_id su) (ref_version_id r) (ref_cycle_id r)
          (ref_folder_id r) (ref_issue_id r) s1 = (Ok None, s2) ->
        migrate_record cfg su d t s
        = (Ok (tally_failed t d "Could not create execution" None), s2)).
Proof.
  split; [|split].
  - intros s iid s1 H Hf. apply migrate_record_continue.
    now apply (resolve_record_issue_not_found _ _ _ _ _ iid).
  - intros s t' s1 H. now apply migrate_record_continue.
  - intros s r s1 s2 H Hc. rewrite (migrate_record_next _ _ _ _ _ _ _ H).
    unfold create_and_execute. now rewrite (bind_Ok _ _ _ _ _ Hc).
Qed.

(** [str(x)] of a true object is a non-empty string. *)
Lemma of_Z_nonempty n : PyStr.is_empty (PyStr.of_Z n) = false.
Proof.
  unfold PyStr.of_Z. destruct (Z.to_int n) as [u|u]; [|reflexivity].
  simpl. now destruct u.
Qed.

Lemma str_truthy j : Py.truthy j = true -> PyStr.is_empty (Py.str j) = false.
Proof.
  destruct j as [|b|n|s|l|d]; simpl; try discriminate.
  - now intros ->.
  - intros _. apply of_Z_nonempty.
  - now destruct s.
  - reflexivity.
  - reflexivity.
Qed.

(** An execution id returned by [create_execution] passes the test of
    line 770. *)
Lemma create_execution_truthy cfg pid vid cid fid iid s new_id s' :
  create_execution cfg pid vid cid fid iid s = (Ok (Some new_id), s') ->
  Py.truthy_str (Some new_id) = true.
Proof.
  unfold create_execution, bind, lift, try_except, ret. intros H.
  crunch; simpl; apply negb_true_iff, str_truthy; now apply negb_false_iff.
Qed.

(** [delete_execution] always sends the DELETE request for that execution
    and reports whether a 200 or 204 came back; it never raises. *)
Lemma delete_execution_runs cfg execution_id issue_id s :
  exists deleted n evs,
    delete_execution cfg execution_id issue_id s
    = (Ok deleted, advance (S n) (EvRequest (delete_request cfg execution_id issue_id) :: evs) s).
Proof.
  unfold delete_execution.
  destruct (zephyr_request_first cfg "DELETE"
              ("/public/rest/api/1.0/execution/" +:+ execution_id)
              [("issueId", issue_id)] None s) as (resp & n & evs & H).
  rewrite (bind_Ok _ _ _ _ _ H). unfold ret.
  destruct resp as [r|]; [|now eexists _, _, _].
  repeat break_match; now eexists _, _, _.
Qed.

(** C1: when the execution has been created and setting its status fails,
    the DELETE request for the new execution is sent (its outcome is not
    looked at), the record is appended to the failures with the reason
    "Could not execute execution (deleted)" and the id of the created
    execution, the failure counter goes up by one and the creation counter
    stays; the delay of line 797 follows. *)
Theorem C1_failed_status_update_is_compensated cfg su d t s r s1 new_id s2 s3 :
  resolve_record cfg su d t s = (Ok (Next r), s1) ->
  create_execution cfg (project_id su) (ref_version_id r) (ref_cycle_id r)
    (ref_folder_id r) (ref_issue_id r) s1 = (Ok (Some new_id), s2) ->
  execute_execution cfg new_id (ref_issue_id r) (project_id su) (ref_version_id r)
    (ref_cycle_id r) d (ref_executed_by_id r) (ref_assigned_to_id r) s2
  = (Ok false, s3) ->
  exists deleted s4 evs,
    delete_execution cfg new_id (ref_issue_id r) s3 = (Ok deleted, s4)
    /\ trace s4 = trace s3 ++ EvRequest (delete_request cfg new_id (ref_issue_id r)) :: evs
    /\ migrate_record cfg su d t s
       = (Ok (mkTally (created t) (failed t + 1)
                (failed_items t
                 ++ [mkFailureItem d "Could not execute execution (deleted)" (Some new_id)])),
          log (EvSleep (rate_limit_delay cfg)) 0 s4).
Proof.
  intros Hres Hcreate Hexec.
  destruct (delete_execution_runs cfg new_id (ref_issue_id r) s3)
    as (deleted & n & evs & Hdel).
  exists deleted, (advance (S n) (EvRequest (delete_request cfg new_id (ref_issue_id r)) :: evs) s3), evs.
  split; [exact Hdel|]. split; [reflexivity|].
  rewrite (migrate_record_next _ _ _ _ _ _ _ Hres).
  unfold create_and_execute. rewrite (bind_Ok _ _ _ _ _ Hcreate).
  rewrite (create_execution_truthy _ _ _ _ _ _ _ _ _ Hcreate). cbn [negb].
  rewrite (bind_Ok _ _ _ _ _ Hexec). cbn iota.
  unfold bind at 1. unfold bind at 1. rewrite Hdel. reflexivity.
Qed.

(** On the other two ways out of line 776 the delay is performed: after a
    successful update (and its optional comment) the record counts as
    created and the body ends with the sleep. *)
Lemma migrate_record_created_sleeps cfg su d t s r s1 new_id s2 s3 :
  resolve_record cfg su d t s = (Ok (Next r), s1) ->
  create_execution cfg (project_id su) (ref_version_id r) (ref_cycle_id r)
    (ref_folder_id r) (ref_issue_id r) s1 = (Ok (Some new_id), s2) ->
  execute_execution cfg new_id (ref_issue_id r) (project_id su) (ref_version_id r)
    (ref_cycle_id r) d (ref_executed_by_id r) (ref_assigned_to_id r) s2
  = (Ok true, s3) ->
  exists s4,
    migrate_record cfg su d t s
    = (Ok (tally_created t), log (EvSleep (rate_limit_delay cfg)) 0 s4).
Proof.
  intros Hres Hcreate Hexec.
  rewrite (migrate_record_next _ _ _ _ _ _ _ Hres).
  unfold create_and_execute. rewrite (bind_Ok _ _ _ _ _ Hcreate).
  rewrite (create_execution_truthy _ _ _ _ _ _ _ _ _ Hcreate). cbn [negb].
  rewrite (bind_Ok _ _ _ _ _ Hexec). cbn iota.
  destruct (PyStr.is_empty (comment d)); cbn [negb].
  - now exists s3.
  - unfold add_execution_comment. destruct (negb (nonblank (comment d))).
    + now exists s3.
    + destruct (zephyr_request_never_raises cfg "POST"
                  ("/public/rest/api/1.0/execution/" +:+ new_id +:+ "/comment") []
                  (Some (JDict [("comment", JStr (PyStr.strip (comment d)))]))
                  default_retries s3) as (resp & s4 & Hcomment).
      exists s4. unfold bind, ret. now rewrite Hcomment.
Qed.

(** ** The status table *)

Lemma table_get_default k d default :
  k ∉ map fst d -> table_get k d default = default.
Proof.
  induction d as [|[k' v] d IH]; simpl; [reflexivity|].
  intros Hk. destruct (String.eqb_spec k k') as [->|Hne].
  - exfalso. apply Hk. left.
  - apply IH. intros Hin. apply Hk. now right.
Qed.

(** C7: the status of a record is looked up, in upper case, in the table
    PASS=1, FAIL=2, WIP=3, BLOCKED=4, UNEXECUTED=-1, and a status outside
    the table gives -1; the version "Unscheduled" resolves to -1 without a
    request; and the scenario row ends as one created execution whose
    creation request carries version id -1 and whose update request
    carries status id 1. *)
Theorem C7_status_table_and_scenario :
  status_key "PASS" = 1 /\ status_key "FAIL" = 2 /\ status_key "WIP" = 3
  /\ status_key "BLOCKED" = 4 /\ status_key "UNEXECUTED" = -1
  /\ (forall st,
        PyStr.upper st ∉ ["PASS"; "FAIL"; "WIP"; "BLOCKED"; "UNEXECUTED"] ->
        status_key st = -1)
  /\ (forall cfg pid s, get_or_create_version_id cfg pid "Unscheduled" s = (Ok (-1), s))
  /\ fst Scenario.run = Ok (mkTally 1 0 [])
  /\ trace (snd Scenario.run)
     = [EvRequest (issue_request Scenario.cfg "GCTEST-94808");
        EvRequest (mkRequest "POST" "https://zephyr/public/rest/api/1.0/cycle" []
                     (Some (JDict [("name", JStr "Sprint1"); ("projectId", JNum 10);
                                   ("versionId", JNum (-1));
                                   ("description", JStr "Created by migration")])));
        EvRequest Scenario.create_request;
        EvRequest Scenario.update_request;
        EvSleep (3 # 2)].
Proof.
  repeat split; try reflexivity.
  intros st Hst. now apply table_get_default.
Qed.

(** ** Loading the CSV *)

Section Loader.

Variable retry : gset string.

Lemma load_row_unfold executions raw :
  load_row retry executions raw
  = match row_group retry raw with
    | Raise e => Raise e
    | Ok None => Ok executions
    | Ok (Some (ik, k)) =>
        let+ opened :=
          match lookup_execution k executions with
          | Some _ => Ok executions
          | None => let+ r := new_record ik raw in Ok (executions ++ [(k, r)])
          end in
        let+ st := step_of raw in
        Ok (maybe_append k st opened)
    end.
Proof.
  unfold load_row, row_group, rbind.
  destruct (pick raw _ _) as [ik|e]; [|reflexivity].
  destruct (PyStr.is_empty ik); [reflexivity|].
  destruct (negb _); [reflexivity|].
  destruct (unique_key_of ik raw) as [k|e]; [|reflexivity].
  destruct (lookup_execution k executions); [|destruct (new_record ik raw)];
    try reflexivity; destruct (step_of raw) as [[st|]|]; reflexivity.
Qed.

Lemma load_rows_app executions rows1 rows2 :
  load_rows retry executions (rows1 ++ rows2)
  = let+ executions' := load_rows retry executions rows1 in
    load_rows retry executions' rows2.
Proof.
  revert executions. induction rows1 as [|raw rows1 IH]; intros executions; simpl.
  - reflexivity.
  - destruct (load_row retry executions raw) as [e1|]; simpl; [apply IH|reflexivity].
Qed.

Lemma row_excluded executions raw k :
  pick raw ["issue key"; "issuekey"] "" = Ok k ->
  k = "" \/ k ∉ retry ->
  load_row retry executions raw = Ok executions.
Proof.
  intros Hk Hout. unfold load_row. rewrite Hk. simpl.
  destruct Hout as [-> | Hout]; [reflexivity|].
  destruct (PyStr.is_empty k); [reflexivity|].
  now rewrite bool_decide_eq_false_2.
Qed.

(** C8: a row whose issue key is empty or outside the allow-list leaves
    the executions as they are, and the set built from the file is the
    one built from the file without that row. *)
Theorem C8_rows_outside_allow_list_are_excluded raw k :
  pick raw ["issue key"; "issuekey"] "" = Ok k ->
  k = "" \/ k ∉ retry ->
  (forall executions, load_row retry executions raw = Ok executions)
  /\ (forall before after,
        load_executions_from_csv (before ++ raw :: after) retry
        = load_executions_from_csv (before ++ after) retry).
Proof.
  intros Hk Hout. split.
  - intros executions. now apply (row_excluded _ _ k).
  - intros before after. unfold load_executions_from_csv.
    rewrite !load_rows_app. destruct (load_rows retry [] before) as [e|]; simpl;
      [|reflexivity].
    now rewrite (row_excluded _ _ k).
Qed.

Lemma lookup_append_step_ne k k' st executions :
  k <> k' ->
  lookup_execution k (append_step k' st executions) = lookup_execution k executions.
Proof.
  intros Hne. induction executions as [|[k0 r] rest IH]; simpl; [reflexivity|].
  destruct (String.eqb_spec k' k0) as [->|Hk0]; simpl.
  - now rewrite (proj2 (String.eqb_neq k k0)).
  - destruct (String.eqb k k0); [reflexivity|exact IH].
Qed.

Lemma lookup_append_step_eq k st executions :
  lookup_execution k (append_step k st executions)
  = add_step st <$> lookup_execution k executions.
Proof.
  induction executions as [|[k0 r] rest IH]; simpl; [reflexivity|].
  destruct (String.eqb_spec k k0) as [->|Hk0]; simpl.
  - now rewrite String.eqb_refl.
  - now rewrite (proj2 (String.eqb_neq k k0)).
Qed.

Lemma lookup_snoc k k' r executions :
  lookup_execution k (executions ++ [(k', r)])
  = match lookup_execution k executions with
    | Some x => Some x
    | None => if String.eqb k k' then Some r else None
    end.
Proof.
  induction executions as [|[k0 r0] rest IH]; simpl; [reflexivity|].
  destruct (String.eqb k k0); [reflexivity|exact IH].
Qed.

Lemma lookup_maybe_append_ne k k' st executions :
  k <> k' ->
  lookup_execution k (maybe_append k' st executions) = lookup_execution k executions.
Proof. destruct st; simpl; [apply lookup_append_step_ne|reflexivity]. Qed.

Lemma new_record_steps ik raw r : new_record ik raw = Ok r -> steps r = [].
Proof.
  unfold new_record, rbind. intros H.
  repeat (break_hyp; try discriminate). now inversion H.
Qed.

Lemma with_steps_id r : with_steps r (steps r) = r.
Proof. now destruct r. Qed.

Lemma row_steps_other k raw :
  (forall ik, row_group retry raw <> Ok (Some (ik, k))) -> row_steps retry k raw = [].
Proof.
  intros H. unfold row_steps. destruct (row_group retry raw) as [[[ik k']|]|] eqn:Hg;
    try reflexivity.
  destruct (String.eqb_spec k k') as [->|]; [|reflexivity].
  now destruct (H ik).
Qed.

Lemma group_steps_cons k raw rows :
  group_steps retry k (raw :: rows) = row_steps retry k raw ++ group_steps retry k rows.
Proof. reflexivity. Qed.

Lemma row_steps_own k raw ik st :
  row_group retry raw = Ok (Some (ik, k)) ->
  step_of raw = Ok st ->
  row_steps retry k raw = match st with Some st => [st] | None => [] end.
Proof. intros Hg Hst. unfold row_steps. now rewrite Hg, String.eqb_refl, Hst. Qed.

(** The state of the executions after some rows, group by group: a group
    that was open before keeps its record and gains the steps of the
    rows; a group opened by these rows has the fields of its first row. *)
Lemma load_rows_groups rows : forall before executions,
  load_rows retry before rows = Ok executions ->
  forall k rec, lookup_execution k executions = Some rec ->
    (exists rec0, lookup_execution k before = Some rec0
                  /\ rec = with_steps rec0 (steps rec0 ++ group_steps retry k rows))
    \/ (lookup_execution k before = None
        /\ exists pre raw post ik r0,
             rows = pre ++ raw :: post
             /\ (forall raw' ik', raw' ∈ pre -> row_group retry raw' <> Ok (Some (ik', k)))
             /\ row_group retry raw = Ok (Some (ik, k))
             /\ new_record ik raw = Ok r0
             /\ rec = with_steps r0 (group_steps retry k (raw :: post))).
Proof.
  induction rows as [|raw rows IH]; intros before executions Hload k rec Hrec.
  - simpl in Hload. injection Hload as <-. left. exists rec. split; [exact Hrec|].
    simpl. now rewrite app_nil_r, with_steps_id.
  - simpl in Hload. destruct (load_row retry before raw) as [mid|] eqn:Hrow;
      [|discriminate]. simpl in Hload.
    rewrite load_row_unfold in Hrow.
    destruct (IH _ _ Hload k rec Hrec)
      as [(rec1 & Hmid & ->) | (Hmid & pre & raw2 & post & ik2 & r0 & -> & Hpre & Hg & Hnew & ->)].
    + (* the group is open after [raw] *)
      destruct (row_group retry raw) as [[[ik k']|]|] eqn:Hg; [| |discriminate].
      * destruct (String.eqb_spec k k') as [->|Hne].
        -- (* [raw] belongs to the group *)
           unfold rbind in Hrow.
           destruct (lookup_execution k' before) as [rec0|] eqn:Hbefore.
           ++ destruct (step_of raw) as [st|] eqn:Hst; [|discriminate].
              injection Hrow as <-. left. exists rec0. split; [reflexivity|].
              rewrite group_steps_cons, (row_steps_own _ _ _ _ Hg Hst).
              destruct st as [st|]; simpl in Hmid.
              ** rewrite lookup_append_step_eq, Hbefore in Hmid.
                 injection Hmid as <-. simpl. now rewrite <- app_assoc.
              ** rewrite Hbefore in Hmid. now injection Hmid as <-.
           ++ destruct (new_record ik raw) as [r0|] eqn:Hnew; [|discriminate].
              destruct (step_of raw) as [st|] eqn:Hst; [|discriminate].
              injection Hrow as <-. right. split; [reflexivity|].
              exists [], raw, rows, ik, r0.
              split; [reflexivity|]. split; [intros ? ? Hin; inversion Hin|].
              split; [exact Hg|]. split; [exact Hnew|].
              rewrite group_steps_cons, (row_steps_own _ _ _ _ Hg Hst).
              pose proof (new_record_steps _ _ _ Hnew) as Hsteps.
              destruct st as [st|]; simpl in Hmid.
              ** rewrite lookup_append_step_eq, lookup_snoc, Hbefore,
                   String.eqb_refl in Hmid.
                 injection Hmid as <-. simpl. now rewrite Hsteps.
              ** rewrite lookup_snoc, Hbefore, String.eqb_refl in Hmid.
                 injection Hmid as <-. simpl. now rewrite Hsteps.
        -- (* [raw] belongs to another group *)
           left. exists rec1. split.
           ++ unfold rbind in Hrow.
              destruct (lookup_execution k' before) eqn:Hbefore.
              ** destruct (step_of raw) as [st|]; [|discriminate].
                 injection Hrow as <-.
                 now rewrite lookup_maybe_append_ne in Hmid.
              ** destruct (new_record ik raw) as [r0|]; [|discriminate].
                 destruct (step_of raw) as [st|]; [|discriminate].
                 injection Hrow as <-.
                 rewrite lookup_maybe_append_ne, lookup_snoc in Hmid by assumption.
                 rewrite (proj2 (String.eqb_neq k k')) in Hmid by assumption.
                 now destruct (lookup_execution k before).
           ++ rewrite group_steps_cons, row_steps_other; [reflexivity|].
              intros ik' Heq. rewrite Hg in Heq. congruence.
      * injection Hrow as <-. left. exists rec1. split; [exact Hmid|].
        rewrite group_steps_cons, row_steps_other; [reflexivity|].
        intros ik' Heq. rewrite Hg in Heq. discriminate.
    + (* the group is opened by a later row *)
      assert (Hraw : lookup_execution k before = None
                     /\ forall ik', row_group retry raw <> Ok (Some (ik', k))).
      { destruct (row_group retry raw) as [[[ik k']|]|] eqn:Hg'; [| |discriminate].
        - unfold rbind in Hrow.
          destruct (String.eqb_spec k k') as [->|Hne].
          + exfalso.
            destruct (lookup_execution k' before) eqn:Hbefore.
            * destruct (step_of raw) as [[st|]|]; try discriminate;
                injection Hrow as <-; simpl in Hmid.
              -- rewrite lookup_append_step_eq, Hbefore in Hmid. discriminate.
              -- congruence.
            * destruct (new_record ik raw) as [r1|]; [|discriminate].
              destruct (step_of raw) as [[st|]|]; try discriminate;
                injection Hrow as <-; simpl in Hmid.
              -- rewrite lookup_append_step_eq, lookup_snoc, Hbefore,
                   String.eqb_refl in Hmid. discriminate.
              -- rewrite lookup_snoc, Hbefore, String.eqb_refl in Hmid. discriminate.
          + split; [|intros ik' Heq; congruence].
            destruct (lookup_execution k' before) eqn:Hbefore.
            * destruct (step_of raw) as [st|]; [|discriminate].
              injection Hrow as <-.
              now rewrite lookup_maybe_append_ne in Hmid.
            * destruct (new_record ik raw) as [r1|]; [|discriminate].
              destruct (step_of raw) as [st|]; [|discriminate].
              injection Hrow as <-.
              rewrite lookup_maybe_append_ne, lookup_snoc in Hmid by assumption.
              now destruct (lookup_execution k before).
        - injection Hrow as <-. split; [exact Hmid|]. intros ik' Heq. discriminate. }
      destruct Hraw as [Hbefore Hother].
      right. split; [exact Hbefore|].
      exists (raw :: pre), raw2, post, ik2, r0.
      split; [reflexivity|]. split.
      * intros raw' ik' Hin. apply elem_of_cons in Hin as [->|Hin];
          [apply Hother|now apply Hpre].
      * now repeat split.
Qed.

(** C9: the record of a group has the non-step fields of the record that
    the first row of the group opens, and its steps are the step entries
    of the rows of the group in file order; nothing else of the later
    rows reaches the record. *)
Theorem C9_group_fields_come_from_first_row rows executions k rec :
  load_executions_from_csv rows retry = Ok executions ->
  lookup_execution k executions = Some rec ->
  exists pre raw post ik r0,
    rows = pre ++ raw :: post
    /\ (forall raw' ik', raw' ∈ pre -> row_group retry raw' <> Ok (Some (ik', k)))
    /\ row_group retry raw = Ok (Some (ik, k))
    /\ new_record ik raw = Ok r0
    /\ rec = with_steps r0 (group_steps retry k (raw :: post)).
Proof.
  intros Hload Hrec.
  destruct (load_rows_groups rows [] executions Hload k rec Hrec)
    as [(rec0 & Hnone & _) | (_ & H)]; [discriminate|exact H].
Qed.

End Loader.

(** ** The get-or-create resolvers *)

(** Replace a client call in hypothesis [H] by its result: some response
    and a state that differs from the call's by requests and sleeps. *)
Ltac run_client H :=
  let resp := fresh "resp" in
  let n := fresh "n" in
  let evs := fresh "evs" in
  let Hrun := fresh "Hrun" in
  match type of H with
  | context [jira_request ?c ?m ?p ?ps ?b ?r ?s] =>
      destruct (jira_request_run c m p ps b r s) as (resp & n & evs & Hrun & _ & _);
      rewrite Hrun in H; clear Hrun
  | context [zephyr_request ?c ?m ?p ?ps ?b ?r ?s] =>
      destruct (zephyr_request_run c m p ps b r s) as (resp & n & evs & Hrun & _ & _);
      rewrite Hrun in H; clear Hrun
  end.

Lemma version_cached cfg pid name s v :
  unscheduled name = false ->
  versions_map s !! PyStr.strip name = Some v ->
  get_or_create_version_id cfg pid name s = (Ok v, s).
Proof.
  unfold unscheduled. intros Hguard H.
  unfold get_or_create_version_id, bind, gets. now rewrite Hguard, H.
Qed.

Lemma component_cached cfg pk name s v :
  nonblank name = true ->
  components_map s !! PyStr.strip name = Some v ->
  get_or_create_component_id cfg pk name s = (Ok (Some v), s).
Proof.
  intros Hname H. unfold get_or_create_component_id, bind, gets.
  rewrite Hname. cbn [negb]. cbv beta iota zeta. now rewrite H.
Qed.

Lemma cycle_cached cfg pid vid name s v :
  cycle_cache s !! cycle_key name vid = Some v ->
  get_or_create_cycle_id cfg pid vid name s = (Ok v, s).
Proof.
  intros H. unfold get_or_create_cycle_id, bind, gets. unfold cycle_key in H.
  now rewrite H.
Qed.

Lemma folder_cached cfg pid vid cid name s v :
  nonblank name = true ->
  folder_cache s !! folder_key name pid vid cid = Some v ->
  get_or_create_folder_id cfg pid vid cid name s = (Ok v, s).
Proof.
  intros Hname H. unfold get_or_create_folder_id, bind, gets. unfold folder_key in H.
  rewrite Hname. cbn [negb]. cbn beta iota. now rewrite H.
Qed.

(** Whatever identifier a call of a resolver returns is in its cache when
    the call ends. *)
Lemma version_result_is_cached cfg pid name s r s1 :
  get_or_create_version_id cfg pid name s = (Ok r, s1) ->
  r <> -1 ->
  unscheduled name = false /\ versions_map s1 !! PyStr.strip name = Some r.
Proof.
  intros H Hid.
  unfold get_or_create_version_id, bind, gets, lift, try_except, modify, ret in H.
  fold (unscheduled name) in H. destruct (unscheduled name) eqn:Hguard.
  { injection H as <- <-. congruence. }
  split; [reflexivity|].
  destruct (versions_map s !! PyStr.strip name) as [v|] eqn:Hbefore.
  { injection H as <- <-. exact Hbefore. }
  run_client H. crunch; simpl; try congruence. apply lookup_insert_eq.
Qed.

Lemma component_result_is_cached cfg project_key name s v s1 :
  get_or_create_component_id cfg project_key name s = (Ok (Some v), s1) ->
  nonblank name = true /\ components_map s1 !! PyStr.strip name = Some v.
Proof.
  intros H.
  unfold get_or_create_component_id, bind, gets, lift, try_except, modify, ret in H.
  destruct (nonblank name) eqn:Hguard; cbn [negb] in H; [|discriminate].
  split; [reflexivity|].
  destruct (components_map s !! PyStr.strip name) as [c|] eqn:Hbefore.
  { injection H as <- <-. exact Hbefore. }
  run_client H. crunch; simpl; try congruence. apply lookup_insert_eq.
Qed.

Lemma cycle_result_is_cached cfg pid vid name s r s1 :
  get_or_create_cycle_id cfg pid vid name s = (Ok r, s1) ->
  cycle_cache s1 !! cycle_key name vid = Some r.
Proof.
  intros H.
  unfold get_or_create_cycle_id, bind, gets, lift, modify, ret in H.
  unfold cycle_key.
  destruct (cycle_cache s !! _) as [c|] eqn:Hbefore.
  { injection H as <- <-. exact Hbefore. }
  run_client H. crunch; simpl; apply lookup_insert_eq.
Qed.

Lemma folder_result_is_cached cfg pid vid cid name s r s1 :
  nonblank name = true ->
  get_or_create_folder_id cfg pid vid cid name s = (Ok r, s1) ->
  folder_cache s1 !! folder_key name pid vid cid = Some r.
Proof.
  intros Hname H.
  unfold get_or_create_folder_id, bind, gets, lift, modify, ret in H.
  unfold folder_key. rewrite Hname in H. cbn [negb] in H. cbn beta iota in H.
  destruct (folder_cache s !! _) as [c|] eqn:Hbefore.
  { injection H as <- <-. exact Hbefore. }
  crunch; simpl; apply lookup_insert_eq.
Qed.

(** A first call whose creation request is accepted returns the new
    identifier and stores it. *)
Lemma version_creation_success cfg pid name s r s1 j i vid :
  unscheduled name = false ->
  versions_map s !! PyStr.strip name = None ->
  create_version_call cfg pid name s = (Ok (Some r), s1) ->
  resp_in (Some r) [200; 201] = true ->
  resp_json r = Ok j -> Py.item j "id" = Ok i -> Py.int i = Ok vid ->
  get_or_create_version_id cfg pid name s
  = (Ok vid, set_versions_map (<[PyStr.strip name := vid]> (versions_map s1)) s1).
Proof.
  unfold unscheduled, create_version_call, get_or_create_version_id.
  intros -> Hmap Hcall Hok Hj Hi Hvid. cbn beta zeta iota.
  unfold bind at 1, gets. rewrite Hmap. rewrite (bind_Ok _ _ _ _ _ Hcall), Hok.
  unfold try_except, bind, lift, modify, ret. now rewrite Hj, Hi, Hvid.
Qed.

Lemma component_creation_success cfg project_key name s r s1 j i :
  nonblank name = true ->
  components_map s !! PyStr.strip name = None ->
  create_component_call cfg project_key name s = (Ok (Some r), s1) ->
  resp_in (Some r) [200; 201] = true ->
  resp_json r = Ok j -> Py.item j "id" = Ok i ->
  get_or_create_component_id cfg project_key name s
  = (Ok (Some (Py.str i)),
     set_components_map (<[PyStr.strip name := Py.str i]> (components_map s1)) s1).
Proof.
  unfold create_component_call, get_or_create_component_id.
  intros -> Hmap Hcall Hok Hj Hi. cbn [negb]. cbn beta zeta iota.
  unfold bind at 1, gets. rewrite Hmap. rewrite (bind_Ok _ _ _ _ _ Hcall), Hok.
  unfold try_except, bind, lift, modify, ret. now rewrite Hj, Hi.
Qed.

Lemma cycle_creation_success cfg pid vid name s r s1 j a b :
  cycle_cache s !! cycle_key name vid = None ->
  create_cycle_call cfg pid vid name s = (Ok (Some r), s1) ->
  resp_in (Some r) [200; 201] = true ->
  resp_json r = Ok j -> Py.get j "id" JNull = Ok a -> Py.get j "cycleId" JNull = Ok b ->
  get_or_create_cycle_id cfg pid vid name s
  = (Ok (Some (Py.str (Py.or_else a b))),
     set_cycle_cache
       (<[cycle_key name vid := Some (Py.str (Py.or_else a b))]> (cycle_cache s1)) s1).
Proof.
  unfold create_cycle_call, get_or_create_cycle_id, cycle_key.
  intros Hmap Hcall Hok Hj Ha Hb. cbn beta zeta iota. cbn [fst] in Hcall.
  unfold bind at 1, gets. rewrite Hmap. rewrite (bind_Ok _ _ _ _ _ Hcall), Hok.
  unfold bind, lift, modify, ret. now rewrite Hj, Ha, Hb.
Qed.

Lemma folder_creation_success cfg pid vid cid name s s1 listing items r s2 j a b :
  nonblank name = true ->
  folder_cache s !! folder_key name pid vid cid = None ->
  fetch_folders cfg (pid, vid, cid) s = (Ok tt, s1) ->
  folders_cache s1 !! (pid, vid, cid) = Some listing ->
  iterate listing = Ok items ->
  find_folder name items = Ok None ->
  create_folder_call cfg pid vid cid name s1 = (Ok (Some r), s2) ->
  resp_in (Some r) [200; 201] = true ->
  resp_json r = Ok j -> Py.get j "id" JNull = Ok a -> Py.get j "folderId" JNull = Ok b ->
  exists s3,
    get_or_create_folder_id cfg pid vid cid name s
    = (Ok (Some (Py.str (Py.or_else a b))), s3)
    /\ folder_cache s3 !! folder_key name pid vid cid = Some (Some (Py.str (Py.or_else a b))).
Proof.
  unfold create_folder_call, get_or_create_folder_id, folder_key.
  intros -> Hmap Hfetch Hlisting Hitems Hfind Hcall Hok Hj Ha Hb. cbn [negb].
  cbn beta zeta iota.
  unfold bind at 1, gets. rewrite Hmap.
  rewrite (bind_Ok _ _ _ _ _ Hfetch).
  unfold bind at 1, gets. rewrite Hlisting.
  unfold bind at 1, lift. rewrite Hitems.
  unfold bind at 1. rewrite Hfind. cbn [Py.truthy_str].
  assert (Hcreate : exists s3,
             create_folder cfg pid vid cid name None s1
             = (Ok (Some (Py.str (Py.or_else a b))), s3)).
  { unfold create_folder. rewrite (bind_Ok _ _ _ _ _ Hcall), Hok.
    unfold try_except, bind, lift, gets, modify, ret. rewrite Hj, Ha, Hb.
    destruct (folders_cache s2 !! (pid, vid, cid)) as [[]|]; eexists; reflexivity. }
  destruct Hcreate as [s3 Hcreate]. rewrite (bind_Ok _ _ _ _ _ Hcreate).
  eexists. split; [reflexivity|]. simpl. apply lookup_insert_eq.
Qed.

(** C6: whatever identifier the first call of a resolver returns (for the
    version resolver: any value but the sentinel -1) is in the resolver's
    cache under the name (and scope) when the call ends, and a second call
    from that state returns the same value and leaves the state as it is:
    no request of any kind is made.  A first call that finds nothing cached
    and whose creation request is answered with 200 or 201 and an
    identifier is such a call: it returns the new identifier and stores
    it. *)
Theorem C6_second_call_returns_cached_value cfg :
  (forall pid name s r s1,
      get_or_create_version_id cfg pid name s = (Ok r, s1) ->
      r <> -1 ->
      versions_map s1 !! PyStr.strip name = Some r
      /\ get_or_create_version_id cfg pid name s1 = (Ok r, s1))
  /\ (forall project_key name s v s1,
        get_or_create_component_id cfg project_key name s = (Ok (Some v), s1) ->
        components_map s1 !! PyStr.strip name = Some v
        /\ get_or_create_component_id cfg project_key name s1 = (Ok (Some v), s1))
  /\ (forall pid vid name s r s1,
        get_or_create_cycle_id cfg pid vid name s = (Ok r, s1) ->
        cycle_cache s1 !! cycle_key name vid = Some r
        /\ get_or_create_cycle_id cfg pid vid name s1 = (Ok r, s1))
  /\ (forall pid vid cid name s r s1,
        get_or_create_folder_id cfg pid vid cid name s = (Ok r, s1) ->
        (nonblank name = true -> folder_cache s1 !! folder_key name pid vid cid = Some r)
        /\ get_or_create_folder_id cfg pid vid cid name s1 = (Ok r, s1))
  /\ (forall pid name s r s1 j i vid,
        unscheduled name = false ->
        versions_map s !! PyStr.strip name = None ->
        create_version_call cfg pid name s = (Ok (Some r), s1) ->
        resp_in (Some r) [200; 201] = true ->
        resp_json r = Ok j -> Py.item j "id" = Ok i -> Py.int i = Ok vid ->
        get_or_create_version_id cfg pid name s
        = (Ok vid, set_versions_map (<[PyStr.strip name := vid]> (versions_map s1)) s1))
  /\ (forall project_key name s r s1 j i,
        nonblank name = true ->
        components_map s !! PyStr.strip name = None ->
        create_component_call cfg project_key name s = (Ok (Some r), s1) ->
        resp_in (Some r) [200; 201] = true ->
        resp_json r = Ok j -> Py.item j "id" = Ok i ->
        get_or_create_component_id cfg project_key name s
        = (Ok (Some (Py.str i)),
           set_components_map (<[PyStr.strip name := Py.str i]> (components_map s1)) s1))
  /\ (forall pid vid name s r s1 j a b,
        cycle_cache s !! cycle_key name vid = None ->
        create_cycle_call cfg pid vid name s = (Ok (Some r), s1) ->
        resp_in (Some r) [200; 201] = true ->
        resp_json r = Ok j ->
        Py.get j "id" JNull = Ok a -> Py.get j "cycleId" JNull = Ok b ->
        get_or_create_cycle_id cfg pid vid name s
        = (Ok (Some (Py.str (Py.or_else a b))),
           set_cycle_cache
             (<[cycle_key name vid := Some (Py.str (Py.or_else a b))]> (cycle_cache s1))
             s1))
  /\ (forall pid vid cid name s s1 listing items r s2 j a b,
        nonblank name = true ->
        folder_cache s !! folder_key name pid vid cid = None ->
        fetch_folders cfg (pid, vid, cid) s = (Ok tt, s1) ->
        folders_cache s1 !! (pid, vid, cid) = Some listing ->
        iterate listing = Ok items ->
        find_folder name items = Ok None ->
        create_folder_call cfg pid vid cid name s1 = (Ok (Some r), s2) ->
        resp_in (Some r) [200; 201] = true ->
        resp_json r = Ok j ->
        Py.get j "id" JNull = Ok a -> Py.get j "folderId" JNull = Ok b ->
        exists s3,
          get_or_create_folder_id cfg pid vid cid name s
          = (Ok (Some (Py.str (Py.or_else a b))), s3)
          /\ folder_cache s3 !! folder_key name pid vid cid
             = Some (Some (Py.str (Py.or_else a b)))).
Proof.
  repeat apply conj.
  - intros pid name s r s1 H Hid.
    destruct (version_result_is_cached cfg pid name s r s1 H Hid) as [Hguard Hentry].
    split; [exact Hentry|now apply version_cached].
  - intros project_key name s v s1 H.
    destruct (component_result_is_cached cfg project_key name s v s1 H) as [Hguard Hentry].
    split; [exact Hentry|now apply component_cached].
  - intros pid vid name s r s1 H.
    pose proof (cycle_result_is_cached cfg pid vid name s r s1 H) as Hentry.
    split; [exact Hentry|now apply cycle_cached].
  - intros pid vid cid name s r s1 H.
    destruct (nonblank name) eqn:Hname.
    + pose proof (folder_result_is_cached cfg pid vid cid name s r s1 Hname H) as Hentry.
      split; [intros _; exact Hentry|now apply folder_cached].
    + split; [discriminate|].
      unfold get_or_create_folder_id in *. rewrite Hname in *. cbn [negb] in *.
      now injection H as <- <-.
  - intros. eapply version_creation_success; eauto.
  - intros. eapply component_creation_success; eauto.
  - intros. eapply cycle_creation_success; eauto.
  - intros. eapply folder_creation_success; eauto.
Qed.

Lemma version_unscheduled cfg pid name s :
  unscheduled name = true ->
  get_or_create_version_id cfg pid name s = (Ok (-1), s).
Proof.
  unfold unscheduled, get_or_create_version_id. now intros ->.
Qed.

Lemma version_creation_failure cfg pid name s resp s1 :
  unscheduled name = false ->
  versions_map s !! PyStr.strip name = None ->
  create_version_call cfg pid name s = (Ok resp, s1) ->
  resp_in resp [200; 201] = false ->
  get_or_create_version_id cfg pid name s = (Ok (-1), s1).
Proof.
  unfold unscheduled, create_version_call, get_or_create_version_id.
  intros -> Hmap Hcall Hfail. cbn beta zeta iota.
  unfold bind at 1, gets. rewrite Hmap. rewrite (bind_Ok _ _ _ _ _ Hcall).
  destruct resp as [r|]; [|reflexivity]. now rewrite Hfail.
Qed.

Lemma component_creation_failure cfg project_key name s resp s1 :
  nonblank name = true ->
  components_map s !! PyStr.strip name = None ->
  create_component_call cfg project_key name s = (Ok resp, s1) ->
  resp_in resp [200; 201] = false ->
  get_or_create_component_id cfg project_key name s = (Ok None, s1).
Proof.
  unfold create_component_call, get_or_create_component_id.
  intros -> Hmap Hcall Hfail. cbn [negb]. cbn beta zeta iota.
  unfold bind at 1, gets. rewrite Hmap. rewrite (bind_Ok _ _ _ _ _ Hcall).
  destruct resp as [r|]; [|reflexivity]. now rewrite Hfail.
Qed.

Lemma cycle_creation_failure cfg pid vid name s resp s1 :
  cycle_cache s !! cycle_key name vid = None ->
  create_cycle_call cfg pid vid name s = (Ok resp, s1) ->
  resp_in resp [200; 201] = false ->
  get_or_create_cycle_id cfg pid vid name s
  = (Ok None, set_cycle_cache (<[cycle_key name vid := None]> (cycle_cache s1)) s1).
Proof.
  unfold create_cycle_call, get_or_create_cycle_id, cycle_key.
  intros Hmap Hcall Hfail. cbn beta zeta iota. cbn [fst] in Hcall.
  unfold bind at 1, gets. rewrite Hmap. rewrite (bind_Ok _ _ _ _ _ Hcall).
  destruct resp as [r|]; [|reflexivity]. now rewrite Hfail.
Qed.

Lemma folder_creation_failure cfg pid vid cid name s s1 listing items resp s2 :
  nonblank name = true ->
  folder_cache s !! folder_key name pid vid cid = None ->
  fetch_folders cfg (pid, vid, cid) s = (Ok tt, s1) ->
  folders_cache s1 !! (pid, vid, cid) = Some listing ->
  iterate listing = Ok items ->
  find_folder name items = Ok None ->
  create_folder_call cfg pid vid cid name s1 = (Ok resp, s2) ->
  resp_in resp [200; 201] = false ->
  get_or_create_folder_id cfg pid vid cid name s
  = (Ok None,
     set_folder_cache (<[folder_key name pid vid cid := None]> (folder_cache s2)) s2).
Proof.
  unfold create_folder_call, get_or_create_folder_id, folder_key.
  intros -> Hmap Hfetch Hlisting Hitems Hfind Hcall Hfail. cbn [negb]. cbn beta zeta iota.
  unfold bind at 1, gets. rewrite Hmap.
  rewrite (bind_Ok _ _ _ _ _ Hfetch).
  unfold bind at 1, gets. rewrite Hlisting.
  unfold bind at 1, lift. rewrite Hitems.
  unfold bind at 1. rewrite Hfind. cbn [Py.truthy_str].
  assert (Hcreate : create_folder cfg pid vid cid name None s1 = (Ok None, s2)).
  { unfold create_folder. rewrite (bind_Ok _ _ _ _ _ Hcall).
    destruct resp as [r|]; [|reflexivity]. now rewrite Hfail. }
  rewrite (bind_Ok _ _ _ _ _ Hcreate). reflexivity.
Qed.

(** C5 (amended): when the creation call fails (no response, or a status
    other than 200 and 201) the component and cycle resolvers return no
    identifier, the folder resolver returns none when the listing has no
    folder of that name, and the version resolver returns the sentinel -1;
    none of them raises.  An empty, blank or "unscheduled" version name,
    in any case of letters, gives -1 and the state is left as it is: no
    request is made. *)
Theorem C5_creation_failure_results cfg :
  (forall project_key name s resp s1,
      nonblank name = true ->
      components_map s !! PyStr.strip name = None ->
      create_component_call cfg project_key name s = (Ok resp, s1) ->
      resp_in resp [200; 201] = false ->
      get_or_create_component_id cfg project_key name s = (Ok None, s1))
  /\ (forall pid vid name s resp s1,
        cycle_cache s !! cycle_key name vid = None ->
        create_cycle_call cfg pid vid name s = (Ok resp, s1) ->
        resp_in resp [200; 201] = false ->
        get_or_create_cycle_id cfg pid vid name s
        = (Ok None, set_cycle_cache (<[cycle_key name vid := None]> (cycle_cache s1)) s1))
  /\ (forall pid vid cid name s s1 listing items resp s2,
        nonblank name = true ->
        folder_cache s !! folder_key name pid vid cid = None ->
        fetch_folders cfg (pid, vid, cid) s = (Ok tt, s1) ->
        folders_cache s1 !! (pid, vid, cid) = Some listing ->
        iterate listing = Ok items ->
        find_folder name items = Ok None ->
        create_folder_call cfg pid vid cid name s1 = (Ok resp, s2) ->
        resp_in resp [200; 201] = false ->
        get_or_create_folder_id cfg pid vid cid name s
        = (Ok None,
           set_folder_cache (<[folder_key name pid vid cid := None]> (folder_cache s2)) s2))
  /\ (forall pid name s resp s1,
        unscheduled name = false ->
        versions_map s !! PyStr.strip name = None ->
        create_version_call cfg pid name s = (Ok resp, s1) ->
        resp_in resp [200; 201] = false ->
        get_or_create_version_id cfg pid name s = (Ok (-1), s1))
  /\ (forall pid name s,
        name = "" \/ PyStr.strip name = "" \/ PyStr.lower name = "unscheduled" ->
        get_or_create_version_id cfg pid name s = (Ok (-1), s)).
Proof.
  split; [|split; [|split; [|split]]]; intros.
  - eapply component_creation_failure; eauto.
  - eapply cycle_creation_failure; eauto.
  - eapply folder_creation_failure; eauto.
  - eapply version_creation_failure; eauto.
  - apply version_unscheduled. unfold unscheduled, nonblank.
    destruct H as [-> | [-> | ->]].
    + reflexivity.
    + cbn [PyStr.is_empty negb]. now rewrite andb_false_r.
    + apply orb_true_r.
Qed.

(** ** What the run does to the cycle cache *)

Lemma preserves_ret {A} P (a : A) : preserves P (ret a).
Proof. intros s r s' [= <- <-]. auto. Qed.

Lemma preserves_lift {A} P (x : res A) : preserves P (lift x).
Proof. intros s r s' [= <- <-]. auto. Qed.

Lemma preserves_gets {A} P (f : State -> A) : preserves P (gets f).
Proof. intros s r s' [= <- <-]. auto. Qed.

Lemma preserves_bind {A B} P (m : M A) (k : A -> M B) :
  preserves P m -> (forall a, preserves P (k a)) -> preserves P (bind m k).
Proof.
  intros Hm Hk s r s' H HP. unfold bind in H.
  destruct (m s) as [[a|e] s0] eqn:Hms.
  - eapply Hk; eauto.
  - injection H as <- <-. eauto.
Qed.

Lemma preserves_try_except {A} P (m h : M A) :
  preserves P m -> preserves P h -> preserves P (try_except m h).
Proof.
  intros Hm Hh s r s' H HP. unfold try_except in H.
  destruct (m s) as [[a|e] s0] eqn:Hms.
  - injection H as <- <-. eauto.
  - eapply Hh; eauto.
Qed.

Lemma preserves_modify P (f : State -> State) :
  cycle_only P -> (forall s, cycle_cache (f s) = cycle_cache s) -> preserves P (modify f).
Proof. intros HP Hf s r s' [= <- <-]. apply HP, Hf. Qed.

Lemma preserves_sleep P q : cycle_only P -> preserves P (time_sleep q).
Proof. intros HP s r s' [= <- <-]. now apply HP. Qed.

Lemma preserves_client P req todo m :
  cycle_only P -> client_run req todo m -> preserves P m.
Proof.
  intros HP Hrun s r s' H. destruct (Hrun s) as (resp & n & evs & Hm & _).
  rewrite Hm in H. injection H as <- <-. now apply HP.
Qed.

Lemma preserves_jira_request P cfg method path params body max_retries :
  cycle_only P -> preserves P (jira_request cfg method path params body max_retries).
Proof. intros HP. eapply preserves_client; [exact HP|apply jira_request_run]. Qed.

Lemma preserves_zephyr_request P cfg method path params body max_retries :
  cycle_only P -> preserves P (zephyr_request cfg method path params body max_retries).
Proof. intros HP. eapply preserves_client; [exact HP|apply zephyr_request_run]. Qed.

Create HintDb frame discriminated.
#[export] Hint Resolve preserves_jira_request preserves_zephyr_request preserves_sleep : frame.

Ltac frame_step :=
  lazymatch goal with
  | |- preserves _ (ret _) => apply preserves_ret
  | |- preserves _ (lift _) => apply preserves_lift
  | |- preserves _ (gets _) => apply preserves_gets
  | |- preserves _ (bind _ _) => apply preserves_bind; [|intros ?]
  | |- preserves _ (try_except _ _) => apply preserves_try_except
  | |- preserves _ (modify _) =>
      apply preserves_modify; [solve [eauto with frame] | intros ?; reflexivity]
  | |- preserves _ (match ?x with _ => _ end) => destruct x
  | |- preserves _ (let _ := _ in _) => cbv zeta
  | |- preserves _ _ => solve [eauto with frame]
  end.

Ltac frame := repeat frame_step.

Section Frame.

Variable P : State -> Prop.
Hypothesis P_cycle_only : cycle_only P.
Variable cfg : Config.

Local Hint Resolve P_cycle_only : frame.

Lemma preserves_get_issue_id k : preserves P (get_issue_id cfg k).
Proof. unfold get_issue_id. frame. Qed.

Lemma preserves_get_or_create_component_id pk name :
  preserves P (get_or_create_component_id cfg pk name).
Proof. unfold get_or_create_component_id. frame. Qed.

Lemma preserves_update_issue_component k cid :
  preserves P (update_issue_component cfg k cid).
Proof. unfold update_issue_component. frame. Qed.

Lemma preserves_get_existing_test_steps pid iid :
  preserves P (get_existing_test_steps cfg pid iid).
Proof. unfold get_existing_test_steps. frame. Qed.

Lemma preserves_create_test_step pid iid pos a b c :
  preserves P (create_test_step cfg pid iid pos a b c).
Proof. unfold create_test_step. frame. Qed.

Lemma preserves_create_test_steps pid iid l : forall idx,
  preserves P (create_test_steps cfg pid iid idx l).
Proof.
  induction l as [|st l IH]; intros idx; simpl.
  - apply preserves_ret.
  - apply preserves_bind; [apply preserves_create_test_step|intros _; apply IH].
Qed.

Local Hint Resolve preserves_get_existing_test_steps preserves_create_test_steps : frame.

Lemma preserves_sync_steps_for_issue pid iid k l :
  preserves P (sync_steps_for_issue cfg pid iid k l).
Proof. unfold sync_steps_for_issue. frame. Qed.

Lemma preserves_search_users original l : preserves P (search_users original l).
Proof.
  induction l as [|u l IH]; simpl; frame.
Qed.

Local Hint Resolve preserves_search_users : frame.

Lemma preserves_get_user_account_id name um users :
  preserves P (get_user_account_id cfg name um users).
Proof. unfold get_user_account_id. frame. Qed.

Lemma preserves_get_or_create_version_id pid name :
  preserves P (get_or_create_version_id cfg pid name).
Proof. unfold get_or_create_version_id. frame. Qed.

Lemma preserves_fetch_folders lk : preserves P (fetch_folders cfg lk).
Proof. unfold fetch_folders. frame. Qed.

Lemma preserves_create_folder pid vid cid name found :
  preserves P (create_folder cfg pid vid cid name found).
Proof. unfold create_folder. frame. Qed.

Local Hint Resolve preserves_fetch_folders preserves_create_folder : frame.

Lemma preserves_get_or_create_folder_id pid vid cid name :
  preserves P (get_or_create_folder_id cfg pid vid cid name).
Proof. unfold get_or_create_folder_id. frame. Qed.

Lemma preserves_parse_date_to_millis d : preserves P (parse_date_to_millis d).
Proof. unfold parse_date_to_millis. frame. Qed.

Local Hint Resolve preserves_parse_date_to_millis : frame.

Lemma preserves_create_execution pid vid cid fid iid :
  preserves P (create_execution cfg pid vid cid fid iid).
Proof. unfold create_execution. frame. Qed.

Lemma preserves_add_execution_comment eid c :
  preserves P (add_execution_comment cfg eid c).
Proof. unfold add_execution_comment. frame. Qed.

Lemma preserves_delete_execution eid iid : preserves P (delete_execution cfg eid iid).
Proof. unfold delete_execution. frame. Qed.

Lemma preserves_execute_execution eid iid pid vid cid d eb at_ :
  preserves P (execute_execution cfg eid iid pid vid cid d eb at_).
Proof. unfold execute_execution. frame. Qed.

End Frame.

Lemma cycle_entry_cycle_only k v : cycle_only (cycle_entry k v).
Proof. intros s s' H. unfold cycle_entry. now rewrite H. Qed.

(** The cycle resolver writes only under a key that is not in the cache:
    an entry, once made, stays. *)
Lemma preserves_get_or_create_cycle_id k v cfg pid vid name :
  preserves (cycle_entry k v) (get_or_create_cycle_id cfg pid vid name).
Proof.
  intros s r s' H Hk. unfold cycle_entry in *.
  unfold get_or_create_cycle_id, bind, gets, lift, modify, ret in H.
  destruct (cycle_cache s !! cycle_key name vid) as [c|] eqn:Hkey;
    unfold cycle_key in Hkey; rewrite Hkey in H.
  - now injection H as <- <-.
  - assert (Hne : cycle_key name vid <> k) by (unfold cycle_key; congruence).
    unfold cycle_key in Hne. run_client H.
    crunch; simpl; rewrite ?lookup_insert_ne by assumption; assumption.
Qed.

#[export] Hint Resolve cycle_entry_cycle_only preserves_get_or_create_cycle_id
  preserves_get_issue_id preserves_get_or_create_component_id
  preserves_update_issue_component preserves_sync_steps_for_issue
  preserves_get_user_account_id preserves_get_or_create_version_id
  preserves_get_or_create_folder_id preserves_create_execution
  preserves_add_execution_comment preserves_delete_execution
  preserves_execute_execution : frame.

Lemma preserves_resolve_record k v cfg su d t :
  preserves (cycle_entry k v) (resolve_record cfg su d t).
Proof. unfold resolve_record. frame. Qed.

Lemma preserves_create_and_execute k v cfg su d t r :
  preserves (cycle_entry k v) (create_and_execute cfg su d t r).
Proof. unfold create_and_execute. frame. Qed.

Lemma preserves_migrate_record k v cfg su d t :
  preserves (cycle_entry k v) (migrate_record cfg su d t).
Proof.
  unfold migrate_record. apply preserves_bind; [apply preserves_resolve_record|].
  intros [t'|r]; [apply preserves_ret|apply preserves_create_and_execute].
Qed.

Lemma operation_keeps_cycle_entry cfg su k v A (m : M A) :
  operation cfg su A m -> preserves (cycle_entry k v) m.
Proof.
  intros Hop. destruct Hop; eauto with frame.
  - apply preserves_modify; [apply cycle_entry_cycle_only|reflexivity].
  - apply preserves_migrate_record.
Qed.

Lemma later_keeps_cycle_entry cfg su k v s s' :
  later cfg su s s' -> cycle_entry k v s -> cycle_entry k v s'.
Proof.
  induction 1 as [s|A m s r s' s'' Hop Hm _ IH]; [auto|].
  intros Hk. apply IH. eapply operation_keeps_cycle_entry; eauto.
Qed.

(** A call of the cycle resolver that returns nothing leaves the absent
    outcome in the cache under its key. *)
Lemma cycle_absent_is_cached cfg pid vid name s s1 :
  get_or_create_cycle_id cfg pid vid name s = (Ok None, s1) ->
  cycle_entry (cycle_key name vid) None s1.
Proof.
  intros H. unfold cycle_entry.
  unfold get_or_create_cycle_id, bind, gets, lift, modify, ret in H.
  destruct (cycle_cache s !! cycle_key name vid) as [c|] eqn:Hkey;
    unfold cycle_key in *; rewrite Hkey in H.
  - injection H as -> <-. exact Hkey.
  - run_client H. crunch; simpl; apply lookup_insert_eq.
Qed.


(* ===================================================================== *)
(** * Concrete runs                                                       *)
(* ===================================================================== *)

Lemma C3_jira_connection_error_witness :
  jira_request Scenario.cfg "GET" "/rest/api/2/issue/GCTEST-94808" [("fields", JStr "id")]
    None default_retries (initial Offline.world)
  = (Ok None,
     log (EvRequest (issue_request Scenario.cfg "GCTEST-94808")) 1 (initial Offline.world)).
Proof.
  apply (C3_jira_connection_error_not_retried Scenario.cfg "GET"
           "/rest/api/2/issue/GCTEST-94808" [("fields", JStr "id")] None
           (initial Offline.world)).
  reflexivity.
Defined.

(** The same refusal met by the Zephyr client: three requests, with sleeps
    of 2 and 4 seconds between them. *)
Example zephyr_connection_error_is_retried :
  let req := mkRequest "DELETE" "https://zephyr/public/rest/api/1.0/execution/e-1"
               [("issueId", JStr "10001")] None in
  delete_execution Scenario.cfg "e-1" (JStr "10001") (initial Offline.world)
  = (Ok false,
     log (EvRequest req) 1
       (log (EvSleep (inject_Z 4)) 0
          (log (EvRequest req) 1
             (log (EvSleep (inject_Z 2)) 0
                (log (EvRequest req) 1 (initial Offline.world)))))).
Proof. reflexivity. Qed.

Lemma C2_issue_not_found_witness :
  migrate_record Scenario.cfg Scenario.setup sample_record (mkTally 0 0 [])
    IssueMissing.start
  = (Ok (mkTally 0 1 [mkFailureItem sample_record "Issue not found" None]),
     IssueMissing.after_lookup)
  /\ trace IssueMissing.after_lookup
     = [EvRequest (issue_request Scenario.cfg "GCTEST-94808")].
Proof.
  split.
  - apply (C2_issue_not_found_short_circuits Scenario.cfg Scenario.setup sample_record
             (mkTally 0 0 []) IssueMissing.start IssueMissing.after_lookup).
    reflexivity.
  - reflexivity.
Defined.

Lemma C4_continue_skips_delay_witness :
  migrate_record Scenario.cfg Scenario.setup sample_record (mkTally 0 0 [])
    IssueMissing.start
  = (Ok (mkTally 0 1 [mkFailureItem sample_record "Issue not found" None]),
     IssueMissing.after_lookup)
  /\ migrate_record Scenario.cfg Scenario.setup sample_record (mkTally 0 0 [])
       CreateFails.start
     = (Ok (mkTally 0 1 [mkFailureItem sample_record "Could not create execution" None]),
        CreateFails.after_create)
  /\ Forall (fun e => forall q, e <> EvSleep q) (trace IssueMissing.after_lookup)
  /\ Forall (fun e => forall q, e <> EvSleep q) (trace CreateFails.after_create).
Proof.
  pose proof (C4_continue_skips_rate_limit_delay Scenario.cfg Scenario.setup sample_record
                (mkTally 0 0 [])) as (Hissue & _ & Hcreate).
  split; [|split; [|split]].
  - apply (Hissue IssueMissing.start JNull IssueMissing.after_lookup); reflexivity.
  - apply (Hcreate CreateFails.start CreateFails.refs (snd CreateFails.resolved)
             CreateFails.after_create); reflexivity.
  - repeat constructor; discriminate.
  - repeat constructor; discriminate.
Defined.

Lemma C1_failed_status_update_witness :
  exists deleted s4 evs,
    delete_execution Scenario.cfg "e-1" (JStr "10001") ExecuteFails.after_execute
    = (Ok deleted, s4)
    /\ trace s4
       = trace ExecuteFails.after_execute
         ++ EvRequest (delete_request Scenario.cfg "e-1" (JStr "10001")) :: evs
    /\ migrate_record Scenario.cfg Scenario.setup sample_record (mkTally 0 0 [])
         ExecuteFails.start
       = (Ok (mkTally 0 (0 + 1)
                ([] ++ [mkFailureItem sample_record "Could not execute execution (deleted)"
                          (Some "e-1")])),
          log (EvSleep (rate_limit_delay Scenario.cfg)) 0 s4).
Proof.
  apply (C1_failed_status_update_is_compensated Scenario.cfg Scenario.setup sample_record
           (mkTally 0 0 []) ExecuteFails.start ExecuteFails.refs ExecuteFails.resolved
           "e-1" ExecuteFails.after_create ExecuteFails.after_execute); reflexivity.
Defined.

(** C5 (as stated, fails): the version resolver, whose creation call gets
    a 500, returns the integer -1 and not an absent identifier. *)
Lemma C5_version_creation_failure_counterexample :
  unscheduled "Release 1" = false
  /\ versions_map CreationRefused.start !! "Release 1" = None
  /\ fst (create_version_call Scenario.cfg 10 "Release 1" CreationRefused.start)
     = Ok (Some (mkResponse 500 (Some (JDict []))))
  /\ fst (get_or_create_version_id Scenario.cfg 10 "Release 1" CreationRefused.start)
     = Ok (-1)
  /\ ~ returns_absent JNum (get_or_create_version_id Scenario.cfg 10 "Release 1")
         CreationRefused.start.
Proof.
  repeat split; try reflexivity.
  intros (a & s' & _ & Ha). discriminate Ha.
Qed.

Lemma C5_creation_failure_witness :
  get_or_create_component_id Scenario.cfg "GCTEST" "Billing" CreationRefused.start
  = (Ok None, CreationRefused.after_component)
  /\ get_or_create_cycle_id Scenario.cfg 10 (-1) "Sprint1" CreationRefused.start
     = (Ok None,
        set_cycle_cache (<[cycle_key "Sprint1" (-1) := None]>
                           (cycle_cache CreationRefused.after_cycle))
          CreationRefused.after_cycle)
  /\ get_or_create_folder_id Scenario.cfg 10 (-1) "c-1" "Smoke" CreationRefused.start
     = (Ok None,
        set_folder_cache (<[folder_key "Smoke" 10 (-1) "c-1" := None]>
                            (folder_cache CreationRefused.after_folder))
          CreationRefused.after_folder)
  /\ get_or_create_version_id Scenario.cfg 10 "Release 1" CreationRefused.start
     = (Ok (-1), CreationRefused.after_version)
  /\ get_or_create_version_id Scenario.cfg 10 "UnScheduled" CreationRefused.start
     = (Ok (-1), CreationRefused.start).
Proof.
  pose proof (C5_creation_failure_results Scenario.cfg)
    as (Hcomponent & Hcycle & Hfolder & Hversion & Hunscheduled).
  split; [|split; [|split; [|split]]].
  - apply (Hcomponent "GCTEST" "Billing" CreationRefused.start
             (Some (mkResponse 500 (Some (JDict []))))); reflexivity.
  - apply (Hcycle 10 (-1) "Sprint1" CreationRefused.start
             (Some (mkResponse 500 (Some (JDict []))))); reflexivity.
  - apply (Hfolder 10 (-1) "c-1" "Smoke" CreationRefused.start
             CreationRefused.after_listing (JList []) []
             (Some (mkResponse 500 (Some (JDict []))))); reflexivity.
  - apply (Hversion 10 "Release 1" CreationRefused.start
             (Some (mkResponse 500 (Some (JDict []))))); reflexivity.
  - apply (Hunscheduled 10 "UnScheduled" CreationRefused.start).
    right; right; reflexivity.
Defined.

Example cycle_resolver_raises_on_undecodable_reply :
  fst (get_or_create_cycle_id Scenario.cfg 10 (-1) "Sprint1" CycleReplyUndecodable.start)
  = Raise JSONDecodeError
  /\ fst (get_or_create_version_id Scenario.cfg 10 "Release 1" CycleReplyUndecodable.start)
     = Ok (-1)
  /\ fst (get_or_create_component_id Scenario.cfg "GCTEST" "Billing"
            CycleReplyUndecodable.start)
     = Ok None.
Proof. repeat split. Qed.

Lemma C6_second_call_witness :
  (get_or_create_version_id Scenario.cfg 10 "Release 1" CreationAccepted.start
   = (Ok 501, CreationAccepted.after_version)
   /\ versions_map CreationAccepted.after_version !! "Release 1" = Some 501
   /\ get_or_create_version_id Scenario.cfg 10 "Release 1" CreationAccepted.after_version
      = (Ok 501, CreationAccepted.after_version))
  /\ (get_or_create_component_id Scenario.cfg "GCTEST" "Billing" CreationAccepted.start
      = (Ok (Some "601"), CreationAccepted.after_component)
      /\ components_map CreationAccepted.after_component !! "Billing" = Some "601"
      /\ get_or_create_component_id Scenario.cfg "GCTEST" "Billing"
           CreationAccepted.after_component
         = (Ok (Some "601"), CreationAccepted.after_component))
  /\ (get_or_create_cycle_id Scenario.cfg 10 (-1) "Sprint1" CreationAccepted.start
      = (Ok (Some "c-1"), CreationAccepted.after_cycle)
      /\ cycle_cache CreationAccepted.after_cycle !! ("Sprint1", -1) = Some (Some "c-1")
      /\ get_or_create_cycle_id Scenario.cfg 10 (-1) "Sprint1" CreationAccepted.after_cycle
         = (Ok (Some "c-1"), CreationAccepted.after_cycle))
  /\ ((exists s3,
         get_or_create_folder_id Scenario.cfg 10 (-1) "c-1" "Smoke" CreationAccepted.start
         = (Ok (Some "f-1"), s3)
         /\ folder_cache s3 !! ("Smoke", 10, -1, "c-1") = Some (Some "f-1"))
      /\ folder_cache CreationAccepted.after_folder !! ("Smoke", 10, -1, "c-1")
         = Some (Some "f-1")
      /\ get_or_create_folder_id Scenario.cfg 10 (-1) "c-1" "Smoke"
           CreationAccepted.after_folder
         = (Ok (Some "f-1"), CreationAccepted.after_folder)).
Proof.
  pose proof (C6_second_call_returns_cached_value Scenario.cfg)
    as (Hversion & Hcomponent & Hcycle & Hfolder
        & Hnew_version & Hnew_component & Hnew_cycle & Hnew_folder).
  assert (Hv : get_or_create_version_id Scenario.cfg 10 "Release 1" CreationAccepted.start
               = (Ok 501, CreationAccepted.after_version)).
  { apply (Hnew_version 10 "Release 1" CreationAccepted.start
             (mkResponse 201 (Some (JDict [("id", JStr "501")])))
             (snd (create_version_call Scenario.cfg 10 "Release 1" CreationAccepted.start))
             (JDict [("id", JStr "501")]) (JStr "501") 501); reflexivity. }
  assert (Hc : get_or_create_component_id Scenario.cfg "GCTEST" "Billing"
                 CreationAccepted.start
               = (Ok (Some "601"), CreationAccepted.after_component)).
  { apply (Hnew_component "GCTEST" "Billing" CreationAccepted.start
             (mkResponse 201 (Some (JDict [("id", JStr "601")])))
             (snd (create_component_call Scenario.cfg "GCTEST" "Billing"
                     CreationAccepted.start))
             (JDict [("id", JStr "601")]) (JStr "601")); reflexivity. }
  assert (Hy : get_or_create_cycle_id Scenario.cfg 10 (-1) "Sprint1" CreationAccepted.start
               = (Ok (Some "c-1"), CreationAccepted.after_cycle)).
  { apply (Hnew_cycle 10 (-1) "Sprint1" CreationAccepted.start
             (mkResponse 200 (Some (JDict [("id", JStr "c-1")])))
             (snd (create_cycle_call Scenario.cfg 10 (-1) "Sprint1" CreationAccepted.start))
             (JDict [("id", JStr "c-1")]) (JStr "c-1") JNull); reflexivity. }
  split; [|split; [|split]].
  - split; [exact Hv|]. apply (Hversion 10 "Release 1" CreationAccepted.start 501);
      [exact Hv|discriminate].
  - split; [exact Hc|]. apply (Hcomponent "GCTEST" "Billing" CreationAccepted.start "601").
    exact Hc.
  - split; [exact Hy|].
    apply (Hcycle 10 (-1) "Sprint1" CreationAccepted.start (Some "c-1")). exact Hy.
  - split.
    { apply (Hnew_folder 10 (-1) "c-1" "Smoke" CreationAccepted.start
               (snd (fetch_folders Scenario.cfg (10, -1, "c-1") CreationAccepted.start))
               (JList []) []
               (mkResponse 200 (Some (JDict [("id", JStr "f-1")])))
               (snd (create_folder_call Scenario.cfg 10 (-1) "c-1" "Smoke"
                       (snd (fetch_folders Scenario.cfg (10, -1, "c-1")
                               CreationAccepted.start))))
               (JDict [("id", JStr "f-1")]) (JStr "f-1") JNull); reflexivity. }
    destruct (Hfolder 10 (-1) "c-1" "Smoke" CreationAccepted.start (Some "f-1")
                CreationAccepted.after_folder) as [Hentry Hsecond]; [reflexivity|].
    split; [apply Hentry; reflexivity|exact Hsecond].
Defined.

Lemma C7_unknown_status_witness : status_key "skipped" = -1.
Proof.
  apply (proj1 (proj2 (proj2 (proj2 (proj2 (proj2 C7_status_table_and_scenario)))))).
  intros Hin. apply (bool_decide_pack _) in Hin. exact Hin.
Defined.


(** After the refusal the next record of the same cycle is failed without
    a second creation request: the run sends the POST for the cycle once. *)
Example cycle_creation_is_not_retried :
  let run := migrate_executions Scenario.cfg Scenario.setup
               [("a", sample_record); ("b", sample_record)]
               (initial (mkWorld
                           (fun n r => if String.eqb (method r) "GET"
                                       then reply 200 [("id", JStr "10001")]
                                       else reply 500 [])
                           (fun _ => None))) in
  fst run = Ok (mkTally 0 2 [mkFailureItem sample_record "Could not create cycle" None;
                             mkFailureItem sample_record "Could not create cycle" None])
  /\ length (List.filter (fun e => match e with
                              | EvRequest r => String.eqb (method r) "POST"
                              | _ => false
                              end) (trace (snd run))) = 1%nat.
Proof. split; reflexivity. Qed.

Example rows_are_grouped :
  load_executions_from_csv [Rows.first; Rows.outsider; Rows.second] FAILED_ISSUE_KEYS
  = Ok [("E1", Rows.merged)].
Proof. reflexivity. Qed.

Lemma C8_outsider_row_witness :
  load_row FAILED_ISSUE_KEYS [("E1", Rows.merged)] Rows.outsider = Ok [("E1", Rows.merged)]
  /\ load_executions_from_csv ([Rows.first] ++ Rows.outsider :: [Rows.second])
       FAILED_ISSUE_KEYS
     = load_executions_from_csv ([Rows.first] ++ [Rows.second]) FAILED_ISSUE_KEYS.
Proof.
  assert (Hout : "GCTEST-1" = "" \/ "GCTEST-1" ∉ FAILED_ISSUE_KEYS).
  { right. intros Hin. apply (bool_decide_pack _) in Hin. exact Hin. }
  pose proof (C8_rows_outside_allow_list_are_excluded FAILED_ISSUE_KEYS Rows.outsider
                "GCTEST-1" eq_refl Hout) as [Hrow Hfile].
  split; [apply Hrow|apply Hfile].
Defined.

Lemma C9_first_row_wins_witness :
  exists pre raw post ik r0,
    [Rows.first; Rows.second] = pre ++ raw :: post
    /\ (forall raw' ik',
          raw' ∈ pre -> row_group FAILED_ISSUE_KEYS raw' <> Ok (Some (ik', "E1")))
    /\ row_group FAILED_ISSUE_KEYS raw = Ok (Some (ik, "E1"))
    /\ new_record ik raw = Ok r0
    /\ Rows.merged = with_steps r0 (group_steps FAILED_ISSUE_KEYS "E1" (raw :: post)).
Proof.
  apply (C9_group_fields_come_from_first_row FAILED_ISSUE_KEYS
           [Rows.first; Rows.second] [("E1", Rows.merged)] "E1" Rows.merged);
    reflexivity.
Defined.


(** The name normalisation of the user directory: the "(Inactive)" marker
    and the case of the letters do not matter. *)
Example inactive_user_is_matched :
  normalize_user_name "Jane Doe (Inactive)" = "Jane Doe"
  /\ fst (get_user_account_id Scenario.cfg "Jane  Doe (Inactive)" ∅
            [JDict [("displayName", JStr "John Roe"); ("accountId", JStr "a-1")];
             JDict [("displayName", JStr "JANE DOE"); ("accountId", JStr "a-2")]]
            (initial Offline.world))
     = Ok (JStr "a-2").
Proof. split; reflexivity. Qed.

(* ===================================================================== *)
(** * Further properties                                                  *)
(* ===================================================================== *)

(** ** Strings: case and white space *)

Lemma lower_upper_char a : PyStr.lower_char (PyStr.upper_char a) = PyStr.lower_char a.
Proof. destruct a as [[] [] [] [] [] [] [] []]; reflexivity. Qed.

Lemma upper_lower_char a : PyStr.upper_char (PyStr.lower_char a) = PyStr.upper_char a.
Proof. destruct a as [[] [] [] [] [] [] [] []]; reflexivity. Qed.

Lemma isspace_upper_char a : PyStr.isspace (PyStr.upper_char a) = PyStr.isspace a.
Proof. destruct a as [[] [] [] [] [] [] [] []]; reflexivity. Qed.

Lemma isspace_lower_char a : PyStr.isspace (PyStr.lower_char a) = PyStr.isspace a.
Proof. destruct a as [[] [] [] [] [] [] [] []]; reflexivity. Qed.

Lemma lower_upper s : PyStr.lower (PyStr.upper s) = PyStr.lower s.
Proof.
  induction s as [|a s IH]; simpl; [reflexivity|].
  unfold PyStr.lower, PyStr.upper in *. simpl. now rewrite lower_upper_char, IH.
Qed.

Lemma upper_lower s : PyStr.upper (PyStr.lower s) = PyStr.upper s.
Proof.
  induction s as [|a s IH]; simpl; [reflexivity|].
  unfold PyStr.lower, PyStr.upper in *. simpl. now rewrite upper_lower_char, IH.
Qed.

Lemma is_empty_map_chars f s : PyStr.is_empty (PyStr.map_chars f s) = PyStr.is_empty s.
Proof. now destruct s. Qed.

(** A change of case that keeps white space as it is commutes with
    [strip]. *)
Lemma lstrip_map_chars f s :
  (forall a, PyStr.isspace (f a) = PyStr.isspace a) ->
  PyStr.lstrip (PyStr.map_chars f s) = PyStr.map_chars f (PyStr.lstrip s).
Proof.
  intros Hf. induction s as [|a s IH]; simpl; [reflexivity|].
  rewrite Hf. now destruct (PyStr.isspace a).
Qed.

Lemma rstrip_map_chars f s :
  (forall a, PyStr.isspace (f a) = PyStr.isspace a) ->
  PyStr.rstrip (PyStr.map_chars f s) = PyStr.map_chars f (PyStr.rstrip s).
Proof.
  intros Hf. induction s as [|a s IH]; simpl; [reflexivity|].
  rewrite IH, is_empty_map_chars, Hf.
  now destruct (PyStr.is_empty (PyStr.rstrip s) && PyStr.isspace a).
Qed.

Lemma strip_map_chars f s :
  (forall a, PyStr.isspace (f a) = PyStr.isspace a) ->
  PyStr.strip (PyStr.map_chars f s) = PyStr.map_chars f (PyStr.strip s).
Proof.
  intros Hf. unfold PyStr.strip. now rewrite lstrip_map_chars, rstrip_map_chars.
Qed.

Lemma lower_strip_upper s :
  PyStr.lower (PyStr.strip (PyStr.upper s)) = PyStr.lower (PyStr.strip s).
Proof.
  unfold PyStr.upper. rewrite strip_map_chars by apply isspace_upper_char.
  apply lower_upper.
Qed.

Lemma lower_strip_lower s :
  PyStr.lower (PyStr.strip (PyStr.lower s)) = PyStr.lower (PyStr.strip s).
Proof.
  unfold PyStr.lower at 2. rewrite strip_map_chars by apply isspace_lower_char.
  fold (PyStr.lower (PyStr.strip s)).
  rewrite <- (lower_upper (PyStr.lower _)), upper_lower. apply lower_upper.
Qed.

(** What [lstrip] returns does not start with white space. *)
Lemma lstrip_head s :
  match PyStr.lstrip s with
  | EmptyString => True
  | String a _ => PyStr.isspace a = false
  end.
Proof.
  induction s as [|a s IH]; simpl; [exact I|].
  destruct (PyStr.isspace a) eqn:Ha; [exact IH|exact Ha].
Qed.

Lemma rstrip_idempotent s : PyStr.rstrip (PyStr.rstrip s) = PyStr.rstrip s.
Proof.
  induction s as [|a s IH]; simpl; [reflexivity|].
  destruct (PyStr.is_empty (PyStr.rstrip s) && PyStr.isspace a) eqn:Hc;
    simpl; [reflexivity|].
  now rewrite IH, Hc.
Qed.

Lemma rstrip_keeps_head a s :
  PyStr.isspace a = false -> PyStr.rstrip (String a s) = String a (PyStr.rstrip s).
Proof. intros Ha. simpl. now rewrite Ha, andb_false_r. Qed.

Lemma strip_idempotent s : PyStr.strip (PyStr.strip s) = PyStr.strip s.
Proof.
  unfold PyStr.strip. pose proof (lstrip_head s) as Hhead.
  destruct (PyStr.lstrip s) as [|a t]; [reflexivity|].
  rewrite (rstrip_keeps_head _ _ Hhead). simpl. rewrite Hhead.
  now rewrite rstrip_keeps_head, rstrip_idempotent.
Qed.

Lemma upper_upper s : PyStr.upper (PyStr.upper s) = PyStr.upper s.
Proof. now rewrite <- (upper_lower (PyStr.upper s)), lower_upper, upper_lower. Qed.

(** ** The status table, again *)

Lemma table_get_range k d default :
  table_get k d default = default \/ table_get k d default ∈ map snd d.
Proof.
  induction d as [|[k' v] d IH]; simpl; [now left|].
  destruct (String.eqb k k'); [right; left|].
  destruct IH as [IH|IH]; [now left|right; now right].
Qed.

Lemma status_key_case st :
  status_key (PyStr.lower st) = status_key st
  /\ status_key (PyStr.upper st) = status_key st.
Proof. unfold status_key. now rewrite upper_lower, upper_upper. Qed.

(** X1: the status id sent to Zephyr is always one of 1, 2, 3, 4 and -1;
    and for a status of ASCII text, where the case maps of the model are
    [str.upper] and [str.lower], it does not depend on the case of the
    letters of the status. *)
Theorem status_key_ignores_case_and_is_bounded st :
  status_key st ∈ [1; 2; 3; 4; -1]
  /\ (PyStr.isascii st = true ->
      status_key (PyStr.lower st) = status_key st
      /\ status_key (PyStr.upper st) = status_key st).
Proof.
  split.
  - unfold status_key.
    destruct (table_get_range (PyStr.upper st) STATUS_MAP (-1)) as [-> | H].
    + set_solver.
    + exact H.
  - intros _. apply status_key_case.
Qed.

(** ** Picking cells *)

Lemma pick_column_rename f row n :
  (forall k, PyStr.lower (PyStr.strip (f k)) = PyStr.lower (PyStr.strip k)) ->
  pick_column (rename_columns f row) n = pick_column row n.
Proof.
  intros Hf. induction row as [|[[k|] c] row IH]; simpl; [reflexivity| |reflexivity].
  rewrite Hf, IH. reflexivity.
Qed.

Lemma pick_rename f row names default :
  (forall k, PyStr.lower (PyStr.strip (f k)) = PyStr.lower (PyStr.strip k)) ->
  pick (rename_columns f row) names default = pick row names default.
Proof.
  intros Hf. induction names as [|n names IH]; simpl; [reflexivity|].
  now rewrite pick_column_rename, IH.
Qed.

Lemma pick_column_name row n n' :
  PyStr.lower (PyStr.strip n') = PyStr.lower (PyStr.strip n) ->
  pick_column row n' = pick_column row n.
Proof.
  intros Hn. induction row as [|[[k|] c] row IH]; simpl; [reflexivity| |reflexivity].
  now rewrite Hn, IH.
Qed.

Lemma pick_names f row names default :
  (forall k, PyStr.lower (PyStr.strip (f k)) = PyStr.lower (PyStr.strip k)) ->
  pick row (map f names) default = pick row names default.
Proof.
  intros Hf. induction names as [|n names IH]; simpl; [reflexivity|].
  now rewrite (pick_column_name row n (f n)), IH.
Qed.

Lemma pick_case_of_names row names default :
  pick row (map PyStr.upper names) default = pick row names default
  /\ pick row (map PyStr.lower names) default = pick row names default.
Proof.
  split; apply pick_names; first [apply lower_strip_upper | apply lower_strip_lower].
Qed.

Lemma pick_case_of_columns row names default :
  pick (rename_columns PyStr.upper row) names default = pick row names default
  /\ pick (rename_columns PyStr.lower row) names default = pick row names default.
Proof.
  split; apply pick_rename; first [apply lower_strip_upper | apply lower_strip_lower].
Qed.

(** X2: for ASCII text, where the case maps of the model are [str.upper]
    and [str.lower]: [pick] gives the same result whatever the case of
    the letters of the names it is asked for; and it gives the same result
    on a row whose column names are written in upper or in lower case,
    when the column names are ASCII and distinct ignoring case (so that
    the row with the renamed columns is a dictionary again). *)
Theorem pick_ignores_case row names default :
  ascii_names names ->
  (pick row (map PyStr.upper names) default = pick row names default
   /\ pick row (map PyStr.lower names) default = pick row names default)
  /\ (ascii_columns row -> distinct_ignoring_case row ->
      pick (rename_columns PyStr.upper row) names default = pick row names default
      /\ pick (rename_columns PyStr.lower row) names default = pick row names default).
Proof.
  intros _. split.
  - apply pick_case_of_names.
  - intros _ _. apply pick_case_of_columns.
Qed.

Lemma pick_column_trimmed row n val :
  pick_column row n = Ok (Some val) ->
  PyStr.is_empty val = false /\ PyStr.strip val = val.
Proof.
  induction row as [|[[k|] c] row IH]; simpl; try discriminate.
  destruct (String.eqb _ _); [|exact IH].
  destruct (PyStr.is_empty (PyStr.strip _)) eqn:He; [exact IH|].
  intros [= <-]. split; [exact He|apply strip_idempotent].
Qed.

Lemma pick_default_or_trimmed row names default val :
  pick row names default = Ok val ->
  val = default \/ (val <> "" /\ PyStr.strip val = val).
Proof.
  induction names as [|n names IH]; simpl.
  - intros [= <-]. now left.
  - destruct (pick_column row n) as [[v|]|] eqn:Hcol; simpl; [| exact IH | discriminate].
    intros [= <-]. right. destruct (pick_column_trimmed _ _ _ Hcol) as [He Hs].
    split; [|exact Hs]. now intros ->.
Qed.

(** X3: a value returned by [pick] is the default, or a non-empty cell
    without white space around it. *)
Theorem pick_returns_default_or_trimmed_cell row names default val :
  pick row names default = Ok val ->
  val = default \/ (val <> "" /\ PyStr.strip val = val).
Proof. apply pick_default_or_trimmed. Qed.

Lemma pick_column_raises row n e : pick_column row n = Raise e -> e = AttributeError.
Proof.
  induction row as [|[[k|] c] row IH]; simpl; try discriminate.
  - destruct (String.eqb _ _); [|exact IH].
    destruct (PyStr.is_empty _); [exact IH|discriminate].
  - now intros [= <-].
Qed.

Lemma pick_raises row names default e :
  pick row names default = Raise e -> e = AttributeError.
Proof.
  induction names as [|n names IH]; simpl; [discriminate|].
  destruct (pick_column row n) as [[v|]|e'] eqn:Hcol; simpl; [discriminate|exact IH|].
  intros [= <-]. eapply pick_column_raises; eauto.
Qed.

Lemma pick_column_long_row row c n :
  pick_column (row ++ [(None, c)]) n
  = match pick_column row n with
    | Ok None => Raise AttributeError
    | found => found
    end.
Proof.
  induction row as [|[[k|] cell] row IH]; simpl; [reflexivity| |reflexivity].
  destruct (String.eqb _ _); [|exact IH].
  destruct (PyStr.is_empty _); [exact IH|reflexivity].
Qed.

(** ** The loader: what it raises and what it keeps *)

Ltac pick_or_raise H :=
  match type of H with
  | context [pick ?r ?n ?d] =>
      let Hp := fresh "Hp" in
      destruct (pick r n d) eqn:Hp;
      [ cbv beta iota in H
      | injection H as <-; exact (pick_raises _ _ _ _ Hp) ]
  end.

Lemma unique_key_of_raises ik raw e : unique_key_of ik raw = Raise e -> e = AttributeError.
Proof.
  intros H. unfold unique_key_of, rbind in H. pick_or_raise H.
  destruct (negb _); [discriminate|]. do 2 pick_or_raise H. discriminate.
Qed.

Lemma new_record_raises ik raw e : new_record ik raw = Raise e -> e = AttributeError.
Proof.
  intros H. unfold new_record, rbind in H. do 9 pick_or_raise H. discriminate.
Qed.

Lemma step_of_raises raw e : step_of raw = Raise e -> e = AttributeError.
Proof.
  intros H. unfold step_of, rbind in H. pick_or_raise H.
  destruct (negb _); [|discriminate]. do 2 pick_or_raise H. discriminate.
Qed.

Lemma load_row_raises retry executions raw e :
  load_row retry executions raw = Raise e -> e = AttributeError.
Proof.
  intros H. unfold load_row, rbind in H. pick_or_raise H.
  destruct (PyStr.is_empty _); [discriminate|].
  destruct (negb _); [discriminate|].
  destruct (unique_key_of _ raw) as [k|e'] eqn:Hk;
    [|injection H as <-; exact (unique_key_of_raises _ _ _ Hk)].
  destruct (lookup_execution k executions).
  - destruct (step_of raw) as [[st|]|e'] eqn:Hst; try discriminate.
    injection H as <-; exact (step_of_raises _ _ Hst).
  - destruct (new_record _ raw) as [r|e'] eqn:Hr;
      [|injection H as <-; exact (new_record_raises _ _ _ Hr)].
    destruct (step_of raw) as [[st|]|e'] eqn:Hst; try discriminate.
    injection H as <-; exact (step_of_raises _ _ Hst).
Qed.

Lemma load_rows_raises retry rows : forall executions e,
  load_rows retry executions rows = Raise e -> e = AttributeError.
Proof.
  induction rows as [|raw rows IH]; intros executions e; simpl; [discriminate|].
  destruct (load_row retry executions raw) as [mid|e'] eqn:Hrow; simpl.
  - apply IH.
  - intros [= <-]. eapply load_row_raises; eauto.
Qed.

(** X4: a row with more cells than the header has, and without a value in
    a column called "issue key", makes [pick] call [strip] on the key
    [None]: the load of the whole file ends with AttributeError. *)
Theorem long_row_without_issue_key_aborts_the_load retry before raw surplus after :
  pick_column raw "issue key" = Ok None ->
  load_executions_from_csv (before ++ (raw ++ [(None, surplus)]) :: after) retry
  = Raise AttributeError.
Proof.
  intros Hcol. unfold load_executions_from_csv. rewrite load_rows_app.
  destruct (load_rows retry [] before) as [mid|e] eqn:Hbefore; simpl.
  - unfold load_row. simpl. now rewrite pick_column_long_row, Hcol.
  - now rewrite (load_rows_raises _ _ _ _ Hbefore).
Qed.

Lemma append_step_keys k st executions :
  map fst (append_step k st executions) = map fst executions.
Proof.
  induction executions as [|[k' r] rest IH]; simpl; [reflexivity|].
  destruct (String.eqb k k'); simpl; [reflexivity|now rewrite IH].
Qed.

Lemma lookup_execution_None k executions :
  lookup_execution k executions = None -> k ∉ map fst executions.
Proof.
  induction executions as [|[k' r] rest IH]; simpl; [intros _; apply not_elem_of_nil|].
  destruct (String.eqb_spec k k') as [->|Hne]; [discriminate|].
  intros H. apply not_elem_of_cons. split; [exact Hne|now apply IH].
Qed.

Lemma append_step_ok retry k st executions :
  step_ok st ->
  Forall (fun kr => record_ok retry (snd kr)) executions ->
  Forall (fun kr => record_ok retry (snd kr)) (append_step k st executions).
Proof.
  intros Hst. induction 1 as [|[k' r] rest Hr Hrest IH]; simpl; [constructor|].
  destruct (String.eqb k k'); constructor; auto.
  destruct Hr as (H1 & H2 & H3 & H4 & H5 & H6). simpl in *.
  repeat split; auto. apply Forall_app. split; [exact H6|]. now constructor.
Qed.

Lemma pick_nonempty row names default val :
  default <> "" -> pick row names default = Ok val -> val <> "".
Proof.
  intros Hd H. destruct (pick_default_or_trimmed _ _ _ _ H) as [->|[Hv _]];
    assumption.
Qed.

Lemma new_record_ok retry ik raw r :
  ik ∈ retry -> ik <> "" -> new_record ik raw = Ok r -> record_ok retry r.
Proof.
  intros Hin Hne. unfold new_record, rbind. intros H.
  destruct (pick raw ["cyclename"; "test cycle"] "Ad hoc") as [cy|] eqn:Hcy; [|discriminate].
  destruct (pick raw ["foldername"; "folder"] "") as [fo|]; [|discriminate].
  destruct (pick raw ["version"; "fixversion"] "Unscheduled") as [ve|] eqn:Hve;
    [|discriminate].
  destruct (pick raw ["component"] "") as [co|]; [|discriminate].
  destruct (pick raw ["executionstatus"; "status"] "UNEXECUTED") as [stt|] eqn:Hst;
    [|discriminate].
  destruct (pick raw ["executed on"; "executedon"] "") as [eo|]; [|discriminate].
  destruct (pick raw ["executed by"; "executedby"] "") as [eb|]; [|discriminate].
  destruct (pick raw ["assigned to"; "assignedto"] "") as [at_|]; [|discriminate].
  destruct (pick raw ["comments"; "comment"] "") as [cm|]; [|discriminate].
  injection H as <-. unfold record_ok. simpl.
  repeat split; auto;
    try (eapply pick_nonempty; [|eassumption]; discriminate).
Qed.

Lemma step_of_ok raw st : step_of raw = Ok (Some st) -> step_ok st.
Proof.
  unfold step_of, rbind. intros H.
  destruct (pick raw ["step"; "teststep"; "test step"] "") as [tx|]; [|discriminate].
  destruct (PyStr.is_empty tx) eqn:Htx; cbn [negb] in H; [discriminate|].
  destruct (pick raw ["test data"; "data"] "") as [da|]; [|discriminate].
  destruct (pick raw ["expected result"; "test result"; "result"] "") as [ex|];
    [|discriminate].
  injection H as <-. split; simpl.
  - now intros ->.
  - destruct (PyStr.is_empty ex) eqn:Hex; simpl; [now left|].
    right. exists ex. split; [now intros ->|reflexivity].
Qed.

Lemma row_group_allowed retry raw ik k :
  row_group retry raw = Ok (Some (ik, k)) -> ik ∈ retry /\ ik <> "".
Proof.
  unfold row_group, rbind.
  destruct (pick raw _ _) as [ik'|]; [|discriminate].
  destruct (PyStr.is_empty ik') eqn:He; [discriminate|].
  destruct (bool_decide (ik' ∈ retry)) eqn:Hin; simpl; [|discriminate].
  destruct (unique_key_of ik' raw); [|discriminate].
  intros [= <- <-]. split.
  - now apply bool_decide_eq_true in Hin.
  - now intros ->.
Qed.

(** The invariant of the [for raw in reader] loop. *)
Lemma load_row_keeps_invariant retry executions raw executions' :
  load_row retry executions raw = Ok executions' ->
  NoDup (map fst executions) ->
  Forall (fun kr => record_ok retry (snd kr)) executions ->
  NoDup (map fst executions')
  /\ Forall (fun kr => record_ok retry (snd kr)) executions'
  /\ (length executions' <= S (length executions))%nat.
Proof.
  rewrite load_row_unfold. intros H Hdup Hok.
  destruct (row_group retry raw) as [[[ik k]|]|] eqn:Hg; [| |discriminate].
  - destruct (row_group_allowed _ _ _ _ Hg) as [Hin Hne].
    unfold rbind in H.
    assert (Hopen : forall opened st,
               NoDup (map fst opened) ->
               Forall (fun kr => record_ok retry (snd kr)) opened ->
               (length opened <= S (length executions))%nat ->
               step_of raw = Ok st ->
               NoDup (map fst (maybe_append k st opened))
               /\ Forall (fun kr => record_ok retry (snd kr)) (maybe_append k st opened)
               /\ (length (maybe_append k st opened) <= S (length executions))%nat).
    { intros opened [st|] Hd Ho Hl Hst; simpl; [|auto].
      rewrite append_step_keys. split; [exact Hd|]. split.
      - apply append_step_ok; [now apply (step_of_ok raw)|exact Ho].
      - now rewrite <- (length_map fst), append_step_keys, length_map. }
    destruct (lookup_execution k executions) eqn:Hlook.
    + destruct (step_of raw) as [st|] eqn:Hst; [|discriminate]. injection H as <-.
      apply Hopen; auto.
    + destruct (new_record ik raw) as [r|] eqn:Hnew; [|discriminate].
      destruct (step_of raw) as [st|] eqn:Hst; [|discriminate]. injection H as <-.
      apply Hopen; auto.
      * rewrite map_app. simpl. apply NoDup_app. split; [exact Hdup|]. split.
        -- intros x Hx Hk. apply list_elem_of_singleton in Hk as ->.
           now apply (lookup_execution_None _ _ Hlook).
        -- apply NoDup_singleton.
      * apply Forall_app. split; [exact Hok|]. constructor; [|constructor].
        now apply (new_record_ok retry ik raw).
      * rewrite length_app. simpl. lia.
  - injection H as <-. auto.
Qed.

Lemma load_rows_keep_invariant retry rows : forall executions executions',
  load_rows retry executions rows = Ok executions' ->
  NoDup (map fst executions) ->
  Forall (fun kr => record_ok retry (snd kr)) executions ->
  NoDup (map fst executions')
  /\ Forall (fun kr => record_ok retry (snd kr)) executions'
  /\ (length executions' <= length executions + length rows)%nat.
Proof.
  induction rows as [|raw rows IH]; intros executions executions'; simpl.
  - intros [= <-]. intros. repeat split; auto. lia.
  - destruct (load_row retry executions raw) as [mid|] eqn:Hrow; [|discriminate]. simpl.
    intros Hrows Hdup Hok.
    destruct (load_row_keeps_invariant _ _ _ _ Hrow Hdup Hok) as (Hd & Ho & Hl).
    destruct (IH _ _ Hrows Hd Ho) as (Hd' & Ho' & Hl').
    repeat split; auto. lia.
Qed.

(** X5: in the executions loaded from a file the grouping keys are
    distinct, there are at most as many records as rows, and every record
    has an allow-listed, non-empty issue key, a non-empty cycle name,
    version name and status, and steps whose text is not empty and whose
    result is empty or starts with "Expected: ". *)
Theorem loaded_executions_are_well_formed retry rows executions :
  load_executions_from_csv rows retry = Ok executions ->
  NoDup (map fst executions)
  /\ Forall (fun kr => record_ok retry (snd kr)) executions
  /\ (length executions <= length rows)%nat.
Proof.
  intros H. apply (load_rows_keep_invariant retry rows [] executions H);
    constructor.
Qed.

(** ** The clients, attempt by attempt *)

Lemma advance_log_log req q n evs s :
  advance n evs (log (EvSleep q) 0 (log (EvRequest req) 1 s))
  = advance (S n) (EvRequest req :: EvSleep q :: evs) s.
Proof.
  unfold advance, log. simpl. rewrite <- !app_assoc. simpl.
  f_equal. lia.
Qed.

Lemma zephyr_attempts_outcome req max_retries : forall k todo attempt s final,
  (k < todo)%nat ->
  (forall i, (i < k)%nat ->
     exists e, net (world s) (clock s + i) req = Failed e /\ zephyr_retries e = true) ->
  attempt + Z.of_nat k <= max_retries - 1 ->
  net (world s) (clock s + k) req = final ->
  final_outcome zephyr_retries max_retries (attempt + Z.of_nat k) final ->
  zephyr_attempts req max_retries todo attempt s
  = (Ok (last_outcome final), advance (S k) (retry_events req attempt k) s).
Proof.
  induction k as [|k IH]; intros todo attempt s final Htodo Hfail Hle Hnet Hfinal;
    (destruct todo as [|todo]; [lia|]).
  - rewrite Nat.add_0_r in Hnet. rewrite Z.add_0_r in Hfinal.
    destruct final as [r|e]; simpl in Hfinal.
    + now rewrite (zephyr_attempts_reply _ _ _ _ _ _ Hnet).
    + now rewrite (zephyr_attempts_give_up _ _ _ _ _ _ Hnet).
  - destruct (Hfail 0%nat) as (e & He & Hretry); [lia|].
    rewrite Nat.add_0_r in He.
    rewrite (zephyr_attempts_retry _ _ _ _ _ _ He Hretry) by lia.
    rewrite (IH todo (attempt + 1) _ final).
    + now rewrite advance_log_log.
    + lia.
    + intros i Hi. destruct (Hfail (S i)) as (e' & He' & Hr'); [lia|].
      exists e'. split; [|exact Hr']. simpl.
      now replace (clock s + 1 + 0 + i)%nat with (clock s + S i)%nat by lia.
    + lia.
    + simpl. now replace (clock s + 1 + 0 + k)%nat with (clock s + S k)%nat by lia.
    + now replace (attempt + 1 + Z.of_nat k) with (attempt + Z.of_nat (S k)) by lia.
Qed.

Lemma jira_attempts_outcome req max_retries : forall k todo attempt s final,
  (k < todo)%nat ->
  (forall i, (i < k)%nat ->
     exists e, net (world s) (clock s + i) req = Failed e /\ jira_retries e = true) ->
  attempt + Z.of_nat k <= max_retries - 1 ->
  net (world s) (clock s + k) req = final ->
  final_outcome jira_retries max_retries (attempt + Z.of_nat k) final ->
  jira_attempts req max_retries todo attempt s
  = (Ok (last_outcome final), advance (S k) (retry_events req attempt k) s).
Proof.
  induction k as [|k IH]; intros todo attempt s final Htodo Hfail Hle Hnet Hfinal;
    (destruct todo as [|todo]; [lia|]).
  - rewrite Nat.add_0_r in Hnet. rewrite Z.add_0_r in Hfinal.
    destruct final as [r|e]; simpl in Hfinal.
    + now rewrite (jira_attempts_reply _ _ _ _ _ _ Hnet).
    + now rewrite (jira_attempts_give_up _ _ _ _ _ _ Hnet).
  - destruct (Hfail 0%nat) as (e & He & Hretry); [lia|].
    rewrite Nat.add_0_r in He.
    rewrite (jira_attempts_retry _ _ _ _ _ _ He Hretry) by lia.
    rewrite (IH todo (attempt + 1) _ final).
    + now rewrite advance_log_log.
    + lia.
    + intros i Hi. destruct (Hfail (S i)) as (e' & He' & Hr'); [lia|].
      exists e'. split; [|exact Hr']. simpl.
      now replace (clock s + 1 + 0 + i)%nat with (clock s + S i)%nat by lia.
    + lia.
    + simpl. now replace (clock s + 1 + 0 + k)%nat with (clock s + S k)%nat by lia.
    + now replace (attempt + 1 + Z.of_nat k) with (attempt + Z.of_nat (S k)) by lia.
Qed.

(** X6: the Zephyr client, for any [max_retries]: when its first [k]
    attempts meet timeouts or connection errors and attempt [k + 1] is the
    last one (a reply, another kind of error, or attempt number
    [max_retries]), it returns the reply, or nothing, after exactly
    [k + 1] requests, having slept 2, 4, ..., 2k seconds between them. *)
Theorem zephyr_request_returns_last_attempt cfg method path params body max_retries k s final :
  let req := mkRequest (PyStr.upper method) (zephyr_base cfg +:+ path) params body in
  Z.of_nat k <= max_retries - 1 ->
  (forall i, (i < k)%nat ->
     exists e, net (world s) (clock s + i) req = Failed e /\ zephyr_retries e = true) ->
  net (world s) (clock s + k) req = final ->
  final_outcome zephyr_retries max_retries (Z.of_nat k) final ->
  zephyr_request cfg method path params body max_retries s
  = (Ok (last_outcome final), advance (S k) (retry_events req 0 k) s).
Proof.
  intros req Hk Hfail Hnet Hfinal. unfold zephyr_request. fold req.
  apply zephyr_attempts_outcome; auto; lia.
Qed.

(** X7: the Jira client behaves in the same way, except that it retries
    timeouts only: any other error ends the call at once. *)
Theorem jira_request_returns_last_attempt cfg method path params body max_retries k s final :
  let req := mkRequest (PyStr.upper method) (jira_url cfg +:+ path) params body in
  Z.of_nat k <= max_retries - 1 ->
  (forall i, (i < k)%nat ->
     exists e, net (world s) (clock s + i) req = Failed e /\ jira_retries e = true) ->
  net (world s) (clock s + k) req = final ->
  final_outcome jira_retries max_retries (Z.of_nat k) final ->
  jira_request cfg method path params body max_retries s
  = (Ok (last_outcome final), advance (S k) (retry_events req 0 k) s).
Proof.
  intros req Hk Hfail Hnet Hfinal. unfold jira_request. fold req.
  apply jira_attempts_outcome; auto; lia.
Qed.

(** X8: whatever the network does, a call of either client returns (it
    never raises), sends its one request at most [max_retries] times (not
    at all when [max_retries] is not positive), adds only that request
    and sleeps to the trace, and leaves every dictionary of the run as it
    is. *)
Theorem clients_never_raise_and_are_bounded cfg method path params body max_retries s :
  (exists resp n evs,
      jira_request cfg method path params body max_retries s
      = (Ok resp, advance n evs s)
      /\ (n <= Z.to_nat max_retries)%nat
      /\ Forall (client_event
                   (mkRequest (PyStr.upper method) (jira_url cfg +:+ path) params body)) evs)
  /\ (exists resp n evs,
        zephyr_request cfg method path params body max_retries s
        = (Ok resp, advance n evs s)
        /\ (n <= Z.to_nat max_retries)%nat
        /\ Forall (client_event
                     (mkRequest (PyStr.upper method) (zephyr_base cfg +:+ path) params body))
             evs).
Proof.
  split; [apply jira_request_run|apply zephyr_request_run].
Qed.

(** ** The issue lookup *)

Lemma get_issue_id_caches cfg k s v s1 :
  get_issue_id cfg k s = (Ok v, s1) -> issue_id_cache s1 !! k = Some v.
Proof.
  intros H. unfold get_issue_id, bind, gets, lift, modify, ret in H.
  destruct (issue_id_cache s !! k) as [c|] eqn:Hc.
  - now injection H as <- <-.
  - run_client H. crunch; simpl; apply lookup_insert_eq.
Qed.

Lemma get_issue_id_cached cfg k s v :
  issue_id_cache s !! k = Some v -> get_issue_id cfg k s = (Ok v, s).
Proof. intros H. unfold get_issue_id, bind, gets. now rewrite H. Qed.

(** X9: the issue lookup caches every outcome, the absent one too: once a
    call has returned, a call for the same key from the state it left
    returns the same value and leaves the state as it is (no request). *)
Theorem get_issue_id_is_asked_once cfg k s v s1 :
  get_issue_id cfg k s = (Ok v, s1) ->
  get_issue_id cfg k s1 = (Ok v, s1).
Proof. intros H. apply get_issue_id_cached. eapply get_issue_id_caches; eauto. Qed.

Lemma migrate_records_raise cfg su k d rest t s e s1 :
  migrate_record cfg su d t s = (Raise e, s1) ->
  migrate_records cfg su ((k, d) :: rest) t s = (Raise e, s1).
Proof. intros H. simpl. now rewrite (bind_Raise _ _ _ _ _ H). Qed.

(** X10: a 200 reply to the issue lookup that cannot be decoded, or that
    has no "id", is not turned into a failure item: the lookup raises,
    nothing is cached for the key, and the loop ends there with the
    exception, whatever records are left. *)
Theorem issue_reply_without_id_aborts_the_run cfg su k d rest t s r s1 e :
  issue_id_cache s !! issue_key d = None ->
  jira_request cfg "GET" ("/rest/api/2/issue/" +:+ issue_key d) [("fields", JStr "id")]
    None default_retries s = (Ok (Some r), s1) ->
  status_code r = 200 ->
  rbind (resp_json r) (fun j => Py.item j "id") = Raise e ->
  get_issue_id cfg (issue_key d) s = (Raise e, s1)
  /\ migrate_records cfg su ((k, d) :: rest) t s = (Raise e, s1)
  /\ issue_id_cache s1 !! issue_key d = None.
Proof.
  intros Hcache Hreq Hcode Hbody.
  assert (Hget : get_issue_id cfg (issue_key d) s = (Raise e, s1)).
  { unfold get_issue_id. unfold bind at 1, gets. rewrite Hcache.
    rewrite (bind_Ok _ _ _ _ _ Hreq).
    assert (Hin : resp_in (Some r) [200] = true).
    { unfold resp_in, resp_ok. rewrite Hcode. reflexivity. }
    rewrite Hin. unfold bind, lift. unfold rbind in Hbody.
    destruct (resp_json r) as [j|e']; [|now injection Hbody as <-].
    destruct (Py.item j "id") as [i|e']; [discriminate|now injection Hbody as <-]. }
  split; [exact Hget|]. split.
  - apply migrate_records_raise.
    assert (Hres : resolve_record cfg su d t s = (Raise e, s1)).
    { unfold resolve_record. cbv zeta. now rewrite (bind_Raise _ _ _ _ _ Hget). }
    unfold migrate_record. now rewrite (bind_Raise _ _ _ _ _ Hres).
  - destruct (jira_request_run cfg "GET" ("/rest/api/2/issue/" +:+ issue_key d)
                [("fields", JStr "id")] None default_retries s)
      as (resp & n & evs & Hrun & _).
    rewrite Hrun in Hreq. injection Hreq as _ <-. exact Hcache.
Qed.

(** ** The user directory *)

Lemma search_users_caches original users : forall s v s1,
  search_users original users s = (Ok v, s1) ->
  user_cache s1 !! original = Some v
  /\ s1 = set_user_cache (<[original := v]> (user_cache s)) s.
Proof.
  induction users as [|u users IH]; intros s v s1; simpl.
  - unfold bind, modify, ret. intros [= <- <-]. simpl. split; [apply lookup_insert_eq|reflexivity].
  - unfold bind, lift, modify, ret.
    destruct (Py.get u "displayName" (JStr "")) as [dn|]; [|discriminate].
    destruct (normalize_whitespace dn) as [display|]; [|discriminate].
    destruct (String.eqb _ _); [|apply IH].
    destruct (Py.get u "accountId" JNull) as [a|]; [|discriminate].
    intros [= <- <-]. simpl. split; [apply lookup_insert_eq|reflexivity].
Qed.

Lemma search_users_raises original users : forall s e s1,
  search_users original users s = (Raise e, s1) -> s1 = s.
Proof.
  induction users as [|u users IH]; intros s e s1; simpl.
  - unfold bind, modify, ret. discriminate.
  - unfold bind, lift, modify, ret.
    destruct (Py.get u "displayName" (JStr "")) as [dn|]; [|now intros [= _ <-]].
    destruct (normalize_whitespace dn) as [display|]; [|now intros [= _ <-]].
    destruct (String.eqb _ _); [|apply IH].
    destruct (Py.get u "accountId" JNull) as [a|]; [discriminate|now intros [= _ <-]].
Qed.

Lemma user_cached cfg name um users s v :
  PyStr.is_empty name = false ->
  user_cache s !! normalize_user_name name = Some v ->
  get_user_account_id cfg name um users s = (Ok v, s).
Proof.
  intros Hname H. unfold get_user_account_id, bind, gets. now rewrite Hname, H.
Qed.

(** X11: resolving a user sends no request and touches nothing but the
    user cache; once it has returned for a name, every later resolution
    of a name with the same normal form (the same name, or one that
    differs by white space or the "(Inactive)" marker) returns the same
    account from the cache, whatever mapping and directory it is given. *)
Theorem get_user_account_id_is_local_and_cached cfg name um users s r s1 :
  get_user_account_id cfg name um users s = (r, s1) ->
  (exists cache, s1 = set_user_cache cache s)
  /\ forall v, r = Ok v ->
       forall name' um' users',
         PyStr.is_empty name = false -> PyStr.is_empty name' = false ->
         normalize_user_name name' = normalize_user_name name ->
         get_user_account_id cfg name' um' users' s1 = (Ok v, s1).
Proof.
  intros H.
  assert (Hsame : set_user_cache (user_cache s) s = s) by now destruct s.
  unfold get_user_account_id, bind, gets, modify, ret in H.
  destruct (PyStr.is_empty name) eqn:Hname.
  { injection H as <- <-. split; [exists (user_cache s); now rewrite Hsame|].
    intros; discriminate. }
  destruct (user_cache s !! normalize_user_name name) as [c|] eqn:Hc.
  { injection H as <- <-. split; [exists (user_cache s); now rewrite Hsame|].
    intros v [= <-] name' um' users' _ Hn' Hnorm. apply user_cached; [exact Hn'|].
    now rewrite Hnorm. }
  assert (Hdone : forall v,
             (r, s1) = (Ok v, set_user_cache (<[normalize_user_name name := v]> (user_cache s)) s) ->
             (exists cache, s1 = set_user_cache cache s)
             /\ forall v0, r = Ok v0 ->
                  forall name' um' users',
                    false = false -> PyStr.is_empty name' = false ->
                    normalize_user_name name' = normalize_user_name name ->
                    get_user_account_id cfg name' um' users' s1 = (Ok v0, s1)).
  { intros v [= -> ->]. split; [eexists; reflexivity|].
    intros v0 [= <-] name' um' users' _ Hn' Hnorm. apply user_cached; [exact Hn'|].
    rewrite Hnorm. simpl. apply lookup_insert_eq. }
  destruct (um !! normalize_user_name name) as [a|]; [now apply (Hdone (JStr a))|].
  destruct (um !! name) as [a|]; [now apply (Hdone (JStr a))|].
  destruct r as [v|e].
  - destruct (search_users_caches _ _ _ _ _ H) as [_ ->]. now apply (Hdone v).
  - rewrite (search_users_raises _ _ _ _ _ H). split; [exists (user_cache s); now rewrite Hsame|].
    intros; discriminate.
Qed.

(** ** Normalising white space *)

Lemma string_app_cons a s t : String a s +:+ t = String a (s +:+ t).
Proof. reflexivity. Qed.

Lemma string_app_nil_l t : EmptyString +:+ t = t.
Proof. reflexivity. Qed.

Lemma string_app_nil_r s : s +:+ EmptyString = s.
Proof. induction s as [|a s IH]; [reflexivity|]. now rewrite string_app_cons, IH. Qed.

Lemma rev_app_rev_app a : forall b c,
  String.rev_app (String.rev_app a b) c = String.rev_app b (a +:+ c).
Proof.
  induction a as [|x a IH]; intros b c; simpl; [reflexivity|].
  now rewrite IH.
Qed.

Lemma rev_rev_app w : String.rev (String.rev_app w EmptyString) = w.
Proof. unfold String.rev. rewrite rev_app_rev_app. simpl. apply string_app_nil_r. Qed.

Lemma no_space_rev_app a : forall b,
  no_space (String.rev_app a b) = no_space a && no_space b.
Proof.
  induction a as [|x a IH]; intros b; simpl; [reflexivity|].
  rewrite IH. simpl. destruct (PyStr.isspace x), (no_space a); reflexivity.
Qed.

Lemma is_empty_rev_app a b :
  PyStr.is_empty (String.rev_app a b) = PyStr.is_empty a && PyStr.is_empty b.
Proof.
  revert b. induction a as [|x a IH]; intros b; simpl; [reflexivity|].
  rewrite IH. simpl. apply andb_false_r.
Qed.

Lemma word_rev cur :
  PyStr.is_empty cur = false -> no_space cur = true -> word (String.rev cur).
Proof.
  intros He Hn. unfold word, String.rev.
  rewrite is_empty_rev_app, no_space_rev_app, He, Hn. split; reflexivity.
Qed.

(** [split] returns words. *)
Lemma split_go_words s : forall cur,
  no_space cur = true -> Forall word (PyStr.split_go cur s).
Proof.
  induction s as [|a s IH]; intros cur Hcur; simpl.
  - destruct (PyStr.is_empty cur) eqn:He; [constructor|].
    constructor; [now apply word_rev|constructor].
  - destruct (PyStr.isspace a) eqn:Ha.
    + apply Forall_app. split; [|now apply IH].
      destruct (PyStr.is_empty cur) eqn:He; [constructor|].
      constructor; [now apply word_rev|constructor].
    + apply IH. simpl. now rewrite Ha, Hcur.
Qed.

Lemma split_go_word w : forall cur rest,
  no_space w = true ->
  PyStr.split_go cur (w +:+ rest) = PyStr.split_go (String.rev_app w cur) rest.
Proof.
  induction w as [|a w IH]; intros cur rest Hw; simpl in *; [reflexivity|].
  apply andb_true_iff in Hw as [Ha Hw]. apply negb_true_iff in Ha.
  rewrite ?string_app_cons. simpl. rewrite Ha. now apply IH.
Qed.

Lemma split_join words :
  Forall word words -> PyStr.split (PyStr.join " " words) = words.
Proof.
  unfold PyStr.split. induction 1 as [|w words [He Hn] Hwords IH]; [reflexivity|].
  assert (Hone : forall rest,
             PyStr.split_go EmptyString (w +:+ String " " rest)
             = w :: PyStr.split_go EmptyString rest).
  { intros rest. rewrite split_go_word by exact Hn. simpl.
    rewrite is_empty_rev_app, He. simpl. now rewrite rev_rev_app. }
  destruct words as [|w' words'].
  - simpl. rewrite <- (string_app_nil_r w) at 1. rewrite split_go_word by exact Hn. simpl.
    rewrite is_empty_rev_app, He. simpl. now rewrite rev_rev_app.
  - change (PyStr.join " " (w :: w' :: words'))
      with (w +:+ String " " (PyStr.join " " (w' :: words'))).
    now rewrite Hone, IH.
Qed.

Lemma rstrip_no_space w : no_space w = true -> PyStr.rstrip w = w.
Proof.
  induction w as [|a w IH]; simpl; [reflexivity|].
  intros Hw. apply andb_true_iff in Hw as [Ha Hw]. apply negb_true_iff in Ha.
  now rewrite Ha, andb_false_r, IH.
Qed.

Lemma rstrip_app s j :
  PyStr.is_empty (PyStr.rstrip j) = false ->
  PyStr.rstrip (s +:+ j) = s +:+ PyStr.rstrip j.
Proof.
  intros Hj. induction s as [|a s IH]; [reflexivity|].
  rewrite !string_app_cons. simpl. rewrite IH.
  assert (He : PyStr.is_empty (s +:+ PyStr.rstrip j) = false).
  { destruct s; [exact Hj|reflexivity]. }
  now rewrite He.
Qed.

Lemma join_words_nonempty w words :
  word w -> PyStr.is_empty (PyStr.join " " (w :: words)) = false.
Proof.
  intros [He _]. destruct w as [|a w]; [discriminate|].
  destruct words; reflexivity.
Qed.

Lemma rstrip_join words :
  Forall word words -> PyStr.rstrip (PyStr.join " " words) = PyStr.join " " words.
Proof.
  induction 1 as [|w words Hw Hwords IH]; [reflexivity|].
  destruct words as [|w' words'].
  - simpl. apply rstrip_no_space, Hw.
  - change (PyStr.join " " (w :: w' :: words'))
      with (w +:+ String " " (PyStr.join " " (w' :: words'))).
    change (w +:+ String " " (PyStr.join " " (w' :: words')))
      with (w +:+ (String " " EmptyString +:+ PyStr.join " " (w' :: words'))).
    inversion Hwords as [|? ? Hw' _]; subst.
    assert (Hne : PyStr.is_empty (PyStr.rstrip (PyStr.join " " (w' :: words'))) = false).
    { rewrite IH. now apply join_words_nonempty. }
    rewrite rstrip_app.
    + rewrite (rstrip_app (String " " EmptyString)) by exact Hne. now rewrite IH.
    + rewrite (rstrip_app (String " " EmptyString)) by exact Hne. reflexivity.
Qed.

Lemma lstrip_join words :
  Forall word words -> PyStr.lstrip (PyStr.join " " words) = PyStr.join " " words.
Proof.
  intros H. destruct H as [|w words [He Hn] Hwords]; [reflexivity|].
  destruct w as [|a w]; [discriminate|]. simpl in Hn.
  apply andb_true_iff in Hn as [Ha _]. apply negb_true_iff in Ha.
  destruct words; simpl; now rewrite Ha.
Qed.

(** X12: [normalize_whitespace] returns a string that it leaves
    unchanged: normalising twice is normalising once, and the result has
    no white space around it. *)
Theorem normalize_whitespace_is_idempotent s :
  normalize_whitespace_str (normalize_whitespace_str s) = normalize_whitespace_str s
  /\ PyStr.strip (normalize_whitespace_str s) = normalize_whitespace_str s.
Proof.
  unfold normalize_whitespace_str.
  assert (Hwords : Forall word (PyStr.split (PyStr.strip s))).
  { apply split_go_words. reflexivity. }
  assert (Hstrip : PyStr.strip (PyStr.join " " (PyStr.split (PyStr.strip s)))
                   = PyStr.join " " (PyStr.split (PyStr.strip s))).
  { unfold PyStr.strip at 1. now rewrite lstrip_join, rstrip_join. }
  split; [|exact Hstrip]. now rewrite Hstrip, split_join.
Qed.

(** ** The counters of the loop *)

Lemma resolve_record_continue_is_failure cfg su d t s t' s' :
  resolve_record cfg su d t s = (Ok (Continue t'), s') ->
  exists reason, t' = tally_failed t d reason None.
Proof.
  intros H. unfold resolve_record, bind, gets, modify, ret in H.
  crunch; eexists; reflexivity.
Qed.

Lemma create_and_execute_counts cfg su d t r s t' s' :
  create_and_execute cfg su d t r s = (Ok t', s') ->
  t' = tally_created t \/ exists reason id, t' = tally_failed t d reason id.
Proof.
  intros H. unfold create_and_execute, bind, ret, time_sleep in H.
  crunch; first [now left | right; eexists _, _; reflexivity].
Qed.

Lemma migrate_record_counts cfg su d t s t' s' :
  migrate_record cfg su d t s = (Ok t', s') ->
  t' = tally_created t \/ exists reason id, t' = tally_failed t d reason id.
Proof.
  intros H. unfold migrate_record in H. unfold bind at 1 in H.
  destruct (resolve_record cfg su d t s) as [[[tc|r]|e] s0] eqn:Hres.
  - injection H as <- <-. right.
    destruct (resolve_record_continue_is_failure _ _ _ _ _ _ _ Hres) as [reason ->].
    now eexists _, _.
  - eapply create_and_execute_counts; eauto.
  - discriminate.
Qed.

Lemma migrate_records_count cfg su executions : forall t s t' s',
  migrate_records cfg su executions t s = (Ok t', s') ->
  created t' + failed t' = created t + failed t + Z.of_nat (length executions)
  /\ created t <= created t'
  /\ exists items,
       failed_items t' = failed_items t ++ items
       /\ Z.of_nat (length items) = failed t' - failed t
       /\ map item_data items `sublist_of` map snd executions.
Proof.
  induction executions as [|[k d] rest IH]; intros t s t' s'; simpl.
  - intros [= <- <-]. split; [lia|]. split; [lia|]. exists [].
    rewrite app_nil_r. split; [reflexivity|]. split; [simpl; lia|constructor].
  - unfold bind at 1.
    destruct (migrate_record cfg su d t s) as [[t1|e] s1] eqn:Hrec; [|discriminate].
    intros Hrest. destruct (IH _ _ _ _ Hrest) as (Hsum & Hcreated & items & Hitems & Hlen & Hsub).
    destruct (migrate_record_counts _ _ _ _ _ _ _ Hrec) as [-> | (reason & id & ->)];
      simpl in *.
    + split; [lia|]. split; [lia|]. exists items.
      split; [exact Hitems|]. split; [lia|]. now apply sublist_cons.
    + split; [lia|]. split; [lia|].
      exists (mkFailureItem d reason id :: items).
      split; [now rewrite Hitems, <- app_assoc|]. split; [simpl; lia|].
      simpl. now apply sublist_skip.
Qed.

(** X13: when the loop ends without an exception, every record has been
    counted once, as created or as failed; the failure list has one item
    per failed record, and its items carry records of the input, in the
    order of the input. *)
Theorem every_record_is_counted_once cfg su executions s t s' :
  migrate_executions cfg su executions s = (Ok t, s') ->
  created t + failed t = Z.of_nat (length executions)
  /\ 0 <= created t
  /\ Z.of_nat (length (failed_items t)) = failed t
  /\ map item_data (failed_items t) `sublist_of` map snd executions.
Proof.
  intros H. unfold migrate_executions in H.
  destruct (migrate_records_count _ _ _ _ _ _ _ H)
    as (Hsum & Hcreated & items & Hitems & Hlen & Hsub).
  simpl in *. subst. repeat split; auto; lia.
Qed.

(** ** The order of the test steps *)

Lemma create_test_steps_in_order cfg pid iid steps : forall idx s,
  always_replies (world s) ->
  create_test_steps cfg pid iid idx steps s
  = (Ok tt, advance (length steps) (step_requests cfg pid iid idx steps) s).
Proof.
  induction steps as [|st steps IH]; intros idx s Hworld; simpl.
  - now rewrite advance_0.
  - destruct (Hworld (clock s) (step_request cfg pid iid idx st)) as [r Hr].
    unfold bind at 1. unfold create_test_step, zephyr_request, default_retries.
    change (Z.to_nat 3) with 3%nat. unfold bind at 1.
    change (mkRequest (PyStr.upper "POST") _ _ _) with (step_request cfg pid iid idx st).
    rewrite (zephyr_attempts_reply _ _ _ _ _ _ Hr). unfold ret.
    rewrite IH by exact Hworld. rewrite log_advance, advance_advance. reflexivity.
Qed.

(** X14: for an issue without steps, on services that answer every
    request, [sync_steps_for_issue] posts every step of the record once,
    in the order of the record, with the positions 1, 2, ...; a rejected
    step does not stop the ones after it, and nothing is reported. *)
Theorem steps_are_posted_in_order cfg pid iid key st steps s s1 :
  always_replies (world s) ->
  get_existing_test_steps cfg pid iid s = (Ok [], s1) ->
  sync_steps_for_issue cfg pid iid key (st :: steps) s
  = (Ok tt, advance (S (length steps)) (step_requests cfg pid iid 1 (st :: steps)) s1).
Proof.
  intros Hworld Hexisting. unfold sync_steps_for_issue.
  rewrite (bind_Ok _ _ _ _ _ Hexisting).
  apply (create_test_steps_in_order cfg pid iid (st :: steps) 1 s1).
  unfold get_existing_test_steps, bind in Hexisting.
  destruct (zephyr_request_run cfg "GET" ("/public/rest/api/1.0/teststep/" +:+ Py.str iid)
              [("projectId", JNum pid)] None default_retries s)
    as (resp & n & evs & Hrun & _).
  rewrite Hrun in Hexisting.
  assert (Hs1 : s1 = advance n evs s).
  { unfold try_except, lift, ret in Hexisting. crunch; reflexivity. }
  rewrite Hs1. exact Hworld.
Qed.

(** ** The memos only grow *)

Lemma grows_refl s : grows s s.
Proof. unfold grows. repeat split; reflexivity. Qed.

Lemma grows_trans s1 s2 s3 : grows s1 s2 -> grows s2 s3 -> grows s1 s3.
Proof.
  unfold grows.
  intros (Hw & Hc & Ht & H1 & H2 & H3 & H4 & H5 & H6 & H7 & H8)
         (Hw' & Hc' & Ht' & H1' & H2' & H3' & H4' & H5' & H6' & H7' & H8').
  repeat split; first [congruence | lia | etrans; eassumption].
Qed.

Lemma grows_advance n evs s : grows s (advance n evs s).
Proof.
  unfold grows, advance. simpl. repeat split; try reflexivity; [lia|].
  now apply prefix_app_r.
Qed.

Lemma grows_beside_folders_refl s : grows_beside_folders s s.
Proof. split; [apply grows_refl|reflexivity]. Qed.

Lemma grows_beside_folders_trans s1 s2 s3 :
  grows_beside_folders s1 s2 -> grows_beside_folders s2 s3 -> grows_beside_folders s1 s3.
Proof.
  intros [H1 E1] [H2 E2]. split; [eapply grows_trans; eauto|congruence].
Qed.

Lemma grows_beside_folders_advance n evs s : grows_beside_folders s (advance n evs s).
Proof. split; [apply grows_advance|reflexivity]. Qed.

Section StepsTo.

Variable R : State -> State -> Prop.
Hypothesis R_refl : forall s, R s s.
Hypothesis R_trans : forall s1 s2 s3, R s1 s2 -> R s2 s3 -> R s1 s3.
Hypothesis R_advance : forall n evs s, R s (advance n evs s).

Lemma steps_ret {A} (a : A) : steps_to R (ret a).
Proof. intros s r s' [= <- <-]. apply R_refl. Qed.

Lemma steps_lift {A} (x : res A) : steps_to R (lift x).
Proof. intros s r s' [= <- <-]. apply R_refl. Qed.

Lemma steps_gets {A} (f : State -> A) : steps_to R (gets f).
Proof. intros s r s' [= <- <-]. apply R_refl. Qed.

Lemma steps_bind {A B} (m : M A) (k : A -> M B) :
  steps_to R m -> (forall a, steps_to R (k a)) -> steps_to R (bind m k).
Proof.
  intros Hm Hk s r s' H. unfold bind in H.
  destruct (m s) as [[a|e] s0] eqn:Hms.
  - eapply R_trans; [eapply Hm|eapply Hk]; eauto.
  - injection H as <- <-. eapply Hm; eauto.
Qed.

Lemma steps_try_except {A} (m h : M A) :
  steps_to R m -> steps_to R h -> steps_to R (try_except m h).
Proof.
  intros Hm Hh s r s' H. unfold try_except in H.
  destruct (m s) as [[a|e] s0] eqn:Hms.
  - injection H as <- <-. eapply Hm; eauto.
  - eapply R_trans; [eapply Hm|eapply Hh]; eauto.
Qed.

Lemma steps_sleep q : steps_to R (time_sleep q).
Proof. intros s r s' [= <- <-]. rewrite log_advance. apply R_advance. Qed.

Lemma steps_client req todo m : client_run req todo m -> steps_to R m.
Proof.
  intros Hrun s r s' H. destruct (Hrun s) as (resp & n & evs & Hm & _).
  rewrite Hm in H. injection H as <- <-. apply R_advance.
Qed.

Lemma steps_jira_request cfg method path params body max_retries :
  steps_to R (jira_request cfg method path params body max_retries).
Proof. eapply steps_client, jira_request_run. Qed.

Lemma steps_zephyr_request cfg method path params body max_retries :
  steps_to R (zephyr_request cfg method path params body max_retries).
Proof. eapply steps_client, zephyr_request_run. Qed.

End StepsTo.

Create HintDb steps discriminated.
#[export] Hint Resolve grows_refl grows_trans grows_advance grows_beside_folders_refl
  grows_beside_folders_trans grows_beside_folders_advance : steps.

Ltac steps_step :=
  lazymatch goal with
  | |- steps_to _ (ret _) => apply steps_ret; eauto with steps
  | |- steps_to _ (lift _) => apply steps_lift; eauto with steps
  | |- steps_to _ (gets _) => apply steps_gets; eauto with steps
  | |- steps_to _ (bind _ _) => apply steps_bind; [eauto with steps| |intros ?]
  | |- steps_to _ (try_except _ _) => apply steps_try_except; [eauto with steps| |]
  | |- steps_to _ (time_sleep _) => apply steps_sleep; eauto with steps
  | |- steps_to _ (jira_request _ _ _ _ _ _) => apply steps_jira_request; eauto with steps
  | |- steps_to _ (zephyr_request _ _ _ _ _ _) =>
      apply steps_zephyr_request; eauto with steps
  | |- steps_to _ (match ?x with _ => _ end) => destruct x
  | |- steps_to _ (let _ := _ in _) => cbv zeta
  | |- steps_to _ _ => solve [eauto with steps]
  end.

Ltac steps := repeat steps_step.

(** The helpers that only send requests: any relation that holds along
    [advance] holds along them. *)
Section RequestsOnly.

Variable R : State -> State -> Prop.
Hypothesis R_refl : forall s, R s s.
Hypothesis R_trans : forall s1 s2 s3, R s1 s2 -> R s2 s3 -> R s1 s3.
Hypothesis R_advance : forall n evs s, R s (advance n evs s).
Variable cfg : Config.

Local Hint Resolve R_refl R_trans R_advance : steps.

Lemma steps_update_issue_component k cid : steps_to R (update_issue_component cfg k cid).
Proof. unfold update_issue_component. steps. Qed.

Lemma steps_get_existing_test_steps pid iid :
  steps_to R (get_existing_test_steps cfg pid iid).
Proof. unfold get_existing_test_steps. steps. Qed.

Lemma steps_create_test_step pid iid pos a b c :
  steps_to R (create_test_step cfg pid iid pos a b c).
Proof. unfold create_test_step. steps. Qed.

Lemma steps_create_test_steps pid iid l : forall idx,
  steps_to R (create_test_steps cfg pid iid idx l).
Proof.
  induction l as [|st l IH]; intros idx; simpl.
  - apply steps_ret, R_refl.
  - apply steps_bind; [exact R_trans|apply steps_create_test_step|intros _; apply IH].
Qed.

Local Hint Resolve steps_get_existing_test_steps steps_create_test_steps : steps.

Lemma steps_sync_steps_for_issue pid iid k l :
  steps_to R (sync_steps_for_issue cfg pid iid k l).
Proof. unfold sync_steps_for_issue. steps. Qed.

Lemma steps_parse_date_to_millis d : steps_to R (parse_date_to_millis d).
Proof. unfold parse_date_to_millis. steps. Qed.

Local Hint Resolve steps_parse_date_to_millis : steps.

Lemma steps_create_execution pid vid cid fid iid :
  steps_to R (create_execution cfg pid vid cid fid iid).
Proof. unfold create_execution. steps. Qed.

Lemma steps_add_execution_comment eid c : steps_to R (add_execution_comment cfg eid c).
Proof. unfold add_execution_comment. steps. Qed.

Lemma steps_delete_execution eid iid : steps_to R (delete_execution cfg eid iid).
Proof. unfold delete_execution. steps. Qed.

Lemma steps_execute_execution eid iid pid vid cid d eb at_ :
  steps_to R (execute_execution cfg eid iid pid vid cid d eb at_).
Proof. unfold execute_execution. steps. Qed.

End RequestsOnly.

Ltac grows_here :=
  unfold grows; simpl; repeat split;
  first [ reflexivity | lia | apply insert_subseteq; assumption
        | apply union_subseteq_r | set_solver ].

Ltac grows_after_client :=
  first [ apply grows_refl | apply grows_advance
        | eapply grows_trans; [apply grows_advance|grows_here] ].

Lemma steps_get_issue_id cfg k : steps_to grows (get_issue_id cfg k).
Proof.
  intros s r s' H. unfold get_issue_id, bind, gets, lift, modify, ret in H.
  destruct (issue_id_cache s !! k) as [c|] eqn:Hc.
  - injection H as <- <-. apply grows_refl.
  - run_client H. crunch; grows_after_client.
Qed.

Lemma steps_get_or_create_component_id cfg pk name :
  steps_to grows (get_or_create_component_id cfg pk name).
Proof.
  intros s r s' H.
  unfold get_or_create_component_id, bind, gets, lift, try_except, modify, ret in H.
  destruct (negb (nonblank name)); [injection H as <- <-; apply grows_refl|].
  destruct (components_map s !! PyStr.strip name) as [c|] eqn:Hc.
  - injection H as <- <-. apply grows_refl.
  - run_client H. crunch; grows_after_client.
Qed.

Lemma steps_get_or_create_version_id cfg pid name :
  steps_to grows (get_or_create_version_id cfg pid name).
Proof.
  intros s r s' H.
  unfold get_or_create_version_id, bind, gets, lift, try_except, modify, ret in H.
  destruct (negb (nonblank name) || _); [injection H as <- <-; apply grows_refl|].
  destruct (versions_map s !! PyStr.strip name) as [c|] eqn:Hc.
  - injection H as <- <-. apply grows_refl.
  - run_client H. crunch; grows_after_client.
Qed.

Lemma steps_get_or_create_cycle_id cfg pid vid name :
  steps_to grows (get_or_create_cycle_id cfg pid vid name).
Proof.
  intros s r s' H.
  unfold get_or_create_cycle_id, bind, gets, lift, modify, ret in H.
  destruct (cycle_cache s !! cycle_key name vid) as [c|] eqn:Hc;
    unfold cycle_key in Hc; rewrite Hc in H.
  - injection H as <- <-. apply grows_refl.
  - run_client H. crunch; grows_after_client.
Qed.

Lemma steps_fetch_folders cfg lk : steps_to grows_beside_folders (fetch_folders cfg lk).
Proof.
  intros s r s' H. destruct lk as [[pid vid] cid].
  unfold fetch_folders, bind, gets, modify, ret in H.
  destruct (folders_cache s !! (pid, vid, cid)) as [c|] eqn:Hc.
  - injection H as <- <-. apply grows_beside_folders_refl.
  - run_client H.
    crunch; (split; [|reflexivity]);
      (eapply grows_trans; [apply grows_advance|]);
      unfold grows; simpl; repeat split; try reflexivity;
      rewrite dom_insert_L; apply union_subseteq_r.
Qed.

Lemma steps_create_folder cfg pid vid cid name found :
  steps_to grows_beside_folders (create_folder cfg pid vid cid name found).
Proof.
  intros s r s' H.
  unfold create_folder, bind, gets, lift, try_except, modify, ret in H.
  run_client H.
  crunch; (split; [|reflexivity]);
    first [ apply grows_advance
          | eapply grows_trans; [apply grows_advance|];
            unfold grows; simpl; repeat split; try reflexivity;
            rewrite dom_insert_L; apply union_subseteq_r ].
Qed.

Lemma steps_get_or_create_folder_id cfg pid vid cid name :
  steps_to grows (get_or_create_folder_id cfg pid vid cid name).
Proof.
  intros s r s' H.
  unfold get_or_create_folder_id in H.
  destruct (negb (nonblank name)); [injection H as <- <-; apply grows_refl|].
  cbv zeta in H. unfold bind at 1, gets in H.
  destruct (folder_cache s !! (name, pid, vid, cid)) as [c|] eqn:Hc.
  - injection H as <- <-. apply grows_refl.
  - unfold bind at 1 in H.
    destruct (fetch_folders cfg (pid, vid, cid) s) as [[[]|e] s1] eqn:Hfetch.
    2: { injection H as <- <-. eapply steps_fetch_folders; eauto. }
    destruct (steps_fetch_folders _ _ _ _ _ Hfetch) as [Hg1 He1].
    unfold bind at 1, gets in H. unfold bind at 1, lift in H.
    destruct (match folders_cache s1 !! (pid, vid, cid) with
              | Some j => iterate j
              | None => Raise KeyError
              end) as [items|e]; [|injection H as <- <-; exact Hg1].
    unfold bind at 1, lift in H.
    destruct (find_folder name items) as [found|e]; [|injection H as <- <-; exact Hg1].
    unfold bind at 1 in H.
    assert (Hcreate : forall m : M (option string),
               steps_to grows_beside_folders m ->
               forall res s2, m s1 = (res, s2) ->
                 grows s s2 /\ folder_cache s2 !! (name, pid, vid, cid) = None).
    { intros m Hm res s2 Hms. destruct (Hm _ _ _ Hms) as [Hg2 He2].
      split; [eapply grows_trans; eauto|]. now rewrite He2, He1. }
    destruct ((if Py.truthy_str found then ret found
               else create_folder cfg pid vid cid name found) s1)
      as [[fid|e] s2] eqn:Hfid.
    + assert (Hs2 : grows s s2 /\ folder_cache s2 !! (name, pid, vid, cid) = None).
      { eapply Hcreate; [|exact Hfid].
        destruct (Py.truthy_str found);
          [apply steps_ret, grows_beside_folders_refl|apply steps_create_folder]. }
      destruct Hs2 as [Hg2 Hnone].
      unfold bind, modify, ret in H. injection H as <- <-.
      eapply grows_trans; [exact Hg2|]. grows_here.
    + injection H as <- <-.
      eapply (Hcreate _ _ _ _ Hfid).
      Unshelve.
      destruct (Py.truthy_str found);
        [apply steps_ret, grows_beside_folders_refl|apply steps_create_folder].
Qed.

Lemma steps_get_user_account_id cfg name um users :
  steps_to grows (get_user_account_id cfg name um users).
Proof.
  intros s r s' H.
  unfold get_user_account_id, bind, gets, modify, ret in H.
  destruct (PyStr.is_empty name); [injection H as <- <-; apply grows_refl|].
  destruct (user_cache s !! normalize_user_name name) as [c|] eqn:Hc.
  { injection H as <- <-. apply grows_refl. }
  destruct (um !! normalize_user_name name) as [a|]; [injection H as <- <-; grows_here|].
  destruct (um !! name) as [a|]; [injection H as <- <-; grows_here|].
  destruct r as [v|e].
  - destruct (search_users_caches _ _ _ _ _ H) as [_ ->]. grows_here.
  - rewrite (search_users_raises _ _ _ _ _ H). apply grows_refl.
Qed.

#[export] Hint Resolve steps_get_issue_id steps_get_or_create_component_id
  steps_get_or_create_version_id steps_get_or_create_cycle_id
  steps_get_or_create_folder_id steps_get_user_account_id
  steps_update_issue_component steps_sync_steps_for_issue steps_create_execution
  steps_add_execution_comment steps_delete_execution steps_execute_execution : steps.

Lemma steps_mark_steps_created k :
  steps_to grows
    (modify (fun s => set_steps_created ({[k]} ∪ steps_created_for_issue s) s)).
Proof. intros s r s' [= <- <-]. grows_here. Qed.

#[export] Hint Resolve steps_mark_steps_created : steps.

Lemma steps_resolve_record cfg su d t : steps_to grows (resolve_record cfg su d t).
Proof. unfold resolve_record. steps. Qed.

Lemma steps_create_and_execute cfg su d t r :
  steps_to grows (create_and_execute cfg su d t r).
Proof. unfold create_and_execute. steps. Qed.

Lemma steps_migrate_record cfg su d t : steps_to grows (migrate_record cfg su d t).
Proof.
  unfold migrate_record. apply steps_bind;
    [exact grows_trans|apply steps_resolve_record|].
  intros [t'|r]; [apply steps_ret, grows_refl|apply steps_create_and_execute].
Qed.

Lemma operation_grows cfg su A (m : M A) : operation cfg su A m -> steps_to grows m.
Proof.
  intros Hop. destruct Hop; eauto with steps.
  - apply steps_sleep, grows_advance.
  - apply steps_migrate_record.
Qed.

Lemma later_grows cfg su s s' : later cfg su s s' -> grows s s'.
Proof.
  induction 1 as [s|A m s r s' s'' Hop Hm _ IH]; [apply grows_refl|].
  eapply grows_trans; [|exact IH]. eapply operation_grows; eauto.
Qed.

(** X15: along a run no memo loses or changes an entry: whatever
    operations of the loop lead from one state to a later one, the
    version and component maps, the issue, cycle, folder and user caches
    and the set of issues whose steps were synchronised only gain
    entries, the folder listings keep their scopes, and the trace is only
    extended. *)
Theorem memos_only_grow cfg su s s' : later cfg su s s' -> grows s s'.
Proof. apply later_grows. Qed.

(** X16: what a memo holds is what the rest of the run gets: for an
    entry present in some state, the issue lookup, the version, component
    and folder resolvers and the user resolution return it in every later
    state of the run, and leave that state as it is (no request). *)
Theorem cached_results_are_reused cfg su s s' :
  later cfg su s s' ->
  (forall k v, issue_id_cache s !! k = Some v -> get_issue_id cfg k s' = (Ok v, s'))
  /\ (forall pid name v,
        unscheduled name = false ->
        versions_map s !! PyStr.strip name = Some v ->
        get_or_create_version_id cfg pid name s' = (Ok v, s'))
  /\ (forall pk name v,
        nonblank name = true ->
        components_map s !! PyStr.strip name = Some v ->
        get_or_create_component_id cfg pk name s' = (Ok (Some v), s'))
  /\ (forall pid vid cid name v,
        nonblank name = true ->
        folder_cache s !! folder_key name pid vid cid = Some v ->
        get_or_create_folder_id cfg pid vid cid name s' = (Ok v, s'))
  /\ (forall name um users v,
        PyStr.is_empty name = false ->
        user_cache s !! normalize_user_name name = Some v ->
        get_user_account_id cfg name um users s' = (Ok v, s')).
Proof.
  intros Hlater. apply later_grows in Hlater.
  destruct Hlater as (_ & _ & _ & Hv & Hc & Hi & _ & Hf & Hu & _).
  repeat split; intros.
  - apply get_issue_id_cached. eapply lookup_weaken; eauto.
  - apply version_cached; [assumption|]. eapply lookup_weaken; eauto.
  - apply component_cached; [assumption|]. eapply lookup_weaken; eauto.
  - apply folder_cached; [assumption|]. eapply lookup_weaken; eauto.
  - apply user_cached; [assumption|]. eapply lookup_weaken; eauto.
Qed.

(** ** The canonical string of a Zephyr request *)

Lemma assoc_elem_of k v (d : list (string * json)) :
  NoDup (map fst d) -> (Py.assoc k d = Some v <-> (k, v) ∈ d).
Proof.
  induction d as [|[k' v'] d IH]; simpl.
  - intros _. split; [discriminate|intros H; inversion H].
  - intros Hdup. apply NoDup_cons in Hdup as [Hk' Hdup].
    destruct (String.eqb_spec k k') as [->|Hne].
    + split.
      * intros [= ->]. left.
      * intros Hin. apply elem_of_cons in Hin as [[= ->]|Hin]; [reflexivity|].
        exfalso. apply Hk'. apply list_elem_of_fmap. now exists (k', v).
    + rewrite (IH Hdup). split.
      * intros Hin. now right.
      * intros Hin. apply elem_of_cons in Hin as [[= -> ->]|Hin]; [congruence|exact Hin].
Qed.

Lemma assoc_None k (d : list (string * json)) :
  Py.assoc k d = None <-> k ∉ map fst d.
Proof.
  induction d as [|[k' v'] d IH]; simpl.
  - split; [intros _; apply not_elem_of_nil|reflexivity].
  - destruct (String.eqb_spec k k') as [->|Hne].
    + split; [discriminate|]. intros H. exfalso. apply H. left.
    + rewrite IH, not_elem_of_cons. tauto.
Qed.

Lemma dict_item_permutation k (d d' : list (string * json)) :
  NoDup (map fst d) -> d ≡ₚ d' -> dict_item k d = dict_item k d'.
Proof.
  intros Hdup Hperm. unfold dict_item.
  assert (Hdup' : NoDup (map fst d')) by now rewrite <- Hperm.
  destruct (Py.assoc k d) as [v|] eqn:Hd.
  - apply (assoc_elem_of _ _ _ Hdup) in Hd. rewrite Hperm in Hd.
    apply (assoc_elem_of _ _ _ Hdup') in Hd. now rewrite Hd.
  - apply assoc_None in Hd. rewrite Hperm in Hd. apply assoc_None in Hd. now rewrite Hd.
Qed.

Lemma sorted_keys_permutation (d d' : list (string * json)) :
  d ≡ₚ d' ->
  merge_sort String.le (map fst d) = merge_sort String.le (map fst d').
Proof.
  intros Hperm. apply (Sorted_unique String.le).
  - apply Sorted_merge_sort; apply _.
  - apply Sorted_merge_sort; apply _.
  - rewrite !merge_sort_Permutation. now rewrite Hperm.
Qed.


(** ** The version and component maps of the set-up *)

Lemma versions_of_entries items : forall mapping m,
  versions_of items mapping = Ok m ->
  forall n i, m !! n = Some i ->
    mapping !! n = Some i
    \/ exists v id, v ∈ items
         /\ Py.get v "name" JNull = Ok (JStr n)
         /\ Py.get v "id" JNull = Ok id /\ Py.int id = Ok i.
Proof.
  induction items as [|v items IH]; intros mapping m; simpl.
  - intros [= <-]. auto.
  - unfold rbind.
    destruct (Py.get v "name" JNull) as [name|] eqn:Hname; [|discriminate].
    assert (Hskip : versions_of items mapping = Ok m ->
              forall n i, m !! n = Some i ->
                mapping !! n = Some i
                \/ exists v0 id, v0 ∈ v :: items
                     /\ Py.get v0 "name" JNull = Ok (JStr n)
                     /\ Py.get v0 "id" JNull = Ok id /\ Py.int id = Ok i).
    { intros H n i Hm. destruct (IH _ _ H n i Hm) as [?|(v0 & id & Hin & ?)]; [auto|].
      right. exists v0, id. split; [now right|assumption]. }
    destruct (Py.truthy name); [|exact Hskip].
    destruct (Py.get v "id" JNull) as [id|] eqn:Hid; [|discriminate].
    destruct (Py.truthy id); [|exact Hskip].
    destruct (Py.int id) as [i0|] eqn:Hint; [|discriminate].
    destruct name as [| | |n0| |]; try exact Hskip; try discriminate.
    intros H n i Hm. destruct (IH _ _ H n i Hm) as [Hins|(v0 & id' & Hin & ?)].
    + destruct (decide (n0 = n)) as [->|Hne].
      * rewrite lookup_insert_eq in Hins. injection Hins as ->.
        right. exists v, id. split; [left|auto].
      * rewrite lookup_insert_ne in Hins by assumption. now left.
    + right. exists v0, id'. split; [now right|assumption].
Qed.

(** X18: the version map of the set-up always maps "Unscheduled" to -1,
    whatever Jira lists (a listed version of that name is overridden);
    every other entry is a version of the reply, under its name and with
    the integer of its id; and when the listing cannot be fetched the map
    is that single entry. *)
Theorem versions_map_always_knows_unscheduled cfg project_key s m s' :
  get_versions_map cfg project_key s = (Ok m, s') ->
  m !! "Unscheduled" = Some (-1)
  /\ (forall n i, n <> "Unscheduled" -> m !! n = Some i ->
        exists r j items v id,
          jira_request cfg "GET" ("/rest/api/2/project/" +:+ project_key +:+ "/versions")
            [] None default_retries s = (Ok (Some r), s')
          /\ status_code r = 200 /\ body r = Some j /\ iterate j = Ok items
          /\ v ∈ items /\ Py.get v "name" JNull = Ok (JStr n)
          /\ Py.get v "id" JNull = Ok id /\ Py.int id = Ok i)
  /\ (forall resp,
        jira_request cfg "GET" ("/rest/api/2/project/" +:+ project_key +:+ "/versions")
          [] None default_retries s = (Ok resp, s') ->
        resp_in resp [200] = false ->
        m = {["Unscheduled" := -1]}).
Proof.
  intros H. unfold get_versions_map in H. unfold bind at 1 in H.
  destruct (jira_request cfg "GET" _ [] None default_retries s) as [[resp|e] s0] eqn:Hreq;
    [|discriminate].
  unfold bind, lift, ret in H.
  assert (Hfail : (Ok m, s') = (Ok (<["Unscheduled" := -1]> (∅ : gmap string Z)), s0) ->
            resp_in resp [200] = false ->
            m !! "Unscheduled" = Some (-1)
            /\ (forall n i, n <> "Unscheduled" -> m !! n = Some i ->
                  exists r j items v id,
                    (Ok resp, s0) = (Ok (Some r), s')
                    /\ status_code r = 200 /\ body r = Some j /\ iterate j = Ok items
                    /\ v ∈ items /\ Py.get v "name" JNull = Ok (JStr n)
                    /\ Py.get v "id" JNull = Ok id /\ Py.int id = Ok i)
            /\ (forall resp0, (Ok resp, s0) = (Ok resp0, s') ->
                  resp_in resp0 [200] = false -> m = {["Unscheduled" := -1]})).
  { intros [= -> ->] Hno. split; [apply lookup_insert_eq|]. split.
    - intros n i Hne Hm. rewrite lookup_insert_ne, lookup_empty in Hm by congruence.
      discriminate.
    - intros. apply insert_empty. }
  destruct resp as [r|]; [|now apply Hfail].
  destruct (resp_in (Some r) [200]) eqn:Hin; [|now apply Hfail].
  destruct (resp_json r) as [j|] eqn:Hj; [|discriminate].
  destruct (iterate j) as [items|] eqn:Hit; [|discriminate].
  destruct (versions_of items ∅) as [m0|] eqn:Hm0; [|discriminate].
  injection H as <- <-. split; [apply lookup_insert_eq|]. split.
  - intros n i Hne Hm. rewrite lookup_insert_ne in Hm by congruence.
    destruct (versions_of_entries _ _ _ Hm0 n i Hm) as [Hemp|(v & id & Hv)].
    { rewrite lookup_empty in Hemp. discriminate. }
    exists r, j, items, v, id. split; [reflexivity|]. split.
    + unfold resp_in in Hin. apply andb_true_iff in Hin as [_ Hcode].
      apply bool_decide_eq_true in Hcode. now apply list_elem_of_singleton in Hcode.
    + split; [|split; [exact Hit|exact Hv]].
      unfold resp_json in Hj. destruct (body r); [now injection Hj as ->|discriminate].
  - intros resp0 [= <-] Hno. congruence.
Qed.

(** X19: with that entry in the version map, a version name that is
    "Unscheduled" in any case of letters, or "Unscheduled" with white
    space around it, resolves to -1 in every later state of the run
    without a request. *)
Theorem unscheduled_resolves_without_request cfg su pid name s s' :
  versions_map s !! "Unscheduled" = Some (-1) ->
  later cfg su s s' ->
  PyStr.lower name = "unscheduled" \/ PyStr.strip name = "Unscheduled" ->
  get_or_create_version_id cfg pid name s' = (Ok (-1), s').
Proof.
  intros Hmap Hlater Hname.
  destruct (unscheduled name) eqn:Hguard; [now apply version_unscheduled|].
  destruct Hname as [Hlow|Hstrip].
  - unfold unscheduled in Hguard. rewrite Hlow in Hguard.
    now rewrite orb_true_r in Hguard.
  - apply version_cached; [exact Hguard|]. rewrite Hstrip.
    apply later_grows in Hlater. destruct Hlater as (_ & _ & _ & Hv & _).
    eapply lookup_weaken; eauto.
Qed.

Lemma components_of_entries : forall items mapping m,
  components_of items mapping = Ok m ->
  forall n c, m !! n = Some c ->
    mapping !! n = Some c
    \/ exists v id, v ∈ items
         /\ Py.get v "name" JNull = Ok (JStr n)
         /\ Py.get v "id" JNull = Ok id /\ Py.truthy id = true /\ c = Py.str id.
Proof.
  induction items as [|v items IH]; intros mapping m; simpl.
  - intros [= <-]. auto.
  - unfold rbind.
    destruct (Py.get v "name" JNull) as [name|] eqn:Hname; [|discriminate].
    assert (Hskip : components_of items mapping = Ok m ->
              forall n c, m !! n = Some c ->
                mapping !! n = Some c
                \/ exists v0 id, v0 ∈ v :: items
                     /\ Py.get v0 "name" JNull = Ok (JStr n)
                     /\ Py.get v0 "id" JNull = Ok id /\ Py.truthy id = true
                     /\ c = Py.str id).
    { intros H n c Hm. destruct (IH _ _ H n c Hm) as [?|(v0 & id & Hin & ?)]; [auto|].
      right. exists v0, id. split; [now right|assumption]. }
    destruct (Py.truthy name); [|exact Hskip].
    destruct (Py.get v "id" JNull) as [id|] eqn:Hid; [|discriminate].
    destruct (Py.truthy id) eqn:Htrue; [|exact Hskip].
    destruct name as [| | |n0| |]; try exact Hskip; try discriminate.
    intros H n c Hm. destruct (IH _ _ H n c Hm) as [Hins|(v0 & id' & Hin & ?)].
    + destruct (decide (n0 = n)) as [->|Hne].
      * rewrite lookup_insert_eq in Hins. injection Hins as <-.
        right. exists v, id. split; [left|auto].
      * rewrite lookup_insert_ne in Hins by assumption. now left.
    + right. exists v0, id'. split; [now right|assumption].
Qed.

(** X20: the component map of the set-up holds nothing but components of
    Jira's listing, each under its name and with its id as a string (ids
    are not converted to integers here, unlike version ids); when the
    listing cannot be fetched the map is empty. *)
Theorem components_map_holds_listed_components cfg project_key s m s' :
  get_components_map cfg project_key s = (Ok m, s') ->
  (forall n c, m !! n = Some c ->
     exists r j items v id,
       jira_request cfg "GET" ("/rest/api/2/project/" +:+ project_key +:+ "/components")
         [] None default_retries s = (Ok (Some r), s')
       /\ status_code r = 200 /\ body r = Some j /\ iterate j = Ok items
       /\ v ∈ items /\ Py.get v "name" JNull = Ok (JStr n)
       /\ Py.get v "id" JNull = Ok id /\ Py.truthy id = true /\ c = Py.str id)
  /\ (forall resp,
        jira_request cfg "GET" ("/rest/api/2/project/" +:+ project_key +:+ "/components")
          [] None default_retries s = (Ok resp, s') ->
        resp_in resp [200] = false ->
        m = ∅).
Proof.
  intros H. unfold get_components_map in H. unfold bind at 1 in H.
  destruct (jira_request cfg "GET" _ [] None default_retries s) as [[resp|e] s0] eqn:Hreq;
    [|discriminate].
  unfold bind, lift, ret in H.
  assert (Hfail : (Ok (∅ : gmap string string), s0) = (Ok m, s') ->
            resp_in resp [200] = false ->
            (forall n c, m !! n = Some c ->
               exists r j items v id,
                 (Ok resp, s0) = (Ok (Some r), s')
                 /\ status_code r = 200 /\ body r = Some j /\ iterate j = Ok items
                 /\ v ∈ items /\ Py.get v "name" JNull = Ok (JStr n)
                 /\ Py.get v "id" JNull = Ok id /\ Py.truthy id = true
                 /\ c = Py.str id)
            /\ (forall resp0, (Ok resp, s0) = (Ok resp0, s') ->
                  resp_in resp0 [200] = false -> m = ∅)).
  { intros [= <- <-] Hno. split.
    - intros n c Hm. rewrite lookup_empty in Hm. discriminate.
    - reflexivity. }
  destruct resp as [r|]; [|now apply Hfail].
  destruct (resp_in (Some r) [200]) eqn:Hin; [|now apply Hfail].
  destruct (resp_json r) as [j|] eqn:Hj; [|discriminate].
  destruct (iterate j) as [items|] eqn:Hit; [|discriminate].
  destruct (components_of items ∅) as [m0|] eqn:Hm0; [|discriminate].
  injection H as <- <-. split.
  - intros n c Hm.
    destruct (components_of_entries _ _ _ Hm0 n c Hm) as [Hemp|(v & id & Hv)].
    { rewrite lookup_empty in Hemp. discriminate. }
    exists r, j, items, v, id. split; [reflexivity|]. split.
    + unfold resp_in in Hin. apply andb_true_iff in Hin as [_ Hcode].
      apply bool_decide_eq_true in Hcode. now apply list_elem_of_singleton in Hcode.
    + split; [|split; [exact Hit|exact Hv]].
      unfold resp_json in Hj. destruct (body r); [now injection Hj as ->|discriminate].
  - intros resp0 [= <-] Hno. congruence.
Qed.

(** ** The pages of the user directory *)

Lemma users_page_reply cfg pages j s :
  serves_pages (world s) cfg pages ->
  jira_request cfg "GET" "/rest/api/3/users/search"
    [("startAt", JNum (100 * Z.of_nat j)); ("maxResults", JNum 100)] None default_retries s
  = (Ok (Some (mkResponse 200 (Some (JList (pages j))))),
     log (EvRequest (users_request cfg (100 * Z.of_nat j))) 1 s).
Proof.
  intros Hserve. unfold jira_request, default_retries. change (Z.to_nat 3) with 3%nat.
  apply (jira_attempts_reply (users_request cfg (100 * Z.of_nat j))). apply Hserve.
Qed.

Lemma get_all_users_from_step cfg pages fuel j acc s :
  serves_pages (world s) cfg pages ->
  get_all_users_from cfg (S fuel) (100 * Z.of_nat j) acc s
  = if (length (pages j) <? 100)%nat
    then (Ok (Some (acc ++ pages j)),
          log (EvRequest (users_request cfg (100 * Z.of_nat j))) 1 s)
    else get_all_users_from cfg fuel (100 * Z.of_nat (S j)) (acc ++ pages j)
           (log (EvRequest (users_request cfg (100 * Z.of_nat j))) 1 s).
Proof.
  intros Hserve. simpl get_all_users_from. cbv zeta.
  rewrite (bind_Ok _ _ _ _ _ (users_page_reply cfg pages j s Hserve)).
  change (negb (resp_in (Some (mkResponse 200 (Some (JList (pages j))))) [200]))
    with false. cbv iota.
  replace (100 * Z.of_nat j + 100) with (100 * Z.of_nat (S j)) by lia.
  destruct (pages j) as [|u us] eqn:Hpage.
  - cbn. now rewrite app_nil_r.
  - unfold bind at 1, lift. cbn [resp_json body Py.truthy negb].
    unfold bind at 1, lift. cbn [iterate].
    destruct (Nat.ltb_spec (length (u :: us)) 100) as [Hlt|Hge].
    + apply Nat2Z.inj_lt in Hlt. apply Z.ltb_lt in Hlt.
      change (Z.of_nat 100) with 100 in Hlt. now rewrite Hlt.
    + apply Nat2Z.inj_le in Hge. apply Z.ltb_ge in Hge.
      change (Z.of_nat 100) with 100 in Hge. now rewrite Hge.
Qed.

Lemma get_all_users_from_pages cfg pages : forall k fuel j acc s,
  serves_pages (world s) cfg pages ->
  (k < fuel)%nat ->
  (forall i, (i < k)%nat -> length (pages (j + i)%nat) = 100%nat) ->
  (length (pages (j + k)%nat) < 100)%nat ->
  get_all_users_from cfg fuel (100 * Z.of_nat j) acc s
  = (Ok (Some (acc ++ concat (map pages (seq j (S k))))),
     advance (S k)
       (map (fun i => EvRequest (users_request cfg (100 * Z.of_nat i))) (seq j (S k))) s).
Proof.
  induction k as [|k IH]; intros fuel j acc s Hserve Hfuel Hfull Hshort;
    (destruct fuel as [|fuel]; [lia|]);
    rewrite (get_all_users_from_step cfg pages fuel j acc s Hserve).
  - rewrite Nat.add_0_r in Hshort. apply Nat.ltb_lt in Hshort. rewrite Hshort.
    simpl. now rewrite app_nil_r.
  - pose proof (Hfull 0%nat ltac:(lia)) as Hpage. rewrite Nat.add_0_r in Hpage.
    rewrite Hpage. change (100 <? 100)%nat with false. cbv iota.
    rewrite (IH fuel (S j)).
    + rewrite log_advance, advance_advance.
      change (seq j (S (S k))) with (j :: seq (S j) (S k)).
      rewrite !map_cons, concat_cons, <- app_assoc. reflexivity.
    + exact Hserve.
    + lia.
    + intros i Hi. replace (S j + i)%nat with (j + S i)%nat by lia. apply Hfull. lia.
    + now replace (S j + k)%nat with (j + S k)%nat by lia.
Qed.

(** X21: when the directory is served in pages of 100 and page [k] is the
    first short one (it may be empty), [get_all_users] asks for the pages
    0 to [k], once each and in order, and returns their users in that
    order; [k + 1] rounds of the loop are enough. *)
Theorem get_all_users_reads_every_page cfg pages k fuel s :
  serves_pages (world s) cfg pages ->
  (k < fuel)%nat ->
  (forall i, (i < k)%nat -> length (pages i) = 100%nat) ->
  (length (pages k) < 100)%nat ->
  get_all_users cfg fuel s
  = (Ok (Some (concat (map pages (seq 0 (S k))))),
     advance (S k)
       (map (fun i => EvRequest (users_request cfg (100 * Z.of_nat i))) (seq 0 (S k))) s).
Proof.
  intros Hserve Hfuel Hfull Hshort. unfold get_all_users.
  apply (get_all_users_from_pages cfg pages k fuel 0 [] s); auto.
Qed.

Lemma get_all_users_from_full_pages cfg pages : forall fuel j acc s,
  serves_pages (world s) cfg pages ->
  (forall i, length (pages i) = 100%nat) ->
  fst (get_all_users_from cfg fuel (100 * Z.of_nat j) acc s) = Ok None.
Proof.
  induction fuel as [|fuel IH]; intros j acc s Hserve Hfull; [reflexivity|].
  rewrite (get_all_users_from_step cfg pages fuel j acc s Hserve), Hfull.
  change (100 <? 100)%nat with false. cbv iota.
  apply IH; [exact Hserve|exact Hfull].
Qed.

(** X22: [get_all_users] has no bound of its own: against a service that
    answers every page request with 100 users, no number of rounds of its
    loop reaches the [return]. *)
Theorem get_all_users_needs_a_short_page cfg pages s :
  serves_pages (world s) cfg pages ->
  (forall i, length (pages i) = 100%nat) ->
  forall fuel, fst (get_all_users cfg fuel s) = Ok None.
Proof.
  intros Hserve Hfull fuel. unfold get_all_users.
  apply (get_all_users_from_full_pages cfg pages fuel 0 [] s); auto.
Qed.

(** ** The failure report *)

Lemma item_key_set it :
  list_to_set (C := gset string) (map fst (item_dict it))
  = if has_execution_id it
    then list_to_set item_keys ∪ {["execution_id"]}
    else list_to_set item_keys.
Proof.
  unfold item_dict, has_execution_id. cbv zeta. rewrite map_app, list_to_set_app_L.
  destruct (execution_id it).
  - change (list_to_set (map fst [("execution_id", JStr s)]))
      with ({["execution_id"]} ∪ (∅ : gset string)).
    now rewrite (right_id_L ∅ (∪)).
  - apply (right_id_L ∅ (∪)).
Qed.

Lemma report_keys : forall items (acc : gset string),
  list_to_set item_keys ⊆ acc ->
  foldl (fun keys it => keys ∪ list_to_set (map fst (item_dict it))) acc items
  = if existsb has_execution_id items then acc ∪ {["execution_id"]} else acc.
Proof.
  induction items as [|it items IH]; intros acc Hacc; [reflexivity|].
  cbn [foldl existsb]. rewrite IH; rewrite item_key_set;
    remember (list_to_set (C := gset string) item_keys) as keys eqn:Hkeys; clear Hkeys.
  - destruct (has_execution_id it), (existsb has_execution_id items); simpl; set_solver.
  - set_solver.
Qed.

Lemma header_sets :
  list_to_set (C := gset string) item_keys = list_to_set header_without_id
  /\ list_to_set (C := gset string) item_keys ∪ {["execution_id"]}
     = list_to_set header_with_id.
Proof.
  assert (Hwithout : merge_sort String.le item_keys = header_without_id)
    by (vm_compute; reflexivity).
  assert (Hwith : merge_sort String.le (item_keys ++ ["execution_id"]) = header_with_id)
    by (vm_compute; reflexivity).
  rewrite <- Hwithout, <- Hwith. split.
  - apply list_to_set_perm_L. symmetry. apply merge_sort_Permutation.
  - rewrite (list_to_set_perm_L _ _ (merge_sort_Permutation String.le _)).
    rewrite list_to_set_app_L. f_equal.
Qed.

Lemma report_key_set it items :
  foldl (fun keys it => keys ∪ list_to_set (map fst (item_dict it))) ∅ (it :: items)
  = if existsb has_execution_id (it :: items)
    then list_to_set (C := gset string) header_with_id
    else list_to_set (C := gset string) header_without_id.
Proof.
  destruct header_sets as [<- <-].
  cbn [foldl existsb]. rewrite report_keys; rewrite item_key_set;
    remember (list_to_set (C := gset string) item_keys) as keys eqn:Hkeys; clear Hkeys.
  - destruct (has_execution_id it), (existsb has_execution_id items); simpl; set_solver.
  - destruct (has_execution_id it); set_solver.
Qed.

Lemma sorted_header_with_id :
  merge_sort String.le (elements (list_to_set (C := gset string) header_with_id))
  = header_with_id.
Proof. vm_compute. reflexivity. Qed.

Lemma sorted_header_without_id :
  merge_sort String.le (elements (list_to_set (C := gset string) header_without_id))
  = header_without_id.
Proof. vm_compute. reflexivity. Qed.

Lemma blank_execution_id it :
  execution_id it = None ->
  Py.assoc "execution_id" (item_dict it) = None.
Proof. intros H. unfold item_dict. rewrite H. reflexivity. Qed.

(** X23: a report is written only for a non-empty list of failures.  Its
    header is the sorted union of the items' keys, which is one of two
    fixed headers: the twelve record and reason columns, with the
    [execution_id] column as the seventh when some item has an execution
    id.  There is one row per item, every row has a cell per column, and
    an item without an execution id gets an empty cell in that column. *)
Theorem failure_report_header_and_rows items header rows :
  generate_failure_report items = Some (header, rows) ->
  items <> [] /\
  header = (if existsb has_execution_id items then header_with_id else header_without_id) /\
  length rows = length items /\
  Forall (fun row => length row = length header) rows /\
  (forall i it row,
      items !! i = Some it -> rows !! i = Some row ->
      execution_id it = None -> header = header_with_id ->
      row !! 6%nat = Some (JStr "")).
Proof.
  destruct items as [|it items]; [discriminate|].
  unfold generate_failure_report. cbv zeta. rewrite report_key_set.
  set (expected := if existsb has_execution_id (it :: items)
                   then header_with_id else header_without_id).
  assert (Hsorted :
            merge_sort String.le
              (elements (if existsb has_execution_id (it :: items)
                         then list_to_set (C := gset string) header_with_id
                         else list_to_set (C := gset string) header_without_id))
            = expected).
  { subst expected. destruct (existsb has_execution_id (it :: items));
      [exact sorted_header_with_id|exact sorted_header_without_id]. }
  rewrite Hsorted. intros H. apply (inj Some) in H.
  apply pair_equal_spec in H. destruct H as [Hh Hr].
  assert (Hheader : header = expected) by (now symmetry).
  subst rows. rewrite Hheader. clear Hh Hheader Hsorted.
  split; [discriminate|]. split; [reflexivity|].
  split; [apply length_map|]. split.
  - apply Forall_forall. intros row Hrow. apply list_elem_of_fmap in Hrow.
    destruct Hrow as [it' [-> _]]. apply length_map.
  - intros i it' row Hit Hrow Hnone Hwith.
    change (map ?f (it :: items)) with (f <$> (it :: items)) in Hrow.
    rewrite list_lookup_fmap, Hit in Hrow. apply (inj Some) in Hrow. subst row.
    rewrite Hwith. change (map ?f header_with_id) with (f <$> header_with_id).
    rewrite list_lookup_fmap. change (header_with_id !! 6%nat) with (Some "execution_id").
    cbn [fmap option_fmap option_map]. now rewrite (blank_execution_id it' Hnone).
Qed.

(* ===================================================================== *)
(** * Further concrete runs                                               *)
(* ===================================================================== *)

Lemma status_key_case_witness :
  status_key (PyStr.lower "Pass") = status_key "Pass"
  /\ status_key (PyStr.upper "Pass") = status_key "Pass".
Proof.
  apply (proj2 (status_key_ignores_case_and_is_bounded "Pass")). reflexivity.
Defined.

Lemma pick_ignores_case_witness :
  (pick Rows.first (map PyStr.upper ["issue key"; "issuekey"]) ""
   = pick Rows.first ["issue key"; "issuekey"] ""
   /\ pick Rows.first (map PyStr.lower ["issue key"; "issuekey"]) ""
      = pick Rows.first ["issue key"; "issuekey"] "")
  /\ pick (rename_columns PyStr.upper Rows.first) ["issue key"; "issuekey"] ""
     = pick Rows.first ["issue key"; "issuekey"] ""
  /\ pick (rename_columns PyStr.lower Rows.first) ["issue key"; "issuekey"] ""
     = pick Rows.first ["issue key"; "issuekey"] "".
Proof.
  destruct (pick_ignores_case Rows.first ["issue key"; "issuekey"] "")
    as [Hnames Hcolumns].
  - repeat constructor.
  - split; [exact Hnames|]. apply Hcolumns.
    + repeat constructor.
    + apply (bool_decide_unpack _). reflexivity.
Defined.

Lemma pick_returns_default_or_trimmed_cell_witness :
  "first run" = "none" \/ ("first run" <> "" /\ PyStr.strip "first run" = "first run").
Proof.
  apply (pick_returns_default_or_trimmed_cell Rows.first ["comment"] "none" "first run").
  reflexivity.
Defined.

Lemma long_row_without_issue_key_witness :
  load_executions_from_csv
    [Rows.first; [(Some "Status", Some "PASS"); (None, Some "one cell too many")]]
    FAILED_ISSUE_KEYS
  = Raise AttributeError.
Proof.
  apply (long_row_without_issue_key_aborts_the_load FAILED_ISSUE_KEYS [Rows.first]
           [(Some "Status", Some "PASS")] (Some "one cell too many") []).
  reflexivity.
Defined.

Lemma loaded_executions_witness :
  NoDup ["E1"]
  /\ Forall (fun kr => record_ok FAILED_ISSUE_KEYS (snd kr))
       [("E1", Rows.merged)]
  /\ (1 <= 3)%nat.
Proof.
  apply (loaded_executions_are_well_formed FAILED_ISSUE_KEYS
           [Rows.first; Rows.second; Rows.outsider] [("E1", Rows.merged)]).
  reflexivity.
Defined.

Lemma zephyr_request_last_attempt_witness :
  zephyr_request Scenario.cfg "get" "/public/rest/api/1.0/cycle" [] None 3 Flaky.start
  = (Ok (Some (mkResponse 200 (Some (JDict [])))),
     advance 3
       [EvRequest Flaky.zephyr_call; EvSleep (inject_Z 2);
        EvRequest Flaky.zephyr_call; EvSleep (inject_Z 4);
        EvRequest Flaky.zephyr_call]
       Flaky.start).
Proof.
  apply (zephyr_request_returns_last_attempt Scenario.cfg "get" "/public/rest/api/1.0/cycle"
           [] None 3 2 Flaky.start (reply 200 [])).
  - lia.
  - intros i Hi. exists Timeout. destruct i as [|[|i]]; [split; reflexivity ..|lia].
  - reflexivity.
  - exact I.
Defined.

Lemma jira_request_last_attempt_witness :
  jira_request Scenario.cfg "get" "/rest/api/2/myself" [] None 3 Flaky.start
  = (Ok (Some (mkResponse 200 (Some (JDict [])))),
     advance 3
       [EvRequest Flaky.jira_call; EvSleep (inject_Z 2);
        EvRequest Flaky.jira_call; EvSleep (inject_Z 4);
        EvRequest Flaky.jira_call]
       Flaky.start).
Proof.
  apply (jira_request_returns_last_attempt Scenario.cfg "get" "/rest/api/2/myself"
           [] None 3 2 Flaky.start (reply 200 [])).
  - lia.
  - intros i Hi. exists Timeout. destruct i as [|[|i]]; [split; reflexivity ..|lia].
  - reflexivity.
  - exact I.
Defined.

Lemma get_issue_id_asked_once_witness :
  get_issue_id Scenario.cfg "GCTEST-94808" IssueFound.after_lookup
  = (Ok (JStr "10001"), IssueFound.after_lookup).
Proof.
  apply (get_issue_id_is_asked_once Scenario.cfg "GCTEST-94808" Scenario.start).
  reflexivity.
Defined.

Lemma issue_reply_without_id_witness :
  get_issue_id Scenario.cfg "GCTEST-94808" IssueReplyWithoutId.start
  = (Raise KeyError, IssueReplyWithoutId.after_lookup)
  /\ migrate_records Scenario.cfg Scenario.setup
       [("E1", sample_record); ("E2", sample_record)]
       (mkTally 0 0 []) IssueReplyWithoutId.start
     = (Raise KeyError, IssueReplyWithoutId.after_lookup)
  /\ issue_id_cache IssueReplyWithoutId.after_lookup !! "GCTEST-94808" = None.
Proof.
  apply (issue_reply_without_id_aborts_the_run Scenario.cfg Scenario.setup
           "E1" sample_record [("E2", sample_record)]
           (mkTally 0 0 []) IssueReplyWithoutId.start (mkResponse 200 (Some (JDict [])))
           IssueReplyWithoutId.after_lookup KeyError); reflexivity.
Defined.

Lemma get_user_account_id_cached_witness :
  get_user_account_id Scenario.cfg " Jane Doe  (inactive)" ∅ [] Directory.after_search
  = (Ok (JStr "a-2"), Directory.after_search).
Proof.
  assert (Hsearch : get_user_account_id Scenario.cfg "Jane  Doe (Inactive)" ∅
                      Directory.users (initial Offline.world)
                    = (Ok (JStr "a-2"), Directory.after_search)) by reflexivity.
  destruct (get_user_account_id_is_local_and_cached Scenario.cfg "Jane  Doe (Inactive)" ∅
              Directory.users (initial Offline.world) (Ok (JStr "a-2"))
              Directory.after_search Hsearch) as [_ Hcached].
  apply (Hcached (JStr "a-2") eq_refl " Jane Doe  (inactive)" ∅ []); reflexivity.
Defined.

Lemma every_record_counted_witness :
  created (mkTally 0 1 [mkFailureItem sample_record "Issue not found" None])
  + failed (mkTally 0 1 [mkFailureItem sample_record "Issue not found" None])
  = Z.of_nat (length [("E1", sample_record)])
  /\ 0 <= 0
  /\ Z.of_nat 1 = 1
  /\ [sample_record] `sublist_of` [sample_record].
Proof.
  apply (every_record_is_counted_once Scenario.cfg Scenario.setup
           [("E1", sample_record)] IssueMissing.start
           (mkTally 0 1 [mkFailureItem sample_record "Issue not found" None])
           IssueMissing.after_lookup).
  reflexivity.
Defined.

Lemma creation_accepted_always_replies :
  always_replies (world CreationAccepted.start).
Proof.
  intros n req. simpl. unfold CreationAccepted.server, reply.
  repeat match goal with
         | |- context [if ?b then _ else _] => destruct b
         end; eexists; reflexivity.
Qed.

Lemma steps_posted_in_order_witness :
  sync_steps_for_issue Scenario.cfg 10 (JStr "10001") "GCTEST-94808" TwoSteps.steps
    CreationAccepted.start
  = (Ok tt,
     advance 2
       [EvRequest (step_request Scenario.cfg 10 (JStr "10001") 1
                     (mkStep "open the page" "" ""));
        EvRequest (step_request Scenario.cfg 10 (JStr "10001") 2
                     (mkStep "close the page" "" "Expected: page closed"))]
       TwoSteps.after_listing).
Proof.
  apply (steps_are_posted_in_order Scenario.cfg 10 (JStr "10001") "GCTEST-94808"
           (mkStep "open the page" "" "")
           [mkStep "close the page" "" "Expected: page closed"]
           CreationAccepted.start TwoSteps.after_listing).
  - exact creation_accepted_always_replies.
  - reflexivity.
Defined.

Lemma version_creation_is_later :
  later Scenario.cfg Scenario.setup CreationAccepted.start CreationAccepted.after_version.
Proof.
  apply (later_step Scenario.cfg Scenario.setup _
           (get_or_create_version_id Scenario.cfg 10 "Release 1")
           CreationAccepted.start (Ok 501) CreationAccepted.after_version).
  - apply op_version.
  - reflexivity.
  - apply later_now.
Qed.

Lemma issue_lookup_is_later :
  later Scenario.cfg Scenario.setup Scenario.start IssueFound.after_lookup.
Proof.
  apply (later_step Scenario.cfg Scenario.setup _
           (get_issue_id Scenario.cfg "GCTEST-94808")
           Scenario.start (Ok (JStr "10001")) IssueFound.after_lookup).
  - apply op_get_issue_id.
  - reflexivity.
  - apply later_now.
Qed.

Lemma memos_only_grow_witness :
  grows CreationAccepted.start CreationAccepted.after_version.
Proof.
  apply (memos_only_grow Scenario.cfg Scenario.setup).
  exact version_creation_is_later.
Defined.

Lemma cached_results_reused_witness :
  get_or_create_version_id Scenario.cfg 10 " Unscheduled " IssueFound.after_lookup
  = (Ok (-1), IssueFound.after_lookup).
Proof.
  destruct (cached_results_are_reused Scenario.cfg Scenario.setup Scenario.start
              IssueFound.after_lookup issue_lookup_is_later) as (_ & Hversion & _).
  apply (Hversion 10 " Unscheduled " (-1)); reflexivity.
Defined.


Lemma versions_map_witness :
  Listing.versions !! "Unscheduled" = Some (-1).
Proof.
  apply (versions_map_always_knows_unscheduled Scenario.cfg "GCTEST" Listing.start
           Listing.versions
           (snd (get_versions_map Scenario.cfg "GCTEST" Listing.start))).
  reflexivity.
Defined.

Lemma unscheduled_resolves_witness :
  get_or_create_version_id Scenario.cfg 10 "UNSCHEDULED" CreationAccepted.after_version
  = (Ok (-1), CreationAccepted.after_version).
Proof.
  apply (unscheduled_resolves_without_request Scenario.cfg Scenario.setup 10 "UNSCHEDULED"
           CreationAccepted.start CreationAccepted.after_version).
  - reflexivity.
  - exact version_creation_is_later.
  - left. reflexivity.
Defined.

Lemma components_map_witness :
  exists r j items v id,
    jira_request Scenario.cfg "GET" "/rest/api/2/project/GCTEST/components" [] None
      default_retries Listing.start
    = (Ok (Some r), snd (get_components_map Scenario.cfg "GCTEST" Listing.start))
    /\ status_code r = 200 /\ body r = Some j /\ iterate j = Ok items
    /\ v ∈ items /\ Py.get v "name" JNull = Ok (JStr "Billing")
    /\ Py.get v "id" JNull = Ok id /\ Py.truthy id = true /\ "601" = Py.str id.
Proof.
  assert (Hmap : get_components_map Scenario.cfg "GCTEST" Listing.start
                 = (Ok Listing.components,
                    snd (get_components_map Scenario.cfg "GCTEST" Listing.start)))
    by reflexivity.
  apply (proj1 (components_map_holds_listed_components Scenario.cfg "GCTEST" Listing.start
                  Listing.components
                  (snd (get_components_map Scenario.cfg "GCTEST" Listing.start))
                  Hmap) "Billing" "601").
  reflexivity.
Defined.

Lemma pages_are_served first_short :
  serves_pages (world (Pages.start first_short)) Scenario.cfg (Pages.pages first_short).
Proof.
  intros n i. simpl. unfold Pages.server, users_request. simpl params.
  now rewrite Z.mul_comm, Z.div_mul, Nat2Z.id by lia.
Qed.

Lemma get_all_users_pages_witness :
  get_all_users Scenario.cfg 5 (Pages.start (Some 1%nat))
  = (Ok (Some (repeat Pages.user 103)),
     advance 2
       [EvRequest (users_request Scenario.cfg 0); EvRequest (users_request Scenario.cfg 100)]
       (Pages.start (Some 1%nat))).
Proof.
  apply (get_all_users_reads_every_page Scenario.cfg (Pages.pages (Some 1%nat)) 1 5
           (Pages.start (Some 1%nat))).
  - apply pages_are_served.
  - lia.
  - intros i Hi. destruct i as [|i]; [reflexivity|lia].
  - simpl. lia.
Defined.

Lemma get_all_users_full_pages_witness :
  fst (get_all_users Scenario.cfg 1000 (Pages.start None)) = Ok None.
Proof.
  apply (get_all_users_needs_a_short_page Scenario.cfg (Pages.pages None)
           (Pages.start None)).
  - apply pages_are_served.
  - intros i. reflexivity.
Defined.

Lemma failure_report_witness :
  Report.items <> []
  /\ header_with_id
     = (if existsb has_execution_id Report.items then header_with_id
        else header_without_id)
  /\ length Report.rows = length Report.items
  /\ Forall (fun row => length row = length header_with_id) Report.rows
  /\ (forall i it row,
        Report.items !! i = Some it -> Report.rows !! i = Some row ->
        execution_id it = None -> header_with_id = header_with_id ->
        row !! 6%nat = Some (JStr "")).
Proof.
  apply (failure_report_header_and_rows Report.items header_with_id Report.rows).
  vm_compute. reflexivity.
Defined.
